(** * OneDrive share links to direct links: model and verification

    A shallow embedding of [OneDrive.py].  Python strings are sequences of
    Unicode code points; the functions of [urllib.parse] and the two regular
    expressions the program relies on are transcribed first, then the
    program's own functions, then the properties. *)

From Stdlib Require Import String Ascii.
From Stdlib Require Import List NArith ZArith Bool Arith Lia.
Import ListNotations.

Set Implicit Arguments.

(** ** Python [str]: sequences of code points *)

Definition char := N.
Definition str := list char.

Definition ch (a : Ascii.ascii) : char := Ascii.N_of_ascii a.
Arguments ch a%_char.

(** An ASCII literal, one code point per character of the literal. *)
Definition lit (s : String.string) : str :=
  map ch (String.list_ascii_of_string s).
Arguments lit s%_string.

Module PyStr.

Fixpoint eqb (a b : str) : bool :=
  match a, b with
  | [], [] => true
  | x :: a', y :: b' => N.eqb x y && eqb a' b'
  | _, _ => false
  end.

(** [c in s] for a one-character [c]. *)
Definition mem (c : char) (s : str) : bool := existsb (N.eqb c) s.

(** [s.startswith(p)] *)
Fixpoint startswith (p s : str) : bool :=
  match p, s with
  | [], _ => true
  | x :: p', y :: s' => N.eqb x y && startswith p' s'
  | _ :: _, [] => false
  end.

(** [s.endswith(p)] *)
Definition endswith (p s : str) : bool :=
  (length p <=? length s)%nat && eqb (skipn (length s - length p) s) p.

(** [sub in s] *)
Fixpoint contains (sub s : str) : bool :=
  startswith sub s ||
  match s with
  | [] => false
  | _ :: s' => contains sub s'
  end.

(** [s.find(c)], [None] standing for -1. *)
Fixpoint find (c : char) (s : str) : option nat :=
  match s with
  | [] => None
  | x :: s' => if N.eqb x c then Some 0%nat else option_map S (find c s')
  end.

(** The longest prefix without [c], and what follows it. *)
Fixpoint break (c : char) (s : str) : str * str :=
  match s with
  | [] => ([], [])
  | x :: s' =>
      if N.eqb x c then ([], s)
      else let '(a, b) := break c s' in (x :: a, b)
  end.

(** [s.partition(c)]: (before, separator found, after). *)
Definition partition (c : char) (s : str) : str * bool * str :=
  match break c s with
  | (a, _ :: b) => (a, true, b)
  | (_, []) => (s, false, [])
  end.

(** [s.rpartition(c)]: (before, separator found, after). *)
Definition rpartition (c : char) (s : str) : str * bool * str :=
  match break c (rev s) with
  | (a, _ :: b) => (rev b, true, rev a)
  | (_, []) => ([], false, s)
  end.

(** [s.split(c)] *)
Fixpoint split (c : char) (s : str) : list str :=
  match s with
  | [] => [[]]
  | x :: s' =>
      if N.eqb x c then [] :: split c s'
      else match split c s' with
           | h :: t => (x :: h) :: t
           | [] => [[x]]
           end
  end.

(** [sep.join(l)] *)
Fixpoint join (sep : str) (l : list str) : str :=
  match l with
  | [] => []
  | [x] => x
  | x :: l' => x ++ sep ++ join sep l'
  end.

(** [s.lstrip(chars)] *)
Fixpoint lstrip (chars : str) (s : str) : str :=
  match s with
  | [] => []
  | x :: s' => if mem x chars then lstrip chars s' else s
  end.

(** [s.replace(c, "")] *)
Definition remove (c : char) (s : str) : str :=
  filter (fun x => negb (N.eqb x c)) s.

(** [s.replace(c, d)] for one-character [c] and [d]. *)
Definition replace (c d : char) (s : str) : str :=
  map (fun x => if N.eqb x c then d else x) s.

Definition isascii (s : str) : bool := forallb (fun c => c <? 128)%N s.

(** [str.lower()] of one code point.  Besides the ASCII capitals, the only
    code points whose lowercase form contains an ASCII character are
    U+0130 and U+212A; every other non-ASCII code point lowercases to
    non-ASCII code points and is kept as it is here, which no comparison
    with an ASCII literal can tell apart. *)
Definition lower_char (c : char) : str :=
  if ((65 <=? c) && (c <=? 90))%N then [c + 32]%N
  else if (c =? 304)%N then [105; 775]%N
  else if (c =? 8490)%N then [107]%N
  else [c].

Definition lower (s : str) : str := flat_map lower_char s.

End PyStr.

(** ** Exceptions *)

(** [OtherError] stands for an exception of any other class that a request
    raises and that is not a [requests.RequestException] (urllib3's
    [LocationParseError], for one), with its text. *)
Inductive exn : Type :=
| OneDriveLinkError (msg : str)
| ValueError (msg : str)
| UnicodeEncodeError
| OtherError (description : str).

Inductive result (A : Type) : Type :=
| OK (a : A)
| Raise (e : exn).
Arguments OK {A} a.
Arguments Raise {A} e.

Definition rbind {A B} (r : result A) (f : A -> result B) : result B :=
  match r with
  | OK a => f a
  | Raise e => Raise e
  end.

Notation "'do' x <- r ; k" := (rbind r (fun x => k))
  (at level 10, x pattern, r at level 100, k at level 200).

(** ** UTF-8, as [str.encode('utf-8')] and [bytes.decode('utf-8', 'replace')] *)

Module Utf8.
Local Open Scope N_scope.

Definition REPLACEMENT : char := 65533.

Definition encode_char (c : char) : option (list N) :=
  if c <? 128 then Some [c]
  else if c <? 2048 then Some [192 + c / 64; 128 + c mod 64]
  else if (55296 <=? c) && (c <=? 57343) then None
  else if c <? 65536 then
    Some [224 + c / 4096; 128 + (c / 64) mod 64; 128 + c mod 64]
  else if c <? 1114112 then
    Some [240 + c / 262144; 128 + (c / 4096) mod 64;
          128 + (c / 64) mod 64; 128 + c mod 64]
  else None.

(** [s.encode('utf-8', 'strict')]: lone surrogates cannot be encoded. *)
Fixpoint encode (s : str) : result (list N) :=
  match s with
  | [] => OK []
  | c :: s' =>
      match encode_char c with
      | None => Raise UnicodeEncodeError
      | Some bs => do r <- encode s'; OK (bs ++ r)
      end
  end.

Definition is_cont (b : N) : bool := (128 <=? b) && (b <? 192).

(** [bs.decode('utf-8', 'replace')]: every maximal ill-formed part becomes
    one U+FFFD, a sequence cut by the end of the input included. *)
Fixpoint decode (bs : list N) : str :=
  match bs with
  | [] => []
  | b0 :: r0 =>
    if b0 <? 128 then b0 :: decode r0
    else if b0 <? 194 then REPLACEMENT :: decode r0
    else if b0 <? 224 then
      match r0 with
      | [] => [REPLACEMENT]
      | b1 :: r1 =>
          if is_cont b1 then ((b0 - 192) * 64 + (b1 - 128)) :: decode r1
          else REPLACEMENT :: decode r0
      end
    else if b0 <? 240 then
      match r0 with
      | [] => [REPLACEMENT]
      | b1 :: r1 =>
          if negb (is_cont b1)
             || (if b1 <? 160 then b0 =? 224 else b0 =? 237)
          then REPLACEMENT :: decode r0
          else
            match r1 with
            | [] => [REPLACEMENT]
            | b2 :: r2 =>
                if is_cont b2
                then ((b0 - 224) * 4096 + (b1 - 128) * 64 + (b2 - 128))
                       :: decode r2
                else REPLACEMENT :: decode r1
            end
      end
    else if b0 <? 245 then
      match r0 with
      | [] => [REPLACEMENT]
      | b1 :: r1 =>
          if negb (is_cont b1)
             || (if b1 <? 144 then b0 =? 240 else b0 =? 244)
          then REPLACEMENT :: decode r0
          else
            match r1 with
            | [] => [REPLACEMENT]
            | b2 :: r2 =>
                if negb (is_cont b2) then REPLACEMENT :: decode r1
                else
                  match r2 with
                  | [] => [REPLACEMENT]
                  | b3 :: r3 =>
                      if is_cont b3
                      then ((b0 - 240) * 262144 + (b1 - 128) * 4096
                            + (b2 - 128) * 64 + (b3 - 128)) :: decode r3
                      else REPLACEMENT :: decode r2
                  end
            end
      end
    else REPLACEMENT :: decode r0
  end.

(** A literal written in UTF-8 in this file. *)
Definition text (s : String.string) : str := decode (lit s).
Arguments text s%_string.

End Utf8.

(** ** [urllib.parse] *)

(** A netloc with a bracketed host is validated by [_check_bracketed_netloc],
    which relies on the [ipaddress] module; that validation is a parameter of
    the model: [None] when the netloc is accepted, the message of the
    [ValueError] otherwise. *)
Class BracketedHosts : Type :=
  { check_bracketed_netloc : str -> option str }.

Module Urllib.

Record SplitResult : Type := mkSplit
  { s_scheme : str; s_netloc : str; s_path : str;
    s_query : str; s_fragment : str }.

Record ParseResult : Type := mkParse
  { scheme : str; netloc : str; path : str;
    params : str; query : str; fragment : str }.

Definition uses_netloc : list str :=
  [ []; lit "ftp"; lit "http"; lit "gopher"; lit "nntp"; lit "telnet";
    lit "imap"; lit "wais"; lit "file"; lit "mms"; lit "https";
    lit "shttp"; lit "snews"; lit "prospero"; lit "rtsp"; lit "rtspu";
    lit "rsync"; lit "svn"; lit "svn+ssh"; lit "sftp"; lit "nfs";
    lit "git"; lit "git+ssh"; lit "ws"; lit "wss" ].

Definition uses_params : list str :=
  [ []; lit "ftp"; lit "hdl"; lit "prospero"; lit "http"; lit "imap";
    lit "https"; lit "shttp"; lit "rtsp"; lit "rtspu"; lit "sip";
    lit "sips"; lit "mms"; lit "sftp"; lit "tel" ].

Definition scheme_chars : str :=
  lit "abcdefghijklmnopqrstuvwxyzABCDEFGHIJKLMNOPQRSTUVWXYZ0123456789+-.".

(** U+0000 to U+0020 *)
Definition _WHATWG_C0_CONTROL_OR_SPACE : str := map N.of_nat (seq 0 33).

Definition _UNSAFE_URL_BYTES_TO_REMOVE : str := [9; 13; 10]%N.

Definition in_list (s : str) (l : list str) : bool :=
  existsb (PyStr.eqb s) l.

(** [url.find(c, start)] *)
Definition find_from (c : char) (start : nat) (url : str) : option nat :=
  option_map (Nat.add start) (PyStr.find c (skipn start url)).

(** [url.rfind(c)] *)
Definition rfind (c : char) (url : str) : option nat :=
  option_map (fun i => length url - 1 - i) (PyStr.find c (rev url)).

Definition _splitparams (url : str) : str * str :=
  let cut i := (firstn i url, skipn (S i) url) in
  if PyStr.mem (ch "/") url then
    match rfind (ch "/") url with
    | Some r =>
        match find_from (ch ";") r url with
        | Some i => cut i
        | None => (url, [])
        end
    | None => (url, [])
    end
  else
    match PyStr.find (ch ";") url with
    | Some i => cut i
    | None => (removelast url, url)
    end.

Definition _splitnetloc (url : str) (start : nat) : str * str :=
  let delim :=
    fold_left
      (fun delim c =>
         match find_from c start url with
         | Some wdelim => Nat.min delim wdelim
         | None => delim
         end)
      (lit "/?#") (length url) in
  (firstn (delim - start) (skipn start url), skipn delim url).

(** The code points whose NFKC form contains one of [/ ? # @ :]
    (Unicode 14).  Neither canonical reordering nor composition adds or
    removes one of these five characters, so that the normalised netloc
    contains one of them exactly when the netloc contains a code point of
    this table. *)
Definition nfkc_delimiters : list char :=
  [ 8263; 8264; 8265; 8448; 8449; 8453; 8454; 10868; 65043; 65046;
    65109; 65110; 65119; 65131; 65283; 65295; 65306; 65311; 65312 ]%N.

Definition _checknetloc (netloc : str) : result unit :=
  if match netloc with [] => true | _ => false end || PyStr.isascii netloc
  then OK tt
  else if existsb (fun c => PyStr.mem c nfkc_delimiters) netloc
  then Raise (ValueError
                (lit "netloc '" ++ netloc ++
                 lit "' contains invalid characters under NFKC normalization"))
  else OK tt.

Definition is_ascii_alpha (c : char) : bool :=
  ((65 <=? c) && (c <=? 90) || (97 <=? c) && (c <=? 122))%N.

(** The scheme stage of [urlsplit]: what stands before the first [:] is the
    scheme when it starts with an ASCII letter and holds scheme characters
    only; the scheme, lowercased, and what follows the [:]. *)
Definition split_scheme (url : str) : str * str :=
  match PyStr.find (ch ":") url, url with
  | Some (S i), c0 :: _ =>
      if is_ascii_alpha c0
         && forallb (fun c => PyStr.mem c scheme_chars) (firstn (S i) url)
      then (PyStr.lower (firstn (S i) url), skipn (S (S i)) url)
      else ([], url)
  | _, _ => ([], url)
  end.

(** [if c in url: url, rest = url.split(c, 1)] *)
Definition split_at (c : char) (url : str) : str * str :=
  if PyStr.mem c url
  then let '(a, _, b) := PyStr.partition c url in (a, b)
  else (url, []).

Section WithBracketedHosts.
Context {BH : BracketedHosts}.

(** The netloc stage of [urlsplit]: after [//], the network location up to
    the first delimiter, its brackets checked. *)
Definition split_netloc (url : str) : result (str * str) :=
  if PyStr.eqb (firstn 2 url) (lit "//") then
    let '(netloc, rest) := _splitnetloc url 2 in
    let has_open := PyStr.mem (ch "[") netloc in
    let has_close := PyStr.mem (ch "]") netloc in
    if has_open && negb has_close || has_close && negb has_open
    then Raise (ValueError (lit "Invalid IPv6 URL"))
    else if has_open && has_close then
      match check_bracketed_netloc netloc with
      | Some msg => Raise (ValueError msg)
      | None => OK (netloc, rest)
      end
    else OK (netloc, rest)
  else OK ([], url).

Definition urlsplit (url : str) : result SplitResult :=
  let url := PyStr.lstrip _WHATWG_C0_CONTROL_OR_SPACE url in
  let url :=
    fold_left (fun u b => PyStr.remove b u) _UNSAFE_URL_BYTES_TO_REMOVE url in
  let '(scheme, url) := split_scheme url in
  do (netloc, url) <- split_netloc url;
  let '(url, fragment) := split_at (ch "#") url in
  let '(url, query) := split_at (ch "?") url in
  do _ <- _checknetloc netloc;
  OK (mkSplit scheme netloc url query fragment).

Definition urlparse (url : str) : result ParseResult :=
  do sr <- urlsplit url;
  let '(url, params) :=
    if in_list (s_scheme sr) uses_params && PyStr.mem (ch ";") (s_path sr)
    then _splitparams (s_path sr)
    else (s_path sr, []) in
  OK (mkParse (s_scheme sr) (s_netloc sr) url params
              (s_query sr) (s_fragment sr)).

End WithBracketedHosts.

(** [_hostinfo[0]] *)
Definition _hostinfo_hostname (netloc : str) : str :=
  let '(_, _, hostinfo) := PyStr.rpartition (ch "@") netloc in
  let '(_, have_open_br, bracketed) := PyStr.partition (ch "[") hostinfo in
  if have_open_br
  then let '(hostname, _, _) := PyStr.partition (ch "]") bracketed in hostname
  else let '(hostname, _, _) := PyStr.partition (ch ":") hostinfo in hostname.

(** The [hostname] property; [None] is Python's [None]. *)
Definition hostname (p : ParseResult) : option str :=
  match _hostinfo_hostname (netloc p) with
  | [] => None
  | h =>
      let '(hostname, percent, zone) := PyStr.partition (ch "%") h in
      Some (PyStr.lower hostname
            ++ (if percent then [ch "%"] else []) ++ zone)
  end.

Definition urlunsplit (scheme netloc url query fragment : str) : str :=
  let nonempty (s : str) := match s with [] => false | _ => true end in
  let url :=
    if nonempty netloc
       || nonempty scheme && in_list scheme uses_netloc
          && negb (PyStr.eqb (firstn 2 url) (lit "//"))
    then
      let url :=
        if nonempty url && negb (PyStr.eqb (firstn 1 url) (lit "/"))
        then ch "/" :: url else url in
      lit "//" ++ netloc ++ url
    else url in
  let url := if nonempty scheme then scheme ++ ch ":" :: url else url in
  let url := if nonempty query then url ++ ch "?" :: query else url in
  let url := if nonempty fragment then url ++ ch "#" :: fragment else url in
  url.

Definition urlunparse (scheme netloc url params query fragment : str) : str :=
  let url := match params with
             | [] => url
             | _ => url ++ ch ";" :: params
             end in
  urlunsplit scheme netloc url query fragment.

(** *** Percent-decoding *)

Definition hexval (c : char) : option N :=
  if ((48 <=? c) && (c <=? 57))%N then Some (c - 48)%N
  else if ((65 <=? c) && (c <=? 70))%N then Some (c - 55)%N
  else if ((97 <=? c) && (c <=? 102))%N then Some (c - 87)%N
  else None.

(** What follows one [%]: the byte of a leading pair of hexadecimal digits
    and the rest, or the [%] kept with the item unchanged. *)
Definition unquote_item (item : list N) : list N :=
  match item with
  | a :: b :: rest =>
      match hexval a, hexval b with
      | Some x, Some y => (16 * x + y)%N :: rest
      | _, _ => ch "%" :: item
      end
  | _ => ch "%" :: item
  end.

(** [unquote_to_bytes], on a string of ASCII characters (its own UTF-8
    encoding). *)
Definition unquote_to_bytes (s : str) : list N :=
  match PyStr.split (ch "%") s with
  | [] => []
  | first :: bits => first ++ flat_map unquote_item bits
  end.

(** The loop of [unquote] over the pieces of [_asciire.split]: [run] is the
    run of ASCII characters read so far; a run is percent-decoded and read
    as UTF-8, the characters outside ASCII are kept. *)
Fixpoint unquote_runs (run : str) (s : str) : str :=
  match s with
  | [] => Utf8.decode (unquote_to_bytes run)
  | c :: s' =>
      if (c <? 128)%N then unquote_runs (run ++ [c]) s'
      else Utf8.decode (unquote_to_bytes run) ++ c :: unquote_runs [] s'
  end.

(** [unquote(s, encoding='utf-8', errors='replace')] *)
Definition unquote (s : str) : str :=
  if negb (PyStr.mem (ch "%") s) then s else unquote_runs [] s.

Definition unquote_plus (s : str) : str :=
  unquote (PyStr.replace (ch "+") (ch " ") s).

(** The pair a query field contributes with [keep_blank_values=False] and
    [strict_parsing=False]: none for an empty field, a field without [=] or
    a field with nothing after its first [=]. *)
Definition parse_field (name_value : str) : list (str * str) :=
  match name_value with
  | [] => []
  | _ =>
      match PyStr.partition (ch "=") name_value with
      | (name, true, (_ :: _) as value) =>
          [(unquote_plus name, unquote_plus value)]
      | _ => []
      end
  end.

Definition query_args (qs : str) : list str :=
  match qs with
  | [] => []
  | _ => PyStr.split (ch "&") qs
  end.

Definition parse_qsl (qs : str) : list (str * str) :=
  flat_map parse_field (query_args qs).

(** *** Percent-encoding *)

Definition _ALWAYS_SAFE : str :=
  lit "ABCDEFGHIJKLMNOPQRSTUVWXYZabcdefghijklmnopqrstuvwxyz0123456789_.-~".

Definition hexdigit (n : N) : char :=
  if (n <? 10)%N then (48 + n)%N else (55 + n)%N.

Definition quoter (safe : str) (b : N) : str :=
  if PyStr.mem b (_ALWAYS_SAFE ++ safe) then [b]
  else [ch "%"; hexdigit (b / 16); hexdigit (b mod 16)].

Definition quote_from_bytes (bs : list N) (safe : str) : str :=
  flat_map (quoter safe) bs.

Definition quote (s : str) (safe : str) : result str :=
  match s with
  | [] => OK []
  | _ => do bs <- Utf8.encode s; OK (quote_from_bytes bs safe)
  end.

Definition quote_plus (s : str) : result str :=
  if negb (PyStr.mem (ch " ") s) then quote s []
  else do q <- quote s [ch " "]; OK (PyStr.replace (ch " ") (ch "+") q).

(** [urlencode(query.items(), doseq=True)] for string keys and values. *)
Fixpoint urlencode_items (items : list (str * str)) : result (list str) :=
  match items with
  | [] => OK []
  | (k, v) :: items' =>
      do k' <- quote_plus k;
      do v' <- quote_plus v;
      do l <- urlencode_items items';
      OK ((k' ++ ch "=" :: v') :: l)
  end.

Definition urlencode (items : list (str * str)) : result str :=
  do l <- urlencode_items items; OK (PyStr.join [ch "&"] l).

End Urllib.

(** ** Python [dict] with string keys: insertion order, a value overwritten
    in place *)

Module Dict.

Definition t : Type := list (str * str).

Fixpoint set (d : t) (k v : str) : t :=
  match d with
  | [] => [(k, v)]
  | (k', v') :: d' =>
      if PyStr.eqb k' k then (k', v) :: d' else (k', v') :: set d' k v
  end.

Fixpoint get (d : t) (k : str) : option str :=
  match d with
  | [] => None
  | (k', v') :: d' => if PyStr.eqb k' k then Some v' else get d' k
  end.

(** [dict(pairs)] *)
Definition of_pairs (pairs : list (str * str)) : t :=
  fold_left (fun d kv => set d (fst kv) (snd kv)) pairs [].

Definition keys (d : t) : list str := map fst d.

End Dict.

(** ** The two regular expressions of the program *)

Module Re.

(** A literal pattern character [p] under [re.IGNORECASE], for the
    characters of [https?://]: a lowercase letter matches itself and its
    capital, [s] also matches U+017F (long s), and punctuation matches
    itself only. *)
Definition ci_char (p c : char) : bool :=
  N.eqb c p
  || ((97 <=? p) && (p <=? 122))%N && N.eqb c (p - 32)
  || N.eqb p (ch "s") && N.eqb c 383.

(** Matches the literal [pat] at the start of [s], ignoring case; what
    follows the match. *)
Fixpoint match_ci (pat s : str) : option str :=
  match pat, s with
  | [], _ => Some s
  | p :: pat', c :: s' => if ci_char p c then match_ci pat' s' else None
  | _ :: _, [] => None
  end.

Definition is_some {A} (o : option A) : bool :=
  match o with Some _ => true | None => false end.

(** [re.match(r"^https?://", s, flags=re.IGNORECASE)] finds a match.  The
    optional [s] is tried first and given up when [://] does not follow. *)
Definition match_scheme (s : str) : bool :=
  match match_ci (lit "http") s with
  | None => false
  | Some r =>
      match match_ci (lit "s") r with
      | Some r' => is_some (match_ci (lit "://") r')
      | None => false
      end
      || is_some (match_ci (lit "://") r)
  end.

(** Matches the literal [pat] at the start of [s]; what follows it. *)
Fixpoint match_lit (pat s : str) : option str :=
  match pat, s with
  | [], _ => Some s
  | p :: pat', c :: s' => if N.eqb p c then match_lit pat' s' else None
  | _ :: _, [] => None
  end.

(** The longest prefix of characters satisfying [f], and what follows. *)
Fixpoint span (f : char -> bool) (s : str) : str * str :=
  match s with
  | [] => ([], [])
  | c :: s' =>
      if f c then let '(a, b) := span f s' in (c :: a, b) else ([], s)
  end.

Definition not_slash (c : char) : bool := negb (N.eqb c (ch "/")).

Definition token_char (c : char) : bool :=
  negb (N.eqb c (ch "/") || N.eqb c (ch "?") || N.eqb c (ch "#")).

Definition share_prefix : str := lit "/:u:/g/personal/".

(** [/:u:/g/personal/([^/]+)/([^/?#]+)] matched at the start of [s]: the
    two groups.  Both groups are greedy; group 1 ends where the first [/]
    stands, so that a shorter group 1 is followed by no [/] and
    backtracking into it cannot succeed. *)
Definition match_share_here (s : str) : option (str * str) :=
  match match_lit share_prefix s with
  | None => None
  | Some r =>
      match span not_slash r with
      | ((_ :: _) as user, _ :: r2) =>
          match span token_char r2 with
          | ((_ :: _) as token, _) => Some (user, token)
          | ([], _) => None
          end
      | _ => None
      end
  end.

(** [re.search(r'/:u:/g/personal/([^/]+)/([^/?#]+)', s)]: the groups of the
    leftmost match. *)
Fixpoint search_share (s : str) : option (str * str) :=
  match match_share_here s with
  | Some m => Some m
  | None =>
      match s with
      | [] => None
      | _ :: s' => search_share s'
      end
  end.

End Re.

(** ** Effects: the HTTP requests of [requests] and the lines printed *)

Record response : Type := mkResponse
  { status_code : N; is_redirect : bool; resp_url : str }.

(** What a request comes back with: a response, a
    [requests.RequestException] with its text, or an exception of another
    class with its text (the library lets some of urllib3's through). *)
Inductive http_outcome : Type :=
| Responded (r : response)
| RequestException (description : str)
| OtherException (description : str).

(** Programs: a value, or a request (redirects followed, the timeout carried
    unchanged) or a printed line followed by the rest of the program. *)
Inductive IO (A : Type) : Type :=
| Ret (a : A)
| Head (url : str) (timeout : N) (k : http_outcome -> IO A)
| Get (url : str) (timeout : N) (k : http_outcome -> IO A)
| Print (line : str) (k : IO A).
Arguments Ret {A} a.
Arguments Head {A} url timeout k.
Arguments Get {A} url timeout k.
Arguments Print {A} line k.

Fixpoint bind {A B} (m : IO A) (f : A -> IO B) : IO B :=
  match m with
  | Ret a => f a
  | Head u t k => Head u t (fun r => bind (k r) f)
  | Get u t k => Get u t (fun r => bind (k r) f)
  | Print l k => Print l (bind k f)
  end.

Inductive event : Type :=
| EvHead (url : str) (timeout : N)
| EvGet (url : str) (timeout : N)
| EvPrint (line : str).

(** The network: what a HEAD and a streaming GET of a URL come back with. *)
Record network : Type := mkNetwork
  { net_head : str -> N -> http_outcome;
    net_get : str -> N -> http_outcome }.

(** Runs a program against a network: its value and the events it caused, in
    order. *)
Fixpoint run {A} (net : network) (m : IO A) : A * list event :=
  match m with
  | Ret a => (a, [])
  | Head u t k =>
      let '(a, evs) := run net (k (net_head net u t)) in (a, EvHead u t :: evs)
  | Get u t k =>
      let '(a, evs) := run net (k (net_get net u t)) in (a, EvGet u t :: evs)
  | Print l k =>
      let '(a, evs) := run net k in (a, EvPrint l :: evs)
  end.

Definition is_request (e : event) : bool :=
  match e with
  | EvHead _ _ | EvGet _ _ => true
  | EvPrint _ => false
  end.

(** ** The program *)

Section OneDrive.
Context {BH : BracketedHosts}.
Import Urllib.

Definition expand_failed (exc : str) : exn :=
  OneDriveLinkError (Utf8.text "无法展开链接: " ++ exc).

Definition normalize_url (original_url : str) (timeout : N)
  : IO (result str) :=
  Head original_url timeout (fun r =>
    match r with
    | RequestException exc => Ret (Raise (expand_failed exc))
    | OtherException exc => Ret (Raise (OtherError exc))
    | Responded resp =>
        if (status_code resp =? 405)%N || (status_code resp =? 403)%N
           || is_redirect resp
        then
          Get original_url timeout (fun r' =>
            match r' with
            | RequestException exc => Ret (Raise (expand_failed exc))
            | OtherException exc => Ret (Raise (OtherError exc))
            | Responded resp' => Ret (OK (resp_url resp'))
            end)
        else Ret (OK (resp_url resp))
    end).

Definition supported_suffixes : list str :=
  [ lit "1drv.ms"; lit "onedrive.live.com"; lit "sharepoint.com";
    lit "my.sharepoint.com"; lit "sharepoint.cn"; lit "my.sharepoint.cn" ].

Definition is_onedrive_supported_host (url : str) : result bool :=
  do p <- urlparse url;
  let host := match hostname p with Some h => h | None => [] end in
  let host := PyStr.lower host in
  match host with
  | [] => OK false
  | _ => OK (existsb (fun suffix => PyStr.endswith suffix host)
                     supported_suffixes)
  end.

Definition is_folder_link (url : str) : result bool :=
  do parsed <- urlparse url;
  let path_lower := PyStr.lower (path parsed) in
  if PyStr.contains (lit ":f:") path_lower then OK true
  else if PyStr.contains (lit ":b:") path_lower
          || PyStr.contains (lit "forms/allitems.aspx") path_lower
  then OK true
  else OK false.

Definition NEWLINE : char := 10%N.

(** The text of the error that precedes the offending URL. *)
Definition sharepoint_format_message : str :=
  Utf8.text "请使用标准的 OneDrive/SharePoint 分享链接。" ++ [NEWLINE]
  ++ Utf8.text "支持格式: https://domain/:u:/g/personal/用户名/分享token"
  ++ [NEWLINE]
  ++ Utf8.text "当前链接: ".

Definition convert_sharepoint_to_direct_link (url : str) : result str :=
  do parsed <- urlparse url;
  let domain := netloc parsed in
  let path := path parsed in
  match Re.search_share path with
  | Some (personal_user, share_token) =>
      OK (lit "https://" ++ domain ++ lit "/personal/" ++ personal_user
          ++ lit "/_layouts/52/download.aspx?share=" ++ share_token)
  | None => Raise (OneDriveLinkError (sharepoint_format_message ++ url))
  end.

Definition ensure_download_param_fallback (url : str) : result str :=
  do parsed <- urlparse url;
  let query_pairs := Dict.of_pairs (parse_qsl (query parsed)) in
  let query_pairs :=
    if negb (existsb (fun k => PyStr.eqb (PyStr.lower k) (lit "download"))
                     (Dict.keys query_pairs))
    then Dict.set query_pairs (lit "download") (lit "1")
    else query_pairs in
  do new_query <- urlencode query_pairs;
  OK (urlunparse (scheme parsed) (netloc parsed) (path parsed)
                 (params parsed) new_query (fragment parsed)).

Definition convert_personal_onedrive_to_direct_link (url : str)
  : result str :=
  do parsed <- urlparse url;
  let query_params := Dict.of_pairs (parse_qsl (query parsed)) in
  match Dict.get query_params (lit "redeem") with
  | Some redeem_value => OK (lit "https://dlink.host/1drv/" ++ redeem_value)
  | None =>
      match Dict.get query_params (lit "resid"),
            Dict.get query_params (lit "authkey") with
      | Some file_id, Some authkey =>
          OK (lit "https://onedrive.live.com/download?resid=" ++ file_id
              ++ lit "&authkey=" ++ authkey)
      | _, _ => ensure_download_param_fallback url
      end
  end.

Definition malformed_input : exn :=
  OneDriveLinkError
    (Utf8.text "请输入以 http:// 或 https:// 开头的分享链接").

Definition unsupported_host : exn :=
  OneDriveLinkError
    (Utf8.text "不支持的链接域名：仅支持 OneDrive/SharePoint/世纪互联分享链接").

Definition sharepoint_markers : list str :=
  [ lit "sharepoint.com"; lit "sharepoint.cn"; lit "my.sharepoint" ].

(** The lines printed about a personal link, by the branch that made it. *)
Definition personal_notice (direct_link : str) : list str :=
  if PyStr.contains (lit "dlink.host/1drv/") direct_link then
    [ Utf8.text "🎉 使用 dlink.host 服务生成真正的无登录直链！";
      Utf8.text "💡 通过提取 redeem 参数实现，这是最有效的方法" ]
  else if PyStr.contains (lit "onedrive.live.com/download?resid=") direct_link
  then [ Utf8.text "✨ 生成了优化的直链格式" ]
  else [ Utf8.text "⚠️  回退到传统格式，可能需要登录" ].

Definition print_all {A} (lines : list str) (k : IO A) : IO A :=
  fold_right Print k lines.

(** After the expansion: the personal rewrite rule on the expanded URL. *)
Definition personal_continuation (expanded : result str) : IO (result str) :=
  match rbind expanded convert_personal_onedrive_to_direct_link with
  | Raise e => Ret (Raise e)
  | OK direct_link =>
      print_all (personal_notice direct_link) (Ret (OK direct_link))
  end.

Definition parse_onedrive_direct_link (input_url : str) (timeout : N)
  : IO (result str) :=
  if negb (Re.match_scheme input_url) then Ret (Raise malformed_input)
  else
    match is_onedrive_supported_host input_url with
    | Raise e => Ret (Raise e)
    | OK false => Ret (Raise unsupported_host)
    | OK true =>
        match urlparse input_url with
        | Raise e => Ret (Raise e)
        | OK parsed =>
            let host := PyStr.lower (netloc parsed) in
            if existsb (fun domain => PyStr.contains domain host)
                       sharepoint_markers
            then Ret (convert_sharepoint_to_direct_link input_url)
            else bind (normalize_url input_url timeout) personal_continuation
        end
    end.

End OneDrive.

(** ** The history store *)

Module History.

Record item : Type := mkItem
  { id : Z; url : str; remark : str; timestamp : str; original_url : str }.

(** The JSON body of a save request; an absent key is [None]. *)
Record request : Type := mkRequest
  { req_id : option Z; req_url : option str; req_remark : option str;
    req_timestamp : option str; req_original_url : option str }.

(** [datetime.now()], as the two forms the handler takes of it. *)
Record clock : Type := mkClock { now_millis : Z; now_text : str }.

(** The history file: absent, unreadable as JSON, or a stored list. *)
Inductive file : Type :=
| Missing
| Corrupt
| Stored (history : list item).

(** What writing the file comes to: written, not opened (the file is left
    as it was), or opened and not written through (the file is left
    unreadable). *)
Inductive write_outcome : Type :=
| Written
| OpenFailed
| DumpFailed.

Inductive reply : Type :=
| Success
| Failure (error : str).

Definition load_history (f : file) : list item :=
  match f with
  | Stored history => history
  | Missing | Corrupt => []
  end.

(** [save_history_to_file]: whether it succeeded, and the file after. *)
Definition save_history_to_file (w : write_outcome) (f : file)
           (history_data : list item) : bool * file :=
  match w with
  | Written => (true, Stored history_data)
  | OpenFailed => (false, f)
  | DumpFailed => (false, Corrupt)
  end.

Definition get {A} (o : option A) (default : A) : A :=
  match o with Some a => a | None => default end.

Definition new_item (now : clock) (data : request) (u : str) : item :=
  mkItem (get (req_id data) (now_millis now))
         u
         (get (req_remark data) (Utf8.text "未命名文件"))
         (get (req_timestamp data) (now_text now))
         (get (req_original_url data) []).

(** [next((i for i, item in enumerate(history) if item['url'] == u), -1)],
    [None] standing for -1. *)
Fixpoint existing_index (u : str) (history : list item) : option nat :=
  match history with
  | [] => None
  | it :: history' =>
      if PyStr.eqb (url it) u then Some 0%nat
      else option_map S (existing_index u history')
  end.

(** [history[i] = x] for an index within the list. *)
Fixpoint assign (history : list item) (i : nat) (x : item) : list item :=
  match history, i with
  | [], _ => []
  | _ :: history', O => x :: history'
  | it :: history', S i' => it :: assign history' i' x
  end.

(** The list the handler writes. *)
Definition updated_history (history : list item) (history_item : item)
  : list item :=
  let history :=
    match existing_index (url history_item) history with
    | Some i => assign history i history_item
    | None => history_item :: history
    end in
  if (100 <? length history)%nat then firstn 100 history else history.

Definition save_history (now : clock) (data : option request)
           (w : write_outcome) (f : file) : reply * file :=
  match data with
  | None => (Failure (Utf8.text "缺少必要参数"), f)
  | Some data =>
      match req_url data with
      | None => (Failure (Utf8.text "缺少必要参数"), f)
      | Some u =>
          let history := load_history f in
          let history_item := new_item now data u in
          let history := updated_history history history_item in
          match save_history_to_file w f history with
          | (true, f') => (Success, f')
          | (false, f') => (Failure (Utf8.text "保存失败"), f')
          end
      end
  end.

(** One call of the handler, as the environment presents it. *)
Record call : Type := mkCall
  { c_now : clock; c_data : option request; c_write : write_outcome }.

Definition step (f : file) (c : call) : file :=
  snd (save_history (c_now c) (c_data c) (c_write c) f).

(** The files the handler can leave, starting without a file. *)
Definition after (calls : list call) : file := fold_left step calls Missing.

End History.

(** ** The page of the converter *)

(** The characters that [str.strip()] removes at both ends: those for which
    [str.isspace()] holds. *)
Definition whitespace : str :=
  [ 9; 10; 11; 12; 13; 28; 29; 30; 31; 32; 133; 160; 5760; 8192; 8193;
    8194; 8195; 8196; 8197; 8198; 8199; 8200; 8201; 8202; 8232; 8233;
    8239; 8287; 12288 ]%N.

(** [s.strip()] *)
Definition strip (s : str) : str :=
  rev (PyStr.lstrip whitespace (rev (PyStr.lstrip whitespace s))).

(** What [render_template("index.html", ...)] is given: the result, the
    error and the [share_url] entry of the form, [None] when the form is
    empty. *)
Record page : Type := mkPage
  { page_result : option str; page_error : option str;
    page_form : option str }.

Section Pages.
Context {BH : BracketedHosts}.

Definition index_get : page := mkPage None None None.

(** [form_share_url] is [request.form.get("share_url")]: the field of the
    posted form, [None] when the form has none.  An exception other than
    [OneDriveLinkError] leaves the handler. *)
Definition index_post (form_share_url : option str) : IO (result page) :=
  let share_url :=
    strip (match form_share_url with Some s => s | None => [] end) in
  match share_url with
  | [] =>
      Ret (OK (mkPage None (Some (Utf8.text "请填写分享链接"))
                      (Some share_url)))
  | _ =>
      bind (parse_onedrive_direct_link share_url 15) (fun r =>
        match r with
        | OK direct => Ret (OK (mkPage (Some direct) None (Some share_url)))
        | Raise (OneDriveLinkError msg) =>
            Ret (OK (mkPage None (Some msg) (Some share_url)))
        | Raise e => Ret (Raise e)
        end)
  end.

End Pages.

(** CPython before bracketed hosts were validated: a netloc whose brackets
    match is accepted as it is. *)
Definition unvalidated_brackets : BracketedHosts :=
  {| check_bracketed_netloc := fun _ => None |}.

(** * Vocabulary of the properties *)

(** [suffix] ends [s]. *)
Definition EndsWith (suffix s : str) : Prop := exists a, s = a ++ suffix.

(** [sub] occurs in [s]. *)
Definition Occurs (sub s : str) : Prop := exists a b, s = a ++ sub ++ b.

(** The code points a character of the pattern [https?://] stands for when
    case is ignored. *)
Definition SameLetter (p c : char) : Prop :=
  c = p \/ ((97 <= p <= 122)%N /\ c = (p - 32)%N)
  \/ (p = ch "s" /\ c = 383%N).

(** [s] starts with [pat], case ignored. *)
Definition StartsIgnoringCase (pat s : str) : Prop :=
  exists a r, s = a ++ r /\ Forall2 SameLetter pat a.

(** [s] holds, after [pre], the share path of [user] and [token]: the
    pattern [/:u:/g/personal/<user>/<token>] with [<user>] free of [/] and
    [<token>] free of [/], [?] and [#]. *)
Definition SharePathAt (s pre user token rest : str) : Prop :=
  s = pre ++ Re.share_prefix ++ user ++ ch "/" :: token ++ rest
  /\ user <> [] /\ ~ In (ch "/") user
  /\ token <> []
  /\ (forall c, In c token -> c <> ch "/" /\ c <> ch "?" /\ c <> ch "#").

(** The token is a maximal run: what follows it starts with none of its
    characters. *)
Definition TokenEnds (rest : str) : Prop :=
  match rest with
  | [] => True
  | c :: _ => c = ch "/" \/ c = ch "?" \/ c = ch "#"
  end.

(** [s] matches the pattern somewhere. *)
Definition HasSharePath (s : str) : Prop :=
  exists pre user token rest, SharePathAt s pre user token rest.

(** No match of the pattern starts before the one after [pre]. *)
Definition Leftmost (s pre : str) : Prop :=
  forall pre' user' token' rest',
    SharePathAt s pre' user' token' rest' -> length pre <= length pre'.

(** A stored history has no two entries with one url and at most 100
    entries. *)
Definition Deduplicated (history : list History.item) : Prop :=
  NoDup (map History.url history) /\ length history <= 100.

(** The entries of [history] whose url is [u]. *)
Definition entries_of (u : str) (history : list History.item)
  : list History.item :=
  filter (fun it => PyStr.eqb (History.url it) u) history.

(** A save of [data] at [now] that is written through. *)
Definition written_save (e : History.clock * History.request) : History.call :=
  History.mkCall (fst e) (Some (snd e)) History.Written.

(** The entry a save request makes (its url, when it has none, is empty). *)
Definition entry_of (e : History.clock * History.request) : History.item :=
  History.new_item (fst e) (snd e) (History.get (History.req_url (snd e)) []).

(** [f] is a field [k=raw] of a query string that gives the parameter
    [name] (the decoded [k]) the value written [raw], which is not empty. *)
Definition FieldOf (name raw f : str) : Prop :=
  exists k, f = k ++ ch "=" :: raw /\ ~ In (ch "=") k
            /\ Urllib.unquote_plus k = name /\ raw <> [].

(** The query string [q] is the fields [fs] separated by [&]. *)
Definition QueryFields (q : str) (fs : list str) : Prop :=
  q = PyStr.join [ch "&"] fs /\ Forall (fun f => ~ In (ch "&") f) fs.

(** The last field of [q] that gives [name] a value gives it [raw]. *)
Definition LastValue (q name raw : str) : Prop :=
  exists before f after,
    QueryFields q (before ++ f :: after) /\ FieldOf name raw f
    /\ forall g raw', In g after -> ~ FieldOf name raw' g.

(** No field of [q] gives [name] a value: [name] is absent from [q], or
    present with empty values only. *)
Definition NoValue (q name : str) : Prop :=
  forall fs g raw, QueryFields q fs -> In g fs -> ~ FieldOf name raw g.

(** [s] is made of unreserved characters: letters, digits, [_], [.], [-]
    and [~]. *)
Definition Unreserved (s : str) : Prop :=
  forall c, In c s -> In c Urllib._ALWAYS_SAFE.

(** [f] is a field [k=v] whose value [v] is not empty. *)
Definition ValuedField (f : str) : Prop :=
  exists k v, f = k ++ ch "=" :: v /\ ~ In (ch "=") k /\ v <> [].

(** [c] followed by [s], or nothing when [s] is empty. *)
Definition optional (c : char) (s : str) : str :=
  match s with
  | [] => []
  | _ => c :: s
  end.

(** The URL [<scheme>://<netloc><path>?<query>#<fragment>], the [?] and the
    [#] written only before a query and a fragment that are not empty. *)
Definition link (scheme netloc path query fragment : str) : str :=
  scheme ++ lit "://" ++ netloc ++ path
  ++ optional (ch "?") query ++ optional (ch "#") fragment.

(** The field [k=v] of a pair. *)
Definition field (kv : str * str) : str := fst kv ++ ch "=" :: snd kv.

(** The query string of the pairs, in order. *)
Definition query_string (pairs : list (str * str)) : str :=
  PyStr.join [ch "&"] (map field pairs).

(** A network location of ASCII characters, not empty, without [/], [?],
    [#] or bracket. *)
Definition PlainNetloc (netloc : str) : Prop :=
  netloc <> []
  /\ forall c, In c netloc ->
       (c < 128)%N /\ c <> ch "/" /\ c <> ch "?" /\ c <> ch "#"
       /\ c <> ch "[" /\ c <> ch "]".

(** A path, empty or starting with [/], without [?], [#] or [;]. *)
Definition PlainPath (path : str) : Prop :=
  (path = [] \/ exists r, path = ch "/" :: r)
  /\ forall c, In c path -> c <> ch "?" /\ c <> ch "#" /\ c <> ch ";".

(** Pairs of unreserved characters, with keys all different and values not
    empty. *)
Definition PlainPairs (pairs : list (str * str)) : Prop :=
  NoDup (map fst pairs)
  /\ forall k v, In (k, v) pairs -> Unreserved k /\ Unreserved v /\ v <> [].

(** No tab, line feed or carriage return in [s]. *)
Definition NoLineBreaks (s : str) : Prop :=
  forall c, In c s -> c <> 9%N /\ c <> 10%N /\ c <> 13%N.

(** Every key of the dictionary has a value that is not empty. *)
Definition Valued (d : Dict.t) : Prop := Forall (fun kv => snd kv <> []) d.

(** The history a file holds is deduplicated. *)
Definition FileDeduplicated (f : History.file) : Prop :=
  Deduplicated (History.load_history f).

(** What follows a network location: nothing, or a delimiter first. *)
Definition Delimited (tail : str) : Prop :=
  match tail with
  | [] => True
  | d :: _ => d = ch "/" \/ d = ch "?" \/ d = ch "#"
  end.

(** A character that ends neither a field nor a key of a query string. *)
Definition field_safe (c : char) : bool :=
  negb (N.eqb c (ch "&")) && negb (N.eqb c (ch "=")).

(** What [quote_plus] writes for one byte. *)
Definition plus_byte (b : N) : str :=
  if PyStr.mem b Urllib._ALWAYS_SAFE then [b]
  else if (b =? 32)%N then [ch "+"]
  else [ch "%"; Urllib.hexdigit (b / 16); Urllib.hexdigit (b mod 16)].

(** The same with the [+] read back as a space. *)
Definition percent_byte (b : N) : str :=
  if PyStr.mem b Urllib._ALWAYS_SAFE then [b]
  else if (b =? 32)%N then [32%N]
  else [ch "%"; Urllib.hexdigit (b / 16); Urllib.hexdigit (b mod 16)].

(** The dictionary the fallback writes: the one it read, with [download=1]
    set when no key is [download] in any case. *)
Definition written_dictionary (read : Dict.t) : Dict.t :=
  if negb (existsb (fun k => PyStr.eqb (PyStr.lower k) (lit "download"))
                   (Dict.keys read))
  then Dict.set read (lit "download") (lit "1")
  else read.

(** [s] can be encoded as UTF-8: it holds no surrogate code point (and
    nothing above U+10FFFF). *)
Definition Encodable (s : str) : Prop :=
  forall c, In c s -> Utf8.encode_char c <> None.

(** A network that answers every request with one page. *)
Definition one_page (url : str) : network :=
  let answer (_ : str) (_ : N) := Responded (mkResponse 200 false url) in
  mkNetwork answer answer.

(** * Properties *)

(** ** Strings *)

Lemma eqb_eq (a b : str) : PyStr.eqb a b = true <-> a = b.
Proof.
  revert b; induction a as [|x a IH]; intros [|y b]; simpl;
    try (split; [discriminate | congruence]); [tauto|].
  rewrite andb_true_iff, N.eqb_eq, IH.
  split; [intros [-> ->]; reflexivity | intros H; injection H; auto].
Qed.

Lemma eqb_refl (a : str) : PyStr.eqb a a = true.
Proof. apply eqb_eq; reflexivity. Qed.

Lemma eqb_neq (a b : str) : PyStr.eqb a b = false <-> a <> b.
Proof.
  rewrite <- eqb_eq. destruct (PyStr.eqb a b); split; congruence.
Qed.

Lemma startswith_iff (p s : str) :
  PyStr.startswith p s = true <-> exists r, s = p ++ r.
Proof.
  revert s; induction p as [|x p IH]; intros s; simpl.
  - split; eauto.
  - destruct s as [|y s].
    + split; [discriminate | intros [r H]; discriminate].
    + rewrite andb_true_iff, N.eqb_eq, IH. split.
      * intros [-> [r ->]]. eauto.
      * intros [r H]. injection H as -> ->. eauto.
Qed.

Lemma skipn_length_app {A} (a b : list A) : skipn (length a) (a ++ b) = b.
Proof. induction a; simpl; auto. Qed.

Lemma firstn_length_app {A} (a b : list A) : firstn (length a) (a ++ b) = a.
Proof. induction a; simpl; congruence. Qed.

Lemma endswith_iff (p s : str) :
  PyStr.endswith p s = true <-> EndsWith p s.
Proof.
  unfold PyStr.endswith, EndsWith.
  rewrite andb_true_iff, Nat.leb_le, eqb_eq. split.
  - intros [_ H]. exists (firstn (length s - length p) s).
    rewrite <- (firstn_skipn (length s - length p) s) at 1. f_equal. exact H.
  - intros [a ->]. rewrite length_app. split; [lia|].
    replace (length a + length p - length p) with (length a) by lia.
    apply skipn_length_app.
Qed.

Lemma contains_iff (sub s : str) :
  PyStr.contains sub s = true <-> Occurs sub s.
Proof.
  unfold Occurs. induction s as [|c s IH]; simpl.
  - rewrite orb_false_r, startswith_iff. split.
    + intros [r H]. exists [], r. exact H.
    + intros [[|x a] [b H]]; [eauto|discriminate].
  - rewrite orb_true_iff, IH.
    change (match sub with
            | [] => true
            | x :: p' => (x =? c)%N && PyStr.startswith p' s
            end) with (PyStr.startswith sub (c :: s)).
    rewrite startswith_iff. split.
    + intros [[r H] | [a [b H]]].
      * exists [], r. exact H.
      * exists (c :: a), b. simpl. congruence.
    + intros [[|x a] [b H]].
      * left. eauto.
      * right. injection H as -> ->. eauto.
Qed.

Lemma existsb_false_iff {A} (f : A -> bool) (l : list A) :
  existsb f l = false <-> forall x, In x l -> f x = false.
Proof.
  induction l as [|a l IH]; simpl.
  - split; [intros _ x [] | reflexivity].
  - rewrite orb_false_iff, IH. split.
    + intros [Ha Hl] x [<- | Hx]; auto.
    + intros H. split; [apply H; auto | intros x Hx; apply H; auto].
Qed.

(** ** The scheme test *)

Lemma ci_char_iff (p c : char) : Re.ci_char p c = true <-> SameLetter p c.
Proof.
  unfold Re.ci_char, SameLetter.
  rewrite !orb_true_iff, !andb_true_iff, !N.eqb_eq, !N.leb_le. tauto.
Qed.

Lemma match_ci_iff (pat s r : str) :
  Re.match_ci pat s = Some r <-> exists a, s = a ++ r /\ Forall2 SameLetter pat a.
Proof.
  revert s; induction pat as [|p pat IH]; intros s; simpl.
  - split.
    + intros [= ->]. exists []. split; [reflexivity | constructor].
    + intros [a [-> H]]. inversion H. reflexivity.
  - destruct s as [|c s].
    + split; [discriminate|]. intros [a [H1 H2]]. inversion H2; subst. discriminate.
    + destruct (Re.ci_char p c) eqn:E.
      * rewrite IH. apply ci_char_iff in E. split.
        -- intros [a [-> H]]. exists (c :: a). split; [reflexivity | constructor; auto].
        -- intros [a [H1 H2]]. inversion H2; subst. injection H1 as -> ->. eauto.
      * split; [discriminate|]. intros [a [H1 H2]]. inversion H2; subst.
        injection H1 as -> ->. apply ci_char_iff in H3. congruence.
Qed.

Lemma match_ci_app (p1 p2 s : str) :
  Re.match_ci (p1 ++ p2) s =
  match Re.match_ci p1 s with
  | Some r => Re.match_ci p2 r
  | None => None
  end.
Proof.
  revert s; induction p1 as [|p p1 IH]; intros s; simpl; [reflexivity|].
  destruct s as [|c s]; [reflexivity|]. destruct (Re.ci_char p c); auto.
Qed.

Lemma starts_ignoring_case_iff (pat s : str) :
  StartsIgnoringCase pat s <-> Re.is_some (Re.match_ci pat s) = true.
Proof.
  unfold StartsIgnoringCase. split.
  - intros [a [r [H1 H2]]].
    assert (E : Re.match_ci pat s = Some r) by (apply match_ci_iff; eauto).
    rewrite E. reflexivity.
  - destruct (Re.match_ci pat s) as [r|] eqn:E; [|discriminate].
    intros _. apply match_ci_iff in E as [a [H1 H2]]. eauto.
Qed.

Lemma match_scheme_iff (s : str) :
  Re.match_scheme s = true <->
  StartsIgnoringCase (lit "http://") s \/ StartsIgnoringCase (lit "https://") s.
Proof.
  rewrite !starts_ignoring_case_iff.
  change (lit "http://") with (lit "http" ++ lit "://").
  change (lit "https://") with (lit "http" ++ lit "s" ++ lit "://").
  rewrite !match_ci_app. unfold Re.match_scheme.
  destruct (Re.match_ci (lit "http") s) as [r|]; [|simpl; tauto].
  rewrite match_ci_app, orb_true_iff.
  destruct (Re.match_ci (lit "s") r) as [r'|]; simpl; tauto.
Qed.

Lemma startswith_ignoring_case (pat s : str) :
  PyStr.startswith pat s = true -> StartsIgnoringCase pat s.
Proof.
  intros H. apply startswith_iff in H as [r ->]. exists pat, r. split; [reflexivity|].
  induction pat; constructor; auto. left; reflexivity.
Qed.

(** ** The share-path pattern *)

Lemma match_lit_iff (pat s r : str) :
  Re.match_lit pat s = Some r <-> s = pat ++ r.
Proof.
  revert s; induction pat as [|p pat IH]; intros s; simpl.
  - split; congruence.
  - destruct s as [|c s]; [split; discriminate|].
    destruct (N.eqb_spec p c) as [->|Hne].
    + rewrite IH. split; congruence.
    + split; [discriminate | congruence].
Qed.

Lemma span_sound (f : char -> bool) (s a b : str) :
  Re.span f s = (a, b) ->
  s = a ++ b /\ (forall c, In c a -> f c = true)
  /\ match b with [] => True | c :: _ => f c = false end.
Proof.
  revert a b; induction s as [|c s IH]; intros a b; simpl.
  - intros [= <- <-]. repeat split. intros c [].
  - destruct (f c) eqn:E.
    + destruct (Re.span f s) as [x y]. intros [= <- <-].
      destruct (IH x y eq_refl) as (-> & Hx & Hy).
      repeat split; auto. intros d [<- | Hd]; auto.
    + intros [= <- <-]. repeat split; auto; intros d [].
Qed.

Lemma span_app (f : char -> bool) (a b : str) :
  (forall c, In c a -> f c = true) ->
  Re.span f (a ++ b) = (a ++ fst (Re.span f b), snd (Re.span f b)).
Proof.
  induction a as [|c a IH]; intros H; simpl.
  - destruct (Re.span f b); reflexivity.
  - rewrite (H c) by (left; reflexivity).
    rewrite IH by (intros d Hd; apply H; right; exact Hd). reflexivity.
Qed.

Lemma span_stop (f : char -> bool) (b : str) :
  match b with [] => True | c :: _ => f c = false end ->
  Re.span f b = ([], b).
Proof. destruct b as [|c b]; simpl; [reflexivity | intros ->; reflexivity]. Qed.

Lemma not_slash_iff (c : char) : Re.not_slash c = true <-> c <> ch "/".
Proof.
  unfold Re.not_slash. rewrite negb_true_iff, N.eqb_neq. tauto.
Qed.

Lemma token_char_iff (c : char) :
  Re.token_char c = true <-> c <> ch "/" /\ c <> ch "?" /\ c <> ch "#".
Proof.
  unfold Re.token_char.
  rewrite negb_true_iff, !orb_false_iff, !N.eqb_neq. tauto.
Qed.

Lemma token_ends_iff (rest : str) :
  TokenEnds rest <->
  match rest with [] => True | c :: _ => Re.token_char c = false end.
Proof.
  destruct rest as [|c rest]; simpl; [tauto|].
  unfold Re.token_char. rewrite negb_false_iff, !orb_true_iff, !N.eqb_eq. tauto.
Qed.

(** A match at the start of [s] is found, with the token grown as far as it
    goes. *)
Lemma match_share_here_complete (s user token rest : str) :
  SharePathAt s [] user token rest ->
  Re.match_share_here s
  = Some (user, token ++ fst (Re.span Re.token_char rest)).
Proof.
  intros (-> & Hu & Hus & Ht & Hts). unfold Re.match_share_here.
  rewrite app_nil_l.
  assert (E : Re.match_lit Re.share_prefix
                (Re.share_prefix ++ user ++ ch "/" :: token ++ rest)
              = Some (user ++ ch "/" :: token ++ rest))
    by (apply match_lit_iff; reflexivity).
  rewrite E. rewrite span_app.
  2:{ intros c Hc. apply not_slash_iff. intros ->. contradiction. }
  rewrite span_stop by reflexivity. simpl fst; simpl snd. rewrite app_nil_r.
  destruct user as [|u0 user]; [contradiction|].
  rewrite span_app by (intros c Hc; apply token_char_iff; auto).
  destruct token as [|t0 token]; [contradiction|]. reflexivity.
Qed.

Lemma match_share_here_sound (s user token : str) :
  Re.match_share_here s = Some (user, token) ->
  exists rest, SharePathAt s [] user token rest /\ TokenEnds rest.
Proof.
  unfold Re.match_share_here.
  destruct (Re.match_lit Re.share_prefix s) as [r|] eqn:E; [|discriminate].
  apply match_lit_iff in E. subst s.
  destruct (Re.span Re.not_slash r) as [[|u0 u] [|c r2]] eqn:E1; try discriminate.
  destruct (Re.span Re.token_char r2) as [[|t0 t] rest] eqn:E2; [discriminate|].
  intros [= <- <-].
  apply span_sound in E1 as (-> & Hu & Hc).
  apply span_sound in E2 as (-> & Ht & Hrest).
  apply not_true_iff_false in Hc. rewrite not_slash_iff in Hc.
  assert (c = ch "/") as -> by (destruct (N.eq_dec c (ch "/")); tauto).
  exists rest. split; [|apply token_ends_iff; exact Hrest].
  split; [|split; [|split; [|split]]].
  - rewrite app_nil_l. reflexivity.
  - discriminate.
  - intros Hin. apply Hu in Hin. apply not_slash_iff in Hin. congruence.
  - discriminate.
  - intros d Hd. apply token_char_iff, Ht, Hd.
Qed.

Lemma share_path_cons (c : char) (s pre user token rest : str) :
  SharePathAt (c :: s) (c :: pre) user token rest
  <-> SharePathAt s pre user token rest.
Proof.
  unfold SharePathAt. simpl. split.
  - intros (H & R). injection H as H. tauto.
  - intros (-> & R). tauto.
Qed.

Lemma search_share_none (s : str) :
  Re.search_share s = None -> ~ HasSharePath s.
Proof.
  induction s as [|c s IH]; simpl.
  - intros _ (pre & u & t & r & H & _).
    apply (f_equal (@length _)) in H. rewrite !length_app in H. simpl in H. lia.
  - destruct (Re.match_share_here (c :: s)) eqn:E; [discriminate|]. intros Hs.
    intros ([|x pre] & u & t & r & H).
    + rewrite (match_share_here_complete H) in E. discriminate.
    + assert (x = c) as -> by (destruct H as (H & _); simpl in H; congruence).
      apply (proj1 (share_path_cons c s pre u t r)) in H.
      apply (IH Hs). unfold HasSharePath. eauto.
Qed.

(** The groups [re.search] reports are those of the leftmost match, with the
    token maximal. *)
Lemma search_share_leftmost (s pre user token rest : str) :
  SharePathAt s pre user token rest -> TokenEnds rest -> Leftmost s pre ->
  Re.search_share s = Some (user, token).
Proof.
  revert pre; induction s as [|c s IH]; intros pre H Hend Hleft.
  - exfalso. destruct H as (H & _).
    apply (f_equal (@length _)) in H. rewrite !length_app in H. simpl in H. lia.
  - simpl. destruct pre as [|x pre].
    + rewrite (match_share_here_complete H).
      rewrite span_stop by (apply token_ends_iff; exact Hend).
      simpl. rewrite app_nil_r. reflexivity.
    + assert (x = c) as -> by (destruct H as (H & _); simpl in H; congruence).
      destruct (Re.match_share_here (c :: s)) as [[u' t']|] eqn:E.
      * apply match_share_here_sound in E as (r' & E & _).
        apply Hleft in E. simpl in E. lia.
      * apply (proj1 (share_path_cons c s pre user token rest)) in H.
        apply (IH pre H Hend).
        intros pre' u' t' r' H'.
        apply (proj2 (share_path_cons c s pre' u' t' r')) in H'.
        apply Hleft in H'. simpl in H'. lia.
Qed.

Lemma search_share_some (s user token : str) :
  Re.search_share s = Some (user, token) -> HasSharePath s.
Proof.
  induction s as [|c s IH]; simpl.
  - discriminate.
  - destruct (Re.match_share_here (c :: s)) as [[u t]|] eqn:E.
    + intros [= -> ->]. apply match_share_here_sound in E as (r & E & _).
      exists [], user, token, r. exact E.
    + intros Hs. destruct (IH Hs) as (pre & u & t & r & H).
      exists (c :: pre), u, t, r. apply share_path_cons. exact H.
Qed.

Lemma OK_inj {A} (a b : A) : OK a = OK b -> a = b.
Proof. congruence. Qed.

Lemma search_share_sound (s user token : str) :
  Re.search_share s = Some (user, token) ->
  exists pre rest,
    SharePathAt s pre user token rest /\ TokenEnds rest /\ Leftmost s pre.
Proof.
  induction s as [|c s IH]; simpl; [discriminate|].
  destruct (Re.match_share_here (c :: s)) as [[u t]|] eqn:E.
  - intros [= -> ->]. apply match_share_here_sound in E as (r & E & Hend).
    exists [], r.
    split; [exact E | split; [exact Hend | intros pre' u' t' r' _; simpl; lia]].
  - intros Hs. destruct (IH Hs) as (pre & rest & H & Hend & Hleft).
    exists (c :: pre), rest. split; [|split; [exact Hend|]].
    + apply share_path_cons. exact H.
    + intros [|x pre'] u' t' r' H'.
      * rewrite (match_share_here_complete H') in E. discriminate.
      * assert (x = c) as -> by (destruct H' as (H' & _); simpl in H'; congruence).
        apply (proj1 (share_path_cons c s pre' u' t' r')) in H'.
        apply Hleft in H'. simpl. lia.
Qed.

(** ** Programs and their runs *)

Lemma run_bind {A B} (net : network) (m : IO A) (f : A -> IO B) :
  run net (bind m f) =
  (fst (run net (f (fst (run net m)))),
   snd (run net m) ++ snd (run net (f (fst (run net m))))).
Proof.
  induction m as [a | u t k IH | u t k IH | l k IH]; simpl.
  - destruct (run net (f a)); reflexivity.
  - rewrite IH. destruct (run net (k (net_head net u t))); reflexivity.
  - rewrite IH. destruct (run net (k (net_get net u t))); reflexivity.
  - rewrite IH. destruct (run net k); reflexivity.
Qed.

Lemma fst_run_bind {A B} (net : network) (m : IO A) (f : A -> IO B) :
  fst (run net (bind m f)) = fst (run net (f (fst (run net m)))).
Proof. rewrite run_bind. reflexivity. Qed.

Lemma snd_run_bind {A B} (net : network) (m : IO A) (f : A -> IO B) :
  snd (run net (bind m f))
  = snd (run net m) ++ snd (run net (f (fst (run net m)))).
Proof. rewrite run_bind. reflexivity. Qed.

Lemma run_print_all {A} (net : network) (lines : list str) (a : A) :
  run net (print_all lines (Ret a)) = (a, map EvPrint lines).
Proof.
  unfold print_all.
  induction lines as [|l lines IH]; simpl; [reflexivity|].
  rewrite IH. reflexivity.
Qed.

Lemma filter_requests_prints (lines : list str) :
  filter is_request (map EvPrint lines) = [].
Proof. induction lines; simpl; auto. Qed.

Section Classification.
Context {BH : BracketedHosts}.
Import Urllib.

Lemma normalize_url_requests (net : network) (url : str) (timeout : N) :
  filter is_request (snd (run net (normalize_url url timeout)))
  = snd (run net (normalize_url url timeout)).
Proof.
  unfold normalize_url. simpl.
  destruct (net_head net url timeout) as [resp|exc|exc]; simpl;
    [|reflexivity|reflexivity].
  destruct ((status_code resp =? 405)%N || (status_code resp =? 403)%N
            || is_redirect resp); simpl; [|reflexivity].
  destruct (net_get net url timeout); reflexivity.
Qed.

Lemma personal_continuation_run (net : network) (expanded : result str) :
  fst (run net (personal_continuation expanded))
  = rbind expanded convert_personal_onedrive_to_direct_link
  /\ filter is_request (snd (run net (personal_continuation expanded))) = [].
Proof.
  unfold personal_continuation.
  destruct (rbind expanded convert_personal_onedrive_to_direct_link) as [d|e].
  - rewrite run_print_all. simpl. split; [reflexivity|].
    apply filter_requests_prints.
  - simpl. auto.
Qed.

Lemma supported_host_iff (url : str) (p : ParseResult) :
  urlparse url = OK p ->
  is_onedrive_supported_host url = OK true <->
  exists h suffix, hostname p = Some h /\ In suffix supported_suffixes
                   /\ EndsWith suffix (PyStr.lower h).
Proof.
  intros Hp. unfold is_onedrive_supported_host. rewrite Hp. cbv beta iota delta [rbind].
  destruct (hostname p) as [h|].
  - destruct (PyStr.lower h) as [|c host] eqn:E.
    + split; [discriminate|]. intros (h' & suffix & [= <-] & Hin & Hend).
      rewrite E in Hend. destruct Hend as [a Ha].
      destruct a; simpl in Hin;
        repeat (destruct Hin as [<- | Hin]; [discriminate|]); contradiction.
    + split.
      * intros H. apply OK_inj in H.
        apply existsb_exists in H as (suffix & Hin & Hend).
        apply endswith_iff in Hend. exists h, suffix. rewrite E. auto.
      * intros (h' & suffix & [= <-] & Hin & Hend). f_equal.
        apply existsb_exists. exists suffix. rewrite E in Hend.
        split; [exact Hin | apply endswith_iff; exact Hend].
  - simpl. split; [discriminate|]. intros (h & suffix & H & _). discriminate.
Qed.

Lemma supported_host_parses (url : str) (b : bool) :
  is_onedrive_supported_host url = OK b -> exists p, urlparse url = OK p.
Proof.
  unfold is_onedrive_supported_host.
  destruct (urlparse url) as [p|e]; [eauto | discriminate].
Qed.

Lemma supported_host_total (url : str) (p : ParseResult) :
  urlparse url = OK p -> exists b, is_onedrive_supported_host url = OK b.
Proof.
  intros Hp. unfold is_onedrive_supported_host. rewrite Hp. cbv beta iota delta [rbind].
  destruct (PyStr.lower _); eauto.
Qed.

Lemma markers_iff (host : str) :
  existsb (fun domain => PyStr.contains domain host) sharepoint_markers = true
  <-> exists m, In m sharepoint_markers /\ Occurs m host.
Proof.
  rewrite existsb_exists. split; intros (m & H1 & H2); exists m;
    (split; [exact H1 | apply contains_iff; exact H2]).
Qed.

End Classification.

(** ** Splitting and joining *)

Lemma mem_iff (c : char) (s : str) : PyStr.mem c s = true <-> In c s.
Proof.
  unfold PyStr.mem. rewrite existsb_exists. split.
  - intros (x & Hx & E). apply N.eqb_eq in E. subst x. exact Hx.
  - intros H. exists c. split; [exact H | apply N.eqb_refl].
Qed.

Lemma mem_false_iff (c : char) (s : str) : PyStr.mem c s = false <-> ~ In c s.
Proof.
  rewrite <- mem_iff. destruct (PyStr.mem c s); split; congruence.
Qed.

Lemma break_app (c : char) (a b : str) :
  ~ In c a -> PyStr.break c (a ++ c :: b) = (a, c :: b).
Proof.
  induction a as [|x a IH]; simpl; intros H.
  - rewrite N.eqb_refl. reflexivity.
  - destruct (N.eqb_spec x c) as [->|_]; [tauto|].
    rewrite IH by tauto. reflexivity.
Qed.

Lemma break_none (c : char) (a : str) :
  ~ In c a -> PyStr.break c a = (a, []).
Proof.
  induction a as [|x a IH]; simpl; intros H; [reflexivity|].
  destruct (N.eqb_spec x c) as [->|_]; [tauto|].
  rewrite IH by tauto. reflexivity.
Qed.

Lemma break_sound (c : char) (s a b : str) :
  PyStr.break c s = (a, b) ->
  s = a ++ b /\ ~ In c a /\ (b = [] \/ exists b', b = c :: b').
Proof.
  revert a b; induction s as [|x s IH]; simpl; intros a b.
  - intros [= <- <-]. auto.
  - destruct (N.eqb_spec x c) as [->|Hne].
    + intros [= <- <-]. simpl. split; [reflexivity|]. split; [tauto|].
      right. exists s. reflexivity.
    + destruct (PyStr.break c s) as [a' b']. intros [= <- <-].
      destruct (IH a' b' eq_refl) as (-> & Hn & Hb).
      simpl. repeat split; auto. intros [H|H]; auto.
Qed.

Lemma partition_app (c : char) (a b : str) :
  ~ In c a -> PyStr.partition c (a ++ c :: b) = (a, true, b).
Proof. intros H. unfold PyStr.partition. rewrite break_app by exact H. reflexivity. Qed.

Lemma partition_none (c : char) (s : str) :
  ~ In c s -> PyStr.partition c s = (s, false, []).
Proof. intros H. unfold PyStr.partition. rewrite break_none by exact H. reflexivity. Qed.

Lemma partition_sound (c : char) (s a b : str) :
  PyStr.partition c s = (a, true, b) -> s = a ++ c :: b /\ ~ In c a.
Proof.
  unfold PyStr.partition. destruct (PyStr.break c s) as [a' [|x b']] eqn:E;
    [discriminate|].
  intros [= <- <-]. apply break_sound in E as (-> & Hn & [Hb | [b'' Hb]]);
    [discriminate|]. injection Hb as -> ->. auto.
Qed.

Lemma split_no_sep (c : char) (f : str) :
  ~ In c f -> PyStr.split c f = [f].
Proof.
  induction f as [|x f IH]; simpl; intros H; [reflexivity|].
  destruct (N.eqb_spec x c) as [->|_]; [tauto|].
  rewrite IH by tauto. reflexivity.
Qed.

Lemma split_app (c : char) (f r : str) :
  ~ In c f -> PyStr.split c (f ++ c :: r) = f :: PyStr.split c r.
Proof.
  induction f as [|x f IH]; simpl; intros H.
  - rewrite N.eqb_refl. reflexivity.
  - destruct (N.eqb_spec x c) as [->|_]; [tauto|].
    rewrite IH by tauto. reflexivity.
Qed.

Lemma join_cons (sep x : str) (l : list str) :
  l <> [] -> PyStr.join sep (x :: l) = x ++ sep ++ PyStr.join sep l.
Proof. destruct l; [congruence | reflexivity]. Qed.

Lemma split_join (c : char) (fs : list str) :
  Forall (fun f => ~ In c f) fs -> fs <> [] ->
  PyStr.split c (PyStr.join [c] fs) = fs.
Proof.
  induction fs as [|f fs IH]; [congruence|]. intros Hall _.
  inversion Hall as [|? ? Hf Hfs]; subst.
  destruct fs as [|g fs].
  - simpl. apply split_no_sep, Hf.
  - rewrite join_cons by discriminate.
    change (f ++ [c] ++ PyStr.join [c] (g :: fs))
      with (f ++ c :: PyStr.join [c] (g :: fs)).
    rewrite split_app by exact Hf.
    rewrite IH by (auto; discriminate). reflexivity.
Qed.

Lemma split_nonempty (c : char) (s : str) : PyStr.split c s <> [].
Proof.
  destruct s as [|x s]; simpl; [discriminate|].
  destruct (N.eqb x c); [discriminate|].
  destruct (PyStr.split c s); discriminate.
Qed.

Lemma join_split (c : char) (s : str) :
  PyStr.join [c] (PyStr.split c s) = s
  /\ Forall (fun f => ~ In c f) (PyStr.split c s).
Proof.
  induction s as [|x s [IH1 IH2]]; simpl.
  - split; [reflexivity | constructor; auto].
  - pose proof (split_nonempty c s) as Hne.
    destruct (N.eqb_spec x c) as [->|Hx].
    + split; [|constructor; auto].
      rewrite join_cons by exact Hne. simpl. congruence.
    + destruct (PyStr.split c s) as [|h t]; [congruence|].
      inversion IH2 as [|? ? Hh Ht]; subst. split.
      * destruct t; simpl in *; congruence.
      * constructor; [|exact Ht]. intros [H|H]; auto.
Qed.

Lemma join_nil_inv (c : char) (fs : list str) :
  PyStr.join [c] fs = [] -> fs = [] \/ fs = [[]].
Proof.
  destruct fs as [|f [|g fs]]; simpl; auto.
  - intros ->. auto.
  - intros H. apply app_eq_nil in H as [_ H]. discriminate.
Qed.

Lemma query_fields_unique (q : str) (fs fs' : list str) :
  QueryFields q fs -> QueryFields q fs' -> fs <> [] -> fs' <> [] -> fs = fs'.
Proof.
  intros [E Hall] [E' Hall'] Hne Hne'.
  rewrite <- (split_join (ch "&") Hall Hne), <- (split_join (ch "&") Hall' Hne').
  congruence.
Qed.

(** ** Query strings and dictionaries *)

Module QueryFacts.
Import Urllib.

Lemma parse_field_valued (name raw f : str) :
  FieldOf name raw f -> parse_field f = [(name, unquote_plus raw)].
Proof.
  intros (k & -> & Hk & <- & Hraw). unfold parse_field.
  rewrite partition_app by exact Hk.
  destruct raw as [|r0 raw]; [congruence|].
  destruct k; reflexivity.
Qed.

Lemma parse_field_inv (f n v : str) :
  In (n, v) (parse_field f) ->
  exists raw, FieldOf n raw f /\ v = unquote_plus raw.
Proof.
  unfold parse_field. destruct f as [|c f']; [intros []|].
  destruct (PyStr.partition (ch "=") (c :: f')) as [[name found] value] eqn:E.
  destruct found; [|intros []].
  destruct value as [|v0 value]; [intros []|].
  intros [[= <- <-]|[]].
  apply partition_sound in E as [E Hn].
  exists (v0 :: value). split; [|reflexivity].
  exists name. rewrite E. repeat split; auto. discriminate.
Qed.

Lemma eqb_sym (a b : str) : PyStr.eqb a b = PyStr.eqb b a.
Proof.
  destruct (PyStr.eqb a b) eqn:E; symmetry.
  - apply eqb_eq. apply eqb_eq in E. congruence.
  - apply eqb_neq. apply eqb_neq in E. congruence.
Qed.

Lemma get_set (d : Dict.t) (k' v k : str) :
  Dict.get (Dict.set d k' v) k
  = if PyStr.eqb k' k then Some v else Dict.get d k.
Proof.
  induction d as [|[k0 v0] d IH]; simpl; [reflexivity|].
  destruct (PyStr.eqb k0 k') eqn:E; simpl.
  - apply eqb_eq in E. subst k0. destruct (PyStr.eqb k' k); reflexivity.
  - rewrite IH. destruct (PyStr.eqb k0 k) eqn:E2; [|reflexivity].
    apply eqb_eq in E2. subst k0. rewrite eqb_sym, E. reflexivity.
Qed.

(** The value a key has after the pairs of [l] are set, in order. *)
Lemma get_fold_set (l : list (str * str)) (d : Dict.t) (k : str) :
  Dict.get (fold_left (fun d kv => Dict.set d (fst kv) (snd kv)) l d) k
  = fold_left (fun acc kv => if PyStr.eqb (fst kv) k then Some (snd kv) else acc)
              l (Dict.get d k).
Proof.
  revert d; induction l as [|[k' v] l IH]; intros d; simpl; [reflexivity|].
  rewrite IH, get_set. reflexivity.
Qed.

Lemma fold_other_keys (l : list (str * str)) (k : str) (acc : option str) :
  (forall kv, In kv l -> fst kv <> k) ->
  fold_left (fun acc kv => if PyStr.eqb (fst kv) k then Some (snd kv) else acc)
            l acc = acc.
Proof.
  revert acc; induction l as [|[k' v] l IH]; intros acc H; simpl; [reflexivity|].
  assert (E : PyStr.eqb k' k = false)
    by (apply eqb_neq; apply (H (k', v)); left; reflexivity).
  rewrite E. apply IH. intros kv Hkv. apply H. right. exact Hkv.
Qed.

Lemma get_last (l1 l2 : list (str * str)) (k v : str) :
  (forall kv, In kv l2 -> fst kv <> k) ->
  Dict.get (Dict.of_pairs (l1 ++ (k, v) :: l2)) k = Some v.
Proof.
  intros H. unfold Dict.of_pairs. rewrite get_fold_set, fold_left_app. simpl.
  rewrite eqb_refl. apply fold_other_keys, H.
Qed.

Lemma get_absent (l : list (str * str)) (k : str) :
  (forall kv, In kv l -> fst kv <> k) ->
  Dict.get (Dict.of_pairs l) k = None.
Proof.
  intros H. unfold Dict.of_pairs. rewrite get_fold_set. apply fold_other_keys, H.
Qed.

Lemma parse_qsl_fields (q : str) (fs : list str) :
  QueryFields q fs -> parse_qsl q = flat_map parse_field fs.
Proof.
  intros [-> Hall]. unfold parse_qsl, query_args.
  destruct (PyStr.join [ch "&"] fs) as [|c q] eqn:E.
  - apply join_nil_inv in E as [-> | ->]; reflexivity.
  - rewrite <- E. rewrite split_join; [reflexivity | exact Hall |].
    intros ->. discriminate.
Qed.

Lemma query_fields_exist (q : str) : QueryFields q (PyStr.split (ch "&") q).
Proof.
  destruct (join_split (ch "&") q) as [H1 H2]. split; [symmetry; exact H1 | exact H2].
Qed.

Lemma last_value_get (q name raw : str) :
  LastValue q name raw ->
  Dict.get (Dict.of_pairs (parse_qsl q)) name = Some (unquote_plus raw).
Proof.
  intros (before & f & after & Hq & Hf & Hafter).
  rewrite (parse_qsl_fields Hq), flat_map_app. simpl.
  rewrite (parse_field_valued Hf). simpl.
  apply get_last. intros [n v] Hin Hn. simpl in Hn. subst n.
  apply in_flat_map in Hin as (g & Hg & Hin).
  apply parse_field_inv in Hin as (raw' & Hraw' & _).
  exact (Hafter g raw' Hg Hraw').
Qed.

Lemma no_value_get (q name : str) :
  NoValue q name -> Dict.get (Dict.of_pairs (parse_qsl q)) name = None.
Proof.
  intros Hno. rewrite (parse_qsl_fields (query_fields_exist q)).
  apply get_absent. intros [n v] Hin Hn. simpl in Hn. subst n.
  apply in_flat_map in Hin as (g & Hg & Hin).
  apply parse_field_inv in Hin as (raw' & Hraw' & _).
  exact (Hno _ g raw' (query_fields_exist q) Hg Hraw').
Qed.

End QueryFacts.

(** ** Percent-encoding and decoding *)

Module QuoteFacts.
Import Urllib.

Lemma decode_nonempty (b : N) (r : list N) : Utf8.decode (b :: r) <> [].
Proof.
  simpl.
  repeat match goal with
         | |- context [if ?c then _ else _] => destruct c
         | |- context [match ?l with [] => _ | _ :: _ => _ end] => destruct l
         end; discriminate.
Qed.

Lemma unquote_item_nonempty (item : list N) : unquote_item item <> [].
Proof.
  unfold unquote_item. destruct item as [|a [|b rest]]; try discriminate.
  destruct (hexval a); [destruct (hexval b)|]; discriminate.
Qed.

Lemma unquote_to_bytes_nonempty (run : str) :
  run <> [] -> unquote_to_bytes run <> [].
Proof.
  destruct run as [|c run]; [congruence|]. intros _.
  unfold unquote_to_bytes.
  change (PyStr.split (ch "%") (c :: run))
    with (if N.eqb c (ch "%") then [] :: PyStr.split (ch "%") run
          else match PyStr.split (ch "%") run with
               | h :: t => (c :: h) :: t
               | [] => [[c]]
               end).
  pose proof (split_nonempty (ch "%") run) as Hne.
  destruct (N.eqb c (ch "%")).
  - destruct (PyStr.split (ch "%") run) as [|item bits]; [congruence|].
    simpl. intros H. apply app_eq_nil in H as [H _].
    exact (unquote_item_nonempty item H).
  - destruct (PyStr.split (ch "%") run) as [|h t]; discriminate.
Qed.

Lemma unquote_runs_nonempty (s run : str) :
  run <> [] \/ s <> [] -> unquote_runs run s <> [].
Proof.
  revert run; induction s as [|c s IH]; intros run H; simpl.
  - destruct H as [H|H]; [|congruence].
    apply unquote_to_bytes_nonempty in H.
    destruct (unquote_to_bytes run); [congruence | apply decode_nonempty].
  - destruct (c <? 128)%N.
    + apply IH. left. destruct run; discriminate.
    + intros E. apply app_eq_nil in E as [_ E]. discriminate.
Qed.

Lemma unquote_plus_nonempty (raw : str) :
  raw <> [] -> unquote_plus raw <> [].
Proof.
  intros H. unfold unquote_plus, unquote.
  assert (R : PyStr.replace (ch "+") (ch " ") raw <> [])
    by (destruct raw; [congruence | discriminate]).
  destruct (negb (PyStr.mem (ch "%") _)); [exact R|].
  apply unquote_runs_nonempty. right. exact R.
Qed.

Lemma field_safe_iff (c : char) :
  field_safe c = true <-> c <> ch "&" /\ c <> ch "=".
Proof.
  unfold field_safe. rewrite andb_true_iff, !negb_true_iff, !N.eqb_neq. tauto.
Qed.

Lemma hexdigit_field_safe (n : N) : field_safe (hexdigit n) = true.
Proof.
  apply field_safe_iff. unfold hexdigit.
  destruct (N.ltb_spec n 10); change (ch "&") with 38%N;
    change (ch "=") with 61%N; lia.
Qed.

Lemma quoter_field_safe (safe : str) (b : N) :
  forallb field_safe (_ALWAYS_SAFE ++ safe) = true ->
  forallb field_safe (quoter safe b) = true.
Proof.
  intros Hsafe. unfold quoter.
  destruct (PyStr.mem b (_ALWAYS_SAFE ++ safe)) eqn:E; simpl.
  - apply mem_iff in E. rewrite (proj1 (forallb_forall _ _) Hsafe b E). reflexivity.
  - rewrite !hexdigit_field_safe. reflexivity.
Qed.

Lemma quote_from_bytes_field_safe (safe : str) (bs : list N) :
  forallb field_safe (_ALWAYS_SAFE ++ safe) = true ->
  forallb field_safe (quote_from_bytes bs safe) = true.
Proof.
  intros Hsafe. unfold quote_from_bytes.
  induction bs as [|b bs IH]; simpl; [reflexivity|].
  rewrite forallb_app, IH, quoter_field_safe by exact Hsafe. reflexivity.
Qed.

Lemma quoter_nonempty (safe : str) (b : N) : quoter safe b <> [].
Proof. unfold quoter. destruct (PyStr.mem b _); discriminate. Qed.

Lemma encode_nonempty (s : str) (bs : list N) :
  s <> [] -> Utf8.encode s = OK bs -> bs <> [].
Proof.
  destruct s as [|c s]; [congruence|]. intros _. simpl.
  destruct (Utf8.encode_char c) as [cs|] eqn:E; [|discriminate].
  destruct (Utf8.encode s) as [r|]; simpl; [|discriminate].
  intros [= <-]. unfold Utf8.encode_char in E.
  repeat match type of E with
         | (if ?c then _ else _) = _ => destruct c
         end; inversion E; discriminate.
Qed.

Lemma quote_spec (s safe q : str) :
  forallb field_safe (_ALWAYS_SAFE ++ safe) = true ->
  quote s safe = OK q ->
  forallb field_safe q = true /\ (s <> [] -> q <> []).
Proof.
  intros Hsafe. unfold quote. destruct s as [|c s]; [intros [= <-]; auto|].
  destruct (Utf8.encode (c :: s)) as [bs|] eqn:E; simpl; [|discriminate].
  intros [= <-]. split; [apply quote_from_bytes_field_safe, Hsafe|].
  intros _. apply encode_nonempty in E; [|discriminate].
  destruct bs as [|b bs]; [congruence|]. unfold quote_from_bytes. simpl.
  intros H. apply app_eq_nil in H as [H _]. exact (quoter_nonempty _ _ H).
Qed.

Lemma quote_plus_spec (s q : str) :
  quote_plus s = OK q ->
  (forall c, In c q -> c <> ch "&" /\ c <> ch "=") /\ (s <> [] -> q <> []).
Proof.
  unfold quote_plus. destruct (negb (PyStr.mem (ch " ") s)).
  - intros H. apply quote_spec in H as [H1 H2]; [|vm_compute; reflexivity].
    split; [|exact H2]. intros c Hc. apply field_safe_iff.
    exact (proj1 (forallb_forall _ _) H1 c Hc).
  - destruct (quote s [ch " "]) as [q'|] eqn:E; simpl; [|discriminate].
    intros [= <-]. apply quote_spec in E as [H1 H2]; [|vm_compute; reflexivity].
    split.
    + intros c Hc. unfold PyStr.replace in Hc.
      apply in_map_iff in Hc as (x & <- & Hx).
      destruct (N.eqb x 32); [split; discriminate|].
      apply (proj1 (field_safe_iff x)).
      exact (proj1 (forallb_forall _ _) H1 x Hx).
    + intros Hs. specialize (H2 Hs). unfold PyStr.replace.
      destruct q'; [congruence | discriminate].
Qed.

(** Unreserved strings are their own encoding and decoding. *)

Lemma unreserved_char (f : char -> bool) (s : str) (c : char) :
  forallb f _ALWAYS_SAFE = true -> Unreserved s -> In c s -> f c = true.
Proof.
  intros Hf Hs Hc. exact (proj1 (forallb_forall _ _) Hf c (Hs c Hc)).
Qed.

Lemma unreserved_not_in (x : char) (s : str) :
  PyStr.mem x _ALWAYS_SAFE = false -> Unreserved s -> ~ In x s.
Proof.
  intros Hx Hs Hin. apply mem_false_iff in Hx. exact (Hx (Hs x Hin)).
Qed.

Lemma unreserved_cons (c : char) (s : str) :
  Unreserved (c :: s) -> In c _ALWAYS_SAFE /\ Unreserved s.
Proof.
  intros H. split; [apply H; left; reflexivity|].
  intros x Hx. apply H. right. exact Hx.
Qed.

Lemma encode_ascii (s : str) :
  (forall c, In c s -> (c <? 128)%N = true) -> Utf8.encode s = OK s.
Proof.
  induction s as [|c s IH]; intros H; simpl; [reflexivity|].
  unfold Utf8.encode_char. rewrite (H c) by (left; reflexivity).
  rewrite IH by (intros x Hx; apply H; right; exact Hx). reflexivity.
Qed.

Lemma quote_from_bytes_unreserved (l : str) :
  Unreserved l -> quote_from_bytes l [] = l.
Proof.
  unfold quote_from_bytes. induction l as [|x l IH]; intros Hl; [reflexivity|].
  apply unreserved_cons in Hl as [Hx Hl]. simpl.
  unfold quoter at 1. rewrite app_nil_r.
  rewrite (proj2 (mem_iff x _ALWAYS_SAFE) Hx). simpl. rewrite IH by exact Hl.
  reflexivity.
Qed.

Lemma quote_plus_unreserved (s : str) : Unreserved s -> quote_plus s = OK s.
Proof.
  intros Hs. unfold quote_plus.
  assert (E : PyStr.mem (ch " ") s = false)
    by (apply mem_false_iff, unreserved_not_in; [reflexivity | exact Hs]).
  rewrite E. simpl negb. cbv iota. unfold quote.
  destruct s as [|c s]; [reflexivity|].
  rewrite encode_ascii.
  2:{ intros x Hx.
      apply (@unreserved_char (fun c => (c <? 128)%N) (c :: s) x);
        [reflexivity | exact Hs | exact Hx]. }
  cbv beta iota delta [rbind]. rewrite quote_from_bytes_unreserved by exact Hs.
  reflexivity.
Qed.

Lemma replace_absent (c d : char) (s : str) :
  ~ In c s -> PyStr.replace c d s = s.
Proof.
  unfold PyStr.replace. induction s as [|x s IH]; simpl; intros H; [reflexivity|].
  destruct (N.eqb_spec x c) as [->|_]; [tauto|]. rewrite IH by tauto. reflexivity.
Qed.

Lemma unquote_plus_unreserved (s : str) : Unreserved s -> unquote_plus s = s.
Proof.
  intros Hs. unfold unquote_plus, unquote.
  rewrite replace_absent by (apply unreserved_not_in; [reflexivity | exact Hs]).
  assert (E : PyStr.mem (ch "%") s = false)
    by (apply mem_false_iff, unreserved_not_in; [reflexivity | exact Hs]).
  rewrite E. reflexivity.
Qed.

End QuoteFacts.

(** ** The query string the fallback writes *)

Module FallbackFacts.
Import Urllib.

Lemma set_valued (d : Dict.t) (k v : str) :
  Valued d -> v <> [] -> Valued (Dict.set d k v).
Proof.
  unfold Valued. induction d as [|[k' v'] d IH]; simpl; intros Hd Hv.
  - constructor; [exact Hv | constructor].
  - inversion Hd as [|? ? Hk Hd']; subst.
    destruct (PyStr.eqb k' k); constructor; auto.
Qed.

Lemma fold_set_valued (l : list (str * str)) (d : Dict.t) :
  Valued l -> Valued d ->
  Valued (fold_left (fun d kv => Dict.set d (fst kv) (snd kv)) l d).
Proof.
  revert d; induction l as [|[k v] l IH]; intros d Hl Hd; simpl; [exact Hd|].
  inversion Hl as [|? ? Hv Hl']; subst.
  apply IH; [exact Hl' | apply set_valued; assumption].
Qed.

Lemma parse_qsl_valued (q : str) : Valued (parse_qsl q).
Proof.
  unfold Valued. apply Forall_forall. intros [n v] Hin.
  unfold parse_qsl in Hin. apply in_flat_map in Hin as (f & _ & Hin).
  apply QueryFacts.parse_field_inv in Hin as (raw & (k & _ & _ & _ & Hraw) & ->).
  simpl. apply QuoteFacts.unquote_plus_nonempty, Hraw.
Qed.

Lemma set_nonempty (d : Dict.t) (k v : str) : Dict.set d k v <> [].
Proof. destruct d as [|[k' v'] d]; simpl; [|destruct (PyStr.eqb k' k)]; discriminate. Qed.

Lemma urlencode_items_spec (d : Dict.t) (l : list str) :
  urlencode_items d = OK l -> Valued d ->
  Forall (fun f => ~ In (ch "&") f /\ ValuedField f) l /\ (d <> [] -> l <> []).
Proof.
  revert l; induction d as [|[k v] d IH]; intros l; simpl.
  - intros [= <-] _. split; [constructor | congruence].
  - destruct (quote_plus k) as [k'|] eqn:Ek; simpl; [|discriminate].
    destruct (quote_plus v) as [v'|] eqn:Ev; simpl; [|discriminate].
    destruct (urlencode_items d) as [l'|]; simpl; [|discriminate].
    intros [= <-] Hd. inversion Hd as [|? ? Hv Hd']; subst. simpl in Hv.
    apply QuoteFacts.quote_plus_spec in Ek as [Hk _].
    apply QuoteFacts.quote_plus_spec in Ev as [Hv1 Hv2].
    split; [|discriminate]. constructor; [|apply (IH l' eq_refl Hd')].
    split.
    + intros Hin. apply in_app_or in Hin as [Hin | [Hin | Hin]].
      * apply Hk in Hin. tauto.
      * discriminate Hin.
      * apply Hv1 in Hin. tauto.
    + exists k', v'. split; [reflexivity|]. split; [|auto].
      intros Hin. apply Hk in Hin. tauto.
Qed.

(** The fields of an encoded dictionary that holds a key and no empty value
    are fields with a value. *)
Lemma urlencode_fields (d : Dict.t) (nq : str) :
  urlencode d = OK nq -> Valued d -> d <> [] ->
  forall f, In f (PyStr.split (ch "&") nq) -> ValuedField f.
Proof.
  unfold urlencode.
  destruct (urlencode_items d) as [l|] eqn:E; simpl; [|discriminate].
  intros [= <-] Hd Hne f Hf.
  apply urlencode_items_spec in E as [Hl Hne']; [|exact Hd].
  rewrite split_join in Hf.
  - rewrite Forall_forall in Hl. apply (Hl f Hf).
  - apply Forall_forall. intros g Hg. rewrite Forall_forall in Hl.
    apply (Hl g Hg).
  - auto.
Qed.

End FallbackFacts.

(** ** Plain pairs go through the query string unchanged *)

Module PairFacts.
Import Urllib.

Lemma field_no_amp (k v : str) :
  Unreserved k -> Unreserved v -> ~ In (ch "&") (field (k, v)).
Proof.
  intros Hk Hv Hin. unfold field in Hin. simpl in Hin.
  apply in_app_or in Hin as [Hin | [Hin | Hin]].
  - revert Hin. apply QuoteFacts.unreserved_not_in; [reflexivity | exact Hk].
  - discriminate Hin.
  - revert Hin. apply QuoteFacts.unreserved_not_in; [reflexivity | exact Hv].
Qed.

Lemma field_of_pair (k v : str) :
  Unreserved k -> v <> [] -> FieldOf k v (field (k, v)).
Proof.
  intros Hk Hv. exists k. split; [reflexivity|]. split.
  - apply QuoteFacts.unreserved_not_in; [reflexivity | exact Hk].
  - split; [apply QuoteFacts.unquote_plus_unreserved, Hk | exact Hv].
Qed.

Lemma plain_pairs_tail (kv : str * str) (pairs : list (str * str)) :
  PlainPairs (kv :: pairs) -> PlainPairs pairs.
Proof.
  intros [Hnd H]. split.
  - simpl in Hnd. inversion Hnd; assumption.
  - intros k v Hin. apply H. right. exact Hin.
Qed.

Lemma query_fields_of_pairs (pairs : list (str * str)) :
  PlainPairs pairs -> QueryFields (query_string pairs) (map field pairs).
Proof.
  intros [_ H]. split; [reflexivity|]. apply Forall_forall.
  intros f Hf. apply in_map_iff in Hf as ([k v] & <- & Hin).
  destruct (H k v Hin) as (Hk & Hv & _). apply field_no_amp; assumption.
Qed.

Lemma parse_fields_of_pairs (pairs : list (str * str)) :
  PlainPairs pairs -> flat_map parse_field (map field pairs) = pairs.
Proof.
  induction pairs as [|[k v] pairs IH]; intros Hp; [reflexivity|].
  destruct (proj2 Hp k v (or_introl eq_refl)) as (Hk & Hv & Hne).
  simpl. rewrite (QueryFacts.parse_field_valued (field_of_pair Hk Hne)).
  rewrite QuoteFacts.unquote_plus_unreserved by exact Hv.
  rewrite IH by exact (plain_pairs_tail Hp). reflexivity.
Qed.

Lemma parse_qsl_pairs (pairs : list (str * str)) :
  PlainPairs pairs -> parse_qsl (query_string pairs) = pairs.
Proof.
  intros Hp. rewrite (QueryFacts.parse_qsl_fields (query_fields_of_pairs Hp)).
  apply parse_fields_of_pairs, Hp.
Qed.

Lemma set_fresh (d : Dict.t) (k v : str) :
  ~ In k (map fst d) -> Dict.set d k v = d ++ [(k, v)].
Proof.
  induction d as [|[k' v'] d IH]; simpl; intros H; [reflexivity|].
  assert (E : PyStr.eqb k' k = false) by (apply eqb_neq; tauto).
  rewrite E, IH by tauto. reflexivity.
Qed.

Lemma fold_set_fresh (l : list (str * str)) (d : Dict.t) :
  NoDup (map fst (d ++ l)) ->
  fold_left (fun d kv => Dict.set d (fst kv) (snd kv)) l d = d ++ l.
Proof.
  revert d; induction l as [|[k v] l IH]; intros d H; simpl.
  - rewrite app_nil_r. reflexivity.
  - rewrite set_fresh.
    + rewrite IH; rewrite <- app_assoc; [reflexivity | exact H].
    + rewrite map_app in H. simpl in H. apply NoDup_remove_2 in H.
      intros Hin. apply H. apply in_or_app. left. exact Hin.
Qed.

Lemma of_pairs_plain (pairs : list (str * str)) :
  PlainPairs pairs -> Dict.of_pairs pairs = pairs.
Proof. intros [Hnd _]. apply (fold_set_fresh pairs []). exact Hnd. Qed.

Lemma get_absent_key (pairs : list (str * str)) (k : str) :
  ~ In k (map fst pairs) -> Dict.get pairs k = None.
Proof.
  induction pairs as [|[k' v'] pairs IH]; simpl; intros H; [reflexivity|].
  assert (E : PyStr.eqb k' k = false) by (apply eqb_neq; tauto).
  rewrite E. apply IH. tauto.
Qed.

Lemma get_some_in (d : Dict.t) (k v : str) :
  Dict.get d k = Some v -> In k (map fst d).
Proof.
  induction d as [|[k' v'] d IH]; simpl; [discriminate|].
  destruct (PyStr.eqb k' k) eqn:E; [apply eqb_eq in E; auto | auto].
Qed.

Lemma urlencode_items_plain (pairs : list (str * str)) :
  (forall k v, In (k, v) pairs -> Unreserved k /\ Unreserved v) ->
  urlencode_items pairs = OK (map field pairs).
Proof.
  induction pairs as [|[k v] pairs IH]; intros H; [reflexivity|].
  destruct (H k v (or_introl eq_refl)) as [Hk Hv]. simpl.
  rewrite !QuoteFacts.quote_plus_unreserved by assumption. simpl.
  rewrite IH by (intros k' v' Hin; apply H; right; exact Hin). reflexivity.
Qed.

Lemma urlencode_plain (pairs : list (str * str)) :
  (forall k v, In (k, v) pairs -> Unreserved k /\ Unreserved v) ->
  urlencode pairs = OK (query_string pairs).
Proof.
  intros H. unfold urlencode. rewrite urlencode_items_plain by exact H.
  reflexivity.
Qed.

Lemma unreserved_literal (s : str) :
  forallb (fun c => PyStr.mem c _ALWAYS_SAFE) s = true -> Unreserved s.
Proof.
  intros H c Hc. apply mem_iff. exact (proj1 (forallb_forall _ _) H c Hc).
Qed.

Lemma query_string_chars (pairs : list (str * str)) (c : char) :
  PlainPairs pairs -> In c (query_string pairs) ->
  c = ch "&" \/ c = ch "=" \/ In c _ALWAYS_SAFE.
Proof.
  intros Hp. unfold query_string.
  induction pairs as [|[k v] pairs IH]; [intros []|].
  destruct (proj2 Hp k v (or_introl eq_refl)) as (Hk & Hv & _).
  specialize (IH (plain_pairs_tail Hp)).
  assert (Hfield : In c (field (k, v)) -> c = ch "&" \/ c = ch "=" \/ In c _ALWAYS_SAFE).
  { unfold field. cbn [fst snd]. intros Hin.
    apply in_app_or in Hin as [Hin | [Hin | Hin]].
    - right; right; exact (Hk c Hin).
    - right; left; symmetry; exact Hin.
    - right; right; exact (Hv c Hin). }
  destruct pairs as [|kv pairs].
  - exact Hfield.
  - cbn [map]. rewrite join_cons by discriminate. intros Hin.
    apply in_app_or in Hin as [Hin | Hin]; [exact (Hfield Hin)|].
    apply in_app_or in Hin as [[Hin | []] | Hin];
      [left; symmetry; exact Hin | exact (IH Hin)].
Qed.

End PairFacts.

(** ** Plain links through [urlparse] and [urlunparse] *)

Module UrlFacts.
Import Urllib.

Lemma remove_absent (c : char) (s : str) : ~ In c s -> PyStr.remove c s = s.
Proof.
  unfold PyStr.remove. induction s as [|x s IH]; simpl; intros H; [reflexivity|].
  destruct (N.eqb_spec x c) as [->|_]; [tauto|]. simpl. rewrite IH by tauto.
  reflexivity.
Qed.

Lemma remove_unsafe (s : str) :
  NoLineBreaks s ->
  fold_left (fun u b => PyStr.remove b u) _UNSAFE_URL_BYTES_TO_REMOVE s = s.
Proof.
  intros H. unfold _UNSAFE_URL_BYTES_TO_REMOVE. cbn [fold_left].
  rewrite (remove_absent 9%N s) by (intros Hin; apply H in Hin; tauto).
  rewrite (remove_absent 13%N s) by (intros Hin; apply H in Hin; tauto).
  rewrite (remove_absent 10%N s) by (intros Hin; apply H in Hin; tauto).
  reflexivity.
Qed.

Lemma find_app (c : char) (a b : str) :
  ~ In c a ->
  PyStr.find c (a ++ b) = option_map (Nat.add (length a)) (PyStr.find c b).
Proof.
  induction a as [|x a IH]; simpl; intros H.
  - destruct (PyStr.find c b); reflexivity.
  - destruct (N.eqb_spec x c) as [->|_]; [tauto|]. rewrite IH by tauto.
    destruct (PyStr.find c b); reflexivity.
Qed.

Lemma splitnetloc_spec (a b : char) (netloc tail : str) :
  (forall c, In c netloc -> c <> ch "/" /\ c <> ch "?" /\ c <> ch "#") ->
  Delimited tail ->
  _splitnetloc (a :: b :: netloc ++ tail) 2 = (netloc, tail).
Proof.
  intros Hn Ht. unfold _splitnetloc, find_from.
  change (skipn 2 (a :: b :: netloc ++ tail)) with (netloc ++ tail).
  change (lit "/?#") with [ch "/"; ch "?"; ch "#"]. cbn [fold_left].
  rewrite !find_app by (intros Hin; apply Hn in Hin; tauto).
  match goal with
  | |- (firstn (?D - 2) _, _) = _ => assert (HD : D = 2 + length netloc)
  end.
  { change (length (a :: b :: netloc ++ tail))
      with (S (S (length (netloc ++ tail)))).
    rewrite length_app.
    destruct tail as [|d t].
    - simpl. lia.
    - simpl in Ht. cbn [PyStr.find].
      destruct Ht as [-> | [-> | ->]]; simpl N.eqb; cbv iota;
        repeat match goal with
               | |- context [PyStr.find ?c t] => destruct (PyStr.find c t)
               end; simpl; lia. }
  rewrite HD.
  replace (2 + length netloc - 2) with (length netloc) by lia.
  rewrite firstn_length_app.
  change (skipn (2 + length netloc) (a :: b :: netloc ++ tail))
    with (skipn (length netloc) (netloc ++ tail)).
  rewrite skipn_length_app. reflexivity.
Qed.

Lemma split_at_optional (c : char) (a b : str) :
  ~ In c a -> split_at c (a ++ optional c b) = (a, b).
Proof.
  intros H. unfold split_at. destruct b as [|b0 b]; simpl optional.
  - rewrite app_nil_r, (proj2 (mem_false_iff c a) H). reflexivity.
  - rewrite (proj2 (mem_iff c (a ++ c :: b0 :: b)))
      by (apply in_or_app; right; left; reflexivity).
    rewrite partition_app by exact H. reflexivity.
Qed.

Lemma scheme_stage (sch rest : str) :
  sch = lit "http" \/ sch = lit "https" ->
  PyStr.lstrip _WHATWG_C0_CONTROL_OR_SPACE (sch ++ ch ":" :: rest)
  = sch ++ ch ":" :: rest
  /\ split_scheme (sch ++ ch ":" :: rest) = (sch, rest).
Proof. intros [-> | ->]; split; reflexivity. Qed.

Lemma link_tail_delimited (path q fragment : str) :
  path = [] \/ (exists r, path = ch "/" :: r) ->
  Delimited (path ++ optional (ch "?") q ++ optional (ch "#") fragment).
Proof.
  intros [-> | [r ->]]; [|left; reflexivity].
  destruct q as [|q0 q]; [|right; left; reflexivity].
  destruct fragment as [|f0 fragment]; [exact I | right; right; reflexivity].
Qed.

Section WithBracketedHosts.
Context {BH : BracketedHosts}.

Lemma split_netloc_plain (netloc tail : str) :
  PlainNetloc netloc -> Delimited tail ->
  split_netloc (ch "/" :: ch "/" :: netloc ++ tail) = OK (netloc, tail).
Proof.
  intros [Hne Hnet] Ht. unfold split_netloc.
  change (PyStr.eqb (firstn 2 (ch "/" :: ch "/" :: netloc ++ tail)) (lit "//"))
    with true. cbv iota.
  rewrite splitnetloc_spec;
    [| intros c Hc; apply Hnet in Hc; tauto | exact Ht ].
  assert (Ho : PyStr.mem (ch "[") netloc = false)
    by (apply mem_false_iff; intros Hin; apply Hnet in Hin; tauto).
  assert (Hc : PyStr.mem (ch "]") netloc = false)
    by (apply mem_false_iff; intros Hin; apply Hnet in Hin; tauto).
  rewrite Ho, Hc. reflexivity.
Qed.

Lemma urlsplit_link (sch netloc path q fragment : str) :
  sch = lit "http" \/ sch = lit "https" ->
  PlainNetloc netloc -> PlainPath path -> ~ In (ch "#") q ->
  NoLineBreaks (link sch netloc path q fragment) ->
  urlsplit (link sch netloc path q fragment)
  = OK (mkSplit sch netloc path q fragment).
Proof.
  intros Hsch Hnet [Hstart Hpath] Hq Hlb. unfold urlsplit.
  set (tail := path ++ optional (ch "?") q ++ optional (ch "#") fragment).
  change (link sch netloc path q fragment)
    with (sch ++ ch ":" :: ch "/" :: ch "/" :: netloc ++ tail) in *.
  destruct (scheme_stage (ch "/" :: ch "/" :: netloc ++ tail) Hsch) as [E1 E2].
  rewrite E1, (remove_unsafe Hlb), E2.
  rewrite split_netloc_plain;
    [| exact Hnet | apply link_tail_delimited, Hstart ].
  cbv beta iota delta [rbind]. unfold tail. rewrite app_assoc.
  rewrite split_at_optional.
  2:{ intros Hin. apply in_app_or in Hin as [Hin | Hin].
      - apply Hpath in Hin. tauto.
      - destruct q as [|q0 q]; [exact Hin|].
        destruct Hin as [Hin | Hin]; [discriminate Hin | exact (Hq Hin)]. }
  rewrite split_at_optional by (intros Hin; apply Hpath in Hin; tauto).
  assert (Ha : PyStr.isascii netloc = true).
  { apply forallb_forall. intros c Hin. apply N.ltb_lt.
    apply (proj2 Hnet) in Hin. tauto. }
  unfold _checknetloc. rewrite Ha, orb_true_r. reflexivity.
Qed.

Lemma urlparse_link (sch netloc path q fragment : str) :
  sch = lit "http" \/ sch = lit "https" ->
  PlainNetloc netloc -> PlainPath path -> ~ In (ch "#") q ->
  NoLineBreaks (link sch netloc path q fragment) ->
  urlparse (link sch netloc path q fragment)
  = OK (mkParse sch netloc path [] q fragment).
Proof.
  intros Hsch Hnet Hpath Hq Hlb. unfold urlparse.
  rewrite urlsplit_link by assumption. cbv beta iota delta [rbind].
  cbn [s_scheme s_netloc s_path s_query s_fragment].
  assert (E : PyStr.mem (ch ";") path = false)
    by (apply mem_false_iff; intros Hin; apply (proj2 Hpath) in Hin; tauto).
  rewrite E, andb_false_r. reflexivity.
Qed.

End WithBracketedHosts.

Lemma urlunparse_link (sch netloc path q fragment : str) :
  sch = lit "http" \/ sch = lit "https" ->
  netloc <> [] -> path = [] \/ (exists r, path = ch "/" :: r) ->
  urlunparse sch netloc path [] q fragment = link sch netloc path q fragment.
Proof.
  intros Hsch Hne Hstart. unfold urlunparse, urlunsplit, link.
  destruct netloc as [|n0 netloc]; [congruence|]. cbv beta iota zeta.
  assert (E : (match path with [] => false | _ :: _ => true end
               && negb (PyStr.eqb (firstn 1 path) (lit "/"))) = false).
  { destruct Hstart as [-> | [r ->]]; reflexivity. }
  rewrite E. simpl orb. cbv iota.
  destruct Hsch as [-> | ->]; destruct q, fragment; simpl;
    rewrite <- ?app_assoc; simpl; rewrite ?app_nil_r; reflexivity.
Qed.

End UrlFacts.

(** ** The history store *)

Module HistoryFacts.
Import History.

Lemma existing_index_none (u : str) (history : list item) :
  existing_index u history = None <-> ~ In u (map url history).
Proof.
  induction history as [|it history IH]; simpl; [tauto|].
  destruct (PyStr.eqb (url it) u) eqn:E.
  - apply eqb_eq in E. split; [discriminate | tauto].
  - apply eqb_neq in E.
    destruct (existing_index u history); simpl.
    + split; [discriminate|]. intros H. exfalso. apply H. right.
      destruct (in_dec (list_eq_dec N.eq_dec) u (map url history)) as [Hin|Hn];
        [exact Hin | apply IH in Hn; discriminate].
    + split; [|reflexivity]. intros _ [H|H]; [congruence | apply IH in H; auto].
Qed.

Lemma assign_length (history : list item) (i : nat) (x : item) :
  length (assign history i x) = length history.
Proof.
  revert i; induction history as [|it history IH]; intros [|i]; simpl; auto.
Qed.

Lemma existing_index_some (u : str) (history : list item) (i : nat) (x : item) :
  existing_index u history = Some i -> url x = u ->
  map url (assign history i x) = map url history /\ In x (assign history i x).
Proof.
  revert i; induction history as [|it history IH]; intros i; simpl; [discriminate|].
  destruct (PyStr.eqb (url it) u) eqn:E.
  - intros [= <-] Hx. apply eqb_eq in E. simpl. split; [congruence | auto].
  - destruct (existing_index u history) as [j|]; simpl; [|discriminate].
    intros [= <-] Hx. destruct (IH j eq_refl Hx) as [H1 H2].
    simpl. split; [congruence | auto].
Qed.

Lemma NoDup_firstn {A} (n : nat) (l : list A) : NoDup l -> NoDup (firstn n l).
Proof.
  intros H. rewrite <- (firstn_skipn n l) in H.
  exact (NoDup_app_remove_r _ _ H).
Qed.

Lemma entries_of_absent (u : str) (history : list item) :
  ~ In u (map url history) -> entries_of u history = [].
Proof.
  unfold entries_of. induction history as [|it history IH]; simpl; [reflexivity|].
  intros H. destruct (PyStr.eqb (url it) u) eqn:E.
  - apply eqb_eq in E. tauto.
  - apply IH. tauto.
Qed.

Lemma entries_of_unique (history : list item) (x : item) :
  NoDup (map url history) -> In x history -> entries_of (url x) history = [x].
Proof.
  induction history as [|it history IH]; simpl; [contradiction|].
  intros Hnd Hin. inversion Hnd as [|? ? Hnotin Hnd']; subst.
  destruct Hin as [-> | Hin].
  - unfold entries_of. simpl. rewrite eqb_refl. f_equal.
    apply entries_of_absent. exact Hnotin.
  - unfold entries_of. simpl. destruct (PyStr.eqb (url it) (url x)) eqn:E.
    + apply eqb_eq in E. exfalso. apply Hnotin. rewrite E. apply in_map. exact Hin.
    + apply IH; assumption.
Qed.

Lemma truncate_cons (x : item) (l : list item) :
  (if 100 <? length (x :: firstn 100 l)
   then firstn 100 (x :: firstn 100 l) else x :: firstn 100 l)
  = firstn 100 (x :: l).
Proof.
  change (firstn 100 (x :: l)) with (x :: firstn 99 l).
  change (firstn 100 (x :: firstn 100 l)) with (x :: firstn 99 (firstn 100 l)).
  rewrite firstn_firstn. change (Nat.min 99 100) with 99.
  destruct (100 <? length (x :: firstn 100 l)) eqn:E; [reflexivity|].
  apply Nat.ltb_ge in E.
  change (length (x :: firstn 100 l)) with (S (length (firstn 100 l))) in E.
  rewrite length_firstn in E.
  f_equal. rewrite !firstn_all2 by lia. reflexivity.
Qed.

(** What one save leaves: no duplicate, at most 100 entries, and the saved
    entry as the only one of its url. *)
Lemma updated_history_spec (history : list item) (x : item) :
  Deduplicated history ->
  Deduplicated (updated_history history x)
  /\ entries_of (url x) (updated_history history x) = [x].
Proof.
  intros [Hnd Hlen]. unfold updated_history.
  destruct (existing_index (url x) history) as [i|] eqn:E.
  - destruct (existing_index_some history x E eq_refl) as [Hmap Hin].
    assert (L : length (assign history i x) = length history)
      by apply assign_length.
    assert (T : (100 <? length (assign history i x)) = false)
      by (apply Nat.ltb_ge; lia).
    rewrite T. split; [split|].
    + rewrite Hmap. exact Hnd.
    + lia.
    + apply entries_of_unique; [rewrite Hmap; exact Hnd | exact Hin].
  - apply existing_index_none in E.
    assert (Hnd' : NoDup (map url (x :: history)))
      by (simpl; constructor; assumption).
    destruct (100 <? length (x :: history)) eqn:T.
    + split; [split|].
      * rewrite <- firstn_map. apply NoDup_firstn. exact Hnd'.
      * rewrite length_firstn. lia.
      * apply entries_of_unique.
        -- rewrite <- firstn_map. apply NoDup_firstn. exact Hnd'.
        -- simpl. auto.
    + apply Nat.ltb_ge in T. split; [split|]; auto.
      apply entries_of_unique; [exact Hnd' | simpl; auto].
Qed.

(** The order of the urls after one save: unchanged when the url was held,
    the new url first otherwise. *)
Lemma updated_history_order (history : list item) (x : item) :
  Deduplicated history ->
  (In (url x) (map url history) ->
   map url (updated_history history x) = map url history)
  /\ (~ In (url x) (map url history) ->
      map url (updated_history history x)
      = firstn 100 (url x :: map url history)).
Proof.
  intros [Hnd Hlen]. unfold updated_history. split.
  - intros Hin.
    destruct (existing_index (url x) history) as [i|] eqn:E;
      [|apply existing_index_none in E; contradiction].
    destruct (existing_index_some history x E eq_refl) as [Hmap _].
    assert (T : (100 <? length (assign history i x)) = false)
      by (apply Nat.ltb_ge; rewrite assign_length; lia).
    rewrite T. exact Hmap.
  - intros Hnew. apply existing_index_none in Hnew. rewrite Hnew.
    change (url x :: map url history) with (map url (x :: history)).
    destruct (100 <? length (x :: history)) eqn:T.
    + symmetry. apply firstn_map.
    + apply Nat.ltb_ge in T. rewrite firstn_all2; [reflexivity|].
      rewrite length_map. exact T.
Qed.

(** A successful save: what was asked and what the file holds after. *)
Lemma save_history_success
    (now : clock) (data : option request) (w : write_outcome) (f f' : file) :
  save_history now data w f = (Success, f') ->
  exists d u,
    data = Some d /\ req_url d = Some u
    /\ f' = Stored (updated_history (load_history f) (new_item now d u)).
Proof.
  unfold save_history. destruct data as [d|]; [|discriminate].
  destruct (req_url d) as [u|] eqn:Eu; [|discriminate].
  destruct w; simpl; try discriminate.
  intros [= <-]. exists d, u. repeat split. exact Eu.
Qed.

Lemma step_deduplicated (f : file) (c : call) :
  FileDeduplicated f -> FileDeduplicated (step f c).
Proof.
  unfold FileDeduplicated, step, save_history. intros H.
  destruct (c_data c) as [d|]; [|exact H].
  destruct (req_url d) as [u|]; [|exact H].
  destruct (c_write c); simpl.
  - apply updated_history_spec. exact H.
  - exact H.
  - split; [constructor | simpl; lia].
Qed.

Lemma after_deduplicated (calls : list call) : FileDeduplicated (after calls).
Proof.
  unfold after.
  assert (G : forall f, FileDeduplicated f ->
                        FileDeduplicated (fold_left step calls f)).
  { induction calls as [|c calls IH]; intros f Hf; simpl; [exact Hf|].
    apply IH, step_deduplicated, Hf. }
  apply G. split; [constructor | simpl; lia].
Qed.

Lemma step_written (f : file) (now : clock) (d : request) (u : str) :
  req_url d = Some u ->
  load_history (step f (mkCall now (Some d) Written))
  = updated_history (load_history f) (new_item now d u).
Proof. intros E. unfold step, save_history. simpl. rewrite E. reflexivity. Qed.

Lemma after_snoc (calls : list call) (c : call) :
  after (calls ++ [c]) = step (after calls) c.
Proof. unfold after. rewrite fold_left_app. reflexivity. Qed.

End HistoryFacts.

(** * The claims *)

Section Claims.
Context {BH : BracketedHosts}.
Import Urllib.

(** C1.  When the path of the URL matches
    [/:u:/g/personal/<user>/<token>], the enterprise rewrite rule returns
    exactly
    [https://<host>/personal/<user>/_layouts/52/download.aspx?share=<token>]:
    [<host>] is the network location of the URL as it is written, [<user>]
    a run of characters other than [/] and [<token>] a maximal run of
    characters other than [/], [?] and [#], taken from the leftmost match,
    which determines them. *)
Theorem enterprise_rewrite_rule (url : str) (p : ParseResult) :
  urlparse url = OK p ->
  HasSharePath (path p) ->
  exists pre user token rest,
    SharePathAt (path p) pre user token rest
    /\ TokenEnds rest
    /\ Leftmost (path p) pre
    /\ convert_sharepoint_to_direct_link url
       = OK (lit "https://" ++ netloc p ++ lit "/personal/" ++ user
             ++ lit "/_layouts/52/download.aspx?share=" ++ token)
    /\ forall pre' user' token' rest',
         SharePathAt (path p) pre' user' token' rest' ->
         TokenEnds rest' -> Leftmost (path p) pre' ->
         user' = user /\ token' = token.
Proof.
  intros Hp Hpath.
  destruct (Re.search_share (path p)) as [[user token]|] eqn:E;
    [|destruct (search_share_none E Hpath)].
  destruct (search_share_sound _ E) as (pre & rest & H & Hend & Hleft).
  exists pre, user, token, rest.
  split; [exact H | split; [exact Hend | split; [exact Hleft | split]]].
  - unfold convert_sharepoint_to_direct_link. rewrite Hp.
    cbv beta iota delta [rbind]. rewrite E. reflexivity.
  - intros pre' user' token' rest' H' Hend' Hleft'.
    pose proof (search_share_leftmost H' Hend' Hleft') as E'.
    split; congruence.
Qed.

(** C8.  For a URL that parses, the enterprise rewrite rule fails exactly
    when the path does not match [/:u:/g/personal/<user>/<token>]; the
    failure is a [OneDriveLinkError] whose message names the expected
    format and ends with the offending URL, and no other rule is tried. *)
Theorem enterprise_rule_failure (url : str) (p : ParseResult) :
  urlparse url = OK p ->
  ((exists e, convert_sharepoint_to_direct_link url = Raise e)
   <-> ~ HasSharePath (path p))
  /\ (forall e, convert_sharepoint_to_direct_link url = Raise e ->
                e = OneDriveLinkError (sharepoint_format_message ++ url))
  /\ Occurs (lit "https://domain/:u:/g/personal/") sharepoint_format_message.
Proof.
  intros Hp. unfold convert_sharepoint_to_direct_link. rewrite Hp.
  cbv beta iota delta [rbind].
  destruct (Re.search_share (path p)) as [[user token]|] eqn:E.
  - apply search_share_some in E. split; [split|split].
    + intros [e He]. discriminate.
    + intros Hno. contradiction.
    + intros e He. discriminate.
    + apply contains_iff. vm_compute. reflexivity.
  - apply search_share_none in E. split; [split|split].
    + intros _. exact E.
    + intros _. eauto.
    + intros e [= <-]. reflexivity.
    + apply contains_iff. vm_compute. reflexivity.
Qed.

(** C7, as amended.  An input that does not start with [http://] or
    [https://], letters compared without regard to case, is rejected as
    malformed: the program is the raise alone, so that nothing is
    rewritten and nothing is requested or printed. *)
Theorem malformed_input_rejected (url : str) (timeout : N) :
  ~ StartsIgnoringCase (lit "http://") url ->
  ~ StartsIgnoringCase (lit "https://") url ->
  parse_onedrive_direct_link url timeout = Ret (Raise malformed_input)
  /\ forall net,
      run net (parse_onedrive_direct_link url timeout)
      = (Raise malformed_input, []).
Proof.
  intros H1 H2.
  assert (E : Re.match_scheme url = false).
  { destruct (Re.match_scheme url) eqn:E; [|reflexivity].
    apply match_scheme_iff in E. tauto. }
  unfold parse_onedrive_direct_link. rewrite E. simpl. auto.
Qed.

(** X18.  A URL that starts with [http://] or [https://], that [urlparse]
    accepts and whose hostname, lowercased, ends with none of the
    recognised suffixes is rejected as an unsupported host, whatever the
    hostname contains elsewhere; nothing is rewritten and nothing is
    requested. *)
Theorem unsupported_host_rejected
    (url : str) (p : ParseResult) (timeout : N) :
  (exists r, url = lit "http://" ++ r) \/ (exists r, url = lit "https://" ++ r) ->
  urlparse url = OK p ->
  (forall h suffix,
      hostname p = Some h -> In suffix supported_suffixes ->
      ~ EndsWith suffix (PyStr.lower h)) ->
  parse_onedrive_direct_link url timeout = Ret (Raise unsupported_host)
  /\ forall net,
      run net (parse_onedrive_direct_link url timeout)
      = (Raise unsupported_host, []).
Proof.
  intros Hscheme Hp Hhost.
  assert (E : Re.match_scheme url = true).
  { apply match_scheme_iff.
    destruct Hscheme as [H|H]; [left|right];
      apply startswith_ignoring_case, startswith_iff; exact H. }
  assert (F : is_onedrive_supported_host url = OK false).
  { destruct (supported_host_total url Hp) as [[|] Hb]; [|exact Hb].
    apply (supported_host_iff url Hp) in Hb as (h & suffix & Hh & Hin & Hend).
    destruct (Hhost h suffix Hh Hin Hend). }
  unfold parse_onedrive_direct_link. rewrite E, F. simpl. auto.
Qed.

(** X17.  For a URL that passes the scheme test and the supported-host
    test: when its network location, lowercased, contains one of
    [sharepoint.com], [sharepoint.cn], [my.sharepoint], the result is the
    enterprise rewrite rule applied to the URL as given and no request is
    made; otherwise the requests are those of the redirect expander on the
    URL as given, and the result is the personal rewrite rule applied to
    the expanded URL (the failure of the expander when it fails). *)
Theorem classify_and_resolve (url : str) (p : ParseResult) (timeout : N) :
  Re.match_scheme url = true ->
  is_onedrive_supported_host url = OK true ->
  urlparse url = OK p ->
  ((exists m, In m sharepoint_markers /\ Occurs m (PyStr.lower (netloc p))) ->
   parse_onedrive_direct_link url timeout
   = Ret (convert_sharepoint_to_direct_link url)
   /\ forall net,
       run net (parse_onedrive_direct_link url timeout)
       = (convert_sharepoint_to_direct_link url, []))
  /\ ((forall m, In m sharepoint_markers ->
                 ~ Occurs m (PyStr.lower (netloc p))) ->
      forall net,
        fst (run net (parse_onedrive_direct_link url timeout))
        = rbind (fst (run net (normalize_url url timeout)))
                convert_personal_onedrive_to_direct_link
        /\ filter is_request
             (snd (run net (parse_onedrive_direct_link url timeout)))
           = snd (run net (normalize_url url timeout))).
Proof.
  intros Hscheme Hhost Hp.
  unfold parse_onedrive_direct_link. rewrite Hscheme, Hhost, Hp.
  cbv beta iota delta [negb].
  destruct (existsb (fun domain => PyStr.contains domain (PyStr.lower (netloc p)))
                    sharepoint_markers) eqn:E.
  - split.
    + intros _. split; [reflexivity | intros net; reflexivity].
    + intros Hno. apply markers_iff in E as (m & Hin & Hocc).
      destruct (Hno m Hin Hocc).
  - split.
    + intros Hyes. apply markers_iff in Hyes. congruence.
    + intros _ net. rewrite fst_run_bind, snd_run_bind.
      destruct (personal_continuation_run net
                  (fst (run net (normalize_url url timeout)))) as [R1 R2].
      split; [exact R1|].
      rewrite filter_app, R2, app_nil_r. apply normalize_url_requests.
Qed.

(** C4, as amended.  When the query of the expanded URL gives [redeem] a
    value that is not empty, the personal rewrite rule returns
    [https://dlink.host/1drv/<value>], the value being the percent-decoded
    value of the last such field; this holds whatever the query says about
    [resid] and [authkey]. *)
Theorem redeem_rule (url : str) (p : ParseResult) (raw : str) :
  urlparse url = OK p ->
  LastValue (query p) (lit "redeem") raw ->
  convert_personal_onedrive_to_direct_link url
  = OK (lit "https://dlink.host/1drv/" ++ unquote_plus raw).
Proof.
  intros Hp Hredeem. unfold convert_personal_onedrive_to_direct_link.
  rewrite Hp. cbv beta iota delta [rbind].
  rewrite (QueryFacts.last_value_get Hredeem). reflexivity.
Qed.

(** C5, as amended.  When the query of the expanded URL gives [redeem] no
    value and gives both [resid] and [authkey] a value that is not empty, the
    personal rewrite rule returns
    [https://onedrive.live.com/download?resid=<resid>&authkey=<authkey>],
    the two values being the percent-decoded values of the last such
    fields. *)
Theorem resid_authkey_rule (url : str) (p : ParseResult) (resid authkey : str) :
  urlparse url = OK p ->
  NoValue (query p) (lit "redeem") ->
  LastValue (query p) (lit "resid") resid ->
  LastValue (query p) (lit "authkey") authkey ->
  convert_personal_onedrive_to_direct_link url
  = OK (lit "https://onedrive.live.com/download?resid=" ++ unquote_plus resid
        ++ lit "&authkey=" ++ unquote_plus authkey).
Proof.
  intros Hp Hredeem Hresid Hauthkey.
  unfold convert_personal_onedrive_to_direct_link.
  rewrite Hp. cbv beta iota delta [rbind].
  rewrite (QueryFacts.no_value_get Hredeem).
  rewrite (QueryFacts.last_value_get Hresid).
  rewrite (QueryFacts.last_value_get Hauthkey). reflexivity.
Qed.

(** C10.  A parameter without value counts as absent throughout the personal
    rewrite rule: when the query gives [redeem] no value (the parameter is
    absent, or present with empty values only) and gives [resid] or
    [authkey] no value, the rule is the fallback; and every field of the
    query string the fallback writes has a value that is not empty, so that
    the parameters without value are dropped. *)
Theorem blank_values_are_ignored (url : str) (p : ParseResult) :
  urlparse url = OK p ->
  (NoValue (query p) (lit "redeem") ->
   NoValue (query p) (lit "resid") \/ NoValue (query p) (lit "authkey") ->
   convert_personal_onedrive_to_direct_link url
   = ensure_download_param_fallback url)
  /\ (forall out,
        ensure_download_param_fallback url = OK out ->
        exists new_query,
          out = urlunparse (scheme p) (netloc p) (path p) (params p)
                           new_query (fragment p)
          /\ forall f, In f (PyStr.split (ch "&") new_query) -> ValuedField f).
Proof.
  intros Hp. split.
  - intros Hredeem Hother. unfold convert_personal_onedrive_to_direct_link.
    rewrite Hp. cbv beta iota delta [rbind].
    rewrite (QueryFacts.no_value_get Hredeem).
    destruct Hother as [H|H]; rewrite (QueryFacts.no_value_get H).
    + reflexivity.
    + destruct (Dict.get _ (lit "resid")); reflexivity.
  - intros out. unfold ensure_download_param_fallback.
    rewrite Hp. cbv beta iota delta [rbind].
    set (d := Dict.of_pairs (parse_qsl (query p))).
    assert (Hd : Valued d).
    { apply FallbackFacts.fold_set_valued;
        [apply FallbackFacts.parse_qsl_valued | constructor]. }
    destruct (existsb (fun k => PyStr.eqb (PyStr.lower k) (lit "download"))
                      (Dict.keys d)) eqn:E; simpl negb; cbv iota.
    + destruct (urlencode d) as [nq|] eqn:Enc; [|discriminate].
      intros [= <-]. exists nq. split; [reflexivity|].
      apply (FallbackFacts.urlencode_fields Enc Hd).
      intros Hnil. rewrite Hnil in E. discriminate E.
    + destruct (urlencode (Dict.set d (lit "download") (lit "1"))) as [nq|] eqn:Enc;
        [|discriminate].
      intros [= <-]. exists nq. split; [reflexivity|].
      apply (FallbackFacts.urlencode_fields Enc).
      * apply FallbackFacts.set_valued; [exact Hd | discriminate].
      * apply FallbackFacts.set_nonempty.
Qed.

(** C3, as amended.  For an expanded URL
    [<scheme>://<netloc><path>?<query>#<fragment>] with scheme [http] or
    [https], a plain network location and path, no tab or line break, and a
    query of fields [k=v] separated by [&] whose keys are all different,
    whose values are not empty and whose keys and values are made of
    unreserved characters: the fallback returns the URL with the field
    [download=1] added at the end of the query when no key is [download]
    (case ignored), and the URL as it is when one is; scheme, network
    location, path, the fields and the fragment are kept as they are
    written.  The personal rewrite rule is this fallback when the query has
    no [redeem] and not both [resid] and [authkey]. *)
Theorem fallback_rule
    (sch netloc path fragment : str) (pairs : list (str * str)) :
  sch = lit "http" \/ sch = lit "https" ->
  PlainNetloc netloc -> PlainPath path -> PlainPairs pairs ->
  NoLineBreaks (link sch netloc path (query_string pairs) fragment) ->
  let url := link sch netloc path (query_string pairs) fragment in
  ((forall k, In k (map fst pairs) -> PyStr.lower k <> lit "download") ->
   ensure_download_param_fallback url
   = OK (link sch netloc path
              (query_string (pairs ++ [(lit "download", lit "1")])) fragment))
  /\ ((exists k, In k (map fst pairs) /\ PyStr.lower k = lit "download") ->
      ensure_download_param_fallback url = OK url)
  /\ (~ In (lit "redeem") (map fst pairs) ->
      ~ (In (lit "resid") (map fst pairs) /\ In (lit "authkey") (map fst pairs)) ->
      convert_personal_onedrive_to_direct_link url
      = ensure_download_param_fallback url).
Proof.
  intros Hsch Hnet Hpath Hpairs Hlb url.
  assert (Hq : ~ In (ch "#") (query_string pairs)).
  { intros Hin. apply (@PairFacts.query_string_chars pairs _ Hpairs) in Hin.
    destruct Hin as [Hin | [Hin | Hin]]; [discriminate Hin | discriminate Hin |].
    apply mem_iff in Hin. discriminate Hin. }
  assert (Hparse : urlparse url
                   = OK (mkParse sch netloc path [] (query_string pairs) fragment))
    by (apply UrlFacts.urlparse_link; assumption).
  assert (Hdict : Dict.of_pairs (parse_qsl (query_string pairs)) = pairs).
  { rewrite PairFacts.parse_qsl_pairs by exact Hpairs.
    apply PairFacts.of_pairs_plain, Hpairs. }
  assert (Hplain : forall k v, In (k, v) pairs -> Unreserved k /\ Unreserved v).
  { intros k v Hin. destruct (proj2 Hpairs k v Hin) as (Hk & Hv & _). auto. }
  split; [|split].
  - intros Hno. unfold ensure_download_param_fallback.
    rewrite Hparse. cbv beta iota delta [rbind].
    cbn [scheme Urllib.netloc Urllib.path params query Urllib.fragment].
    rewrite Hdict.
    assert (E : existsb (fun k => PyStr.eqb (PyStr.lower k) (lit "download"))
                        (Dict.keys pairs) = false).
    { apply existsb_false_iff. intros k Hk. apply eqb_neq, Hno, Hk. }
    rewrite E. simpl negb. cbv iota.
    rewrite PairFacts.set_fresh.
    2:{ intros Hin. apply (Hno _ Hin). reflexivity. }
    rewrite PairFacts.urlencode_plain.
    2:{ intros k v Hin. apply in_app_or in Hin as [Hin | [[= <- <-] | []]].
        - apply Hplain, Hin.
        - split; apply PairFacts.unreserved_literal; reflexivity. }
    cbv beta iota. f_equal.
    apply UrlFacts.urlunparse_link; [exact Hsch | apply Hnet | apply Hpath].
  - intros (k & Hk & Hlower). unfold ensure_download_param_fallback.
    rewrite Hparse. cbv beta iota delta [rbind].
    cbn [scheme Urllib.netloc Urllib.path params query Urllib.fragment].
    rewrite Hdict.
    assert (E : existsb (fun k => PyStr.eqb (PyStr.lower k) (lit "download"))
                        (Dict.keys pairs) = true).
    { apply existsb_exists. exists k. split; [exact Hk | apply eqb_eq, Hlower]. }
    rewrite E. simpl negb. cbv iota.
    rewrite PairFacts.urlencode_plain by exact Hplain.
    cbv beta iota. f_equal.
    apply UrlFacts.urlunparse_link; [exact Hsch | apply Hnet | apply Hpath].
  - intros Hredeem Hboth. unfold convert_personal_onedrive_to_direct_link.
    rewrite Hparse. cbv beta iota delta [rbind].
    cbn [query]. rewrite Hdict.
    rewrite (PairFacts.get_absent_key _ _ Hredeem).
    destruct (Dict.get pairs (lit "resid")) as [r|] eqn:Er; [|reflexivity].
    destruct (Dict.get pairs (lit "authkey")) as [a|] eqn:Ea; [|reflexivity].
    exfalso. apply Hboth. split; eapply PairFacts.get_some_in; eassumption.
Qed.

End Claims.

(** C9.  Every successful save, from any file the handler can have left,
    leaves a stored history without two entries of one url and with at most
    100 entries; after two successful saves of one url, the history holds
    exactly one entry of that url, the later one; a successful save of a url
    that a full history (100 entries) does not hold puts the new entry first
    and drops the last one, leaving 100; and saves of pairwise different
    urls, from no file, leave the entries most recent first, cut after the
    100th, so that the 101st save drops the entry saved first.  In every
    successful save, the urls keep their order when the url saved was held,
    and the new url comes first otherwise. *)
Theorem history_deduplicated_and_bounded :
  (forall calls now data w f',
      History.save_history now data w (History.after calls)
      = (History.Success, f') ->
      exists history, f' = History.Stored history /\ Deduplicated history)
  /\ (forall calls now1 d1 w1 f1 now2 d2 w2 f2 u,
        History.req_url d1 = Some u -> History.req_url d2 = Some u ->
        History.save_history now1 (Some d1) w1 (History.after calls)
        = (History.Success, f1) ->
        History.save_history now2 (Some d2) w2 f1 = (History.Success, f2) ->
        exists history,
          f2 = History.Stored history
          /\ entries_of u history = [History.new_item now2 d2 u])
  /\ (forall calls now d w f' u,
        History.req_url d = Some u ->
        length (History.load_history (History.after calls)) = 100 ->
        ~ In u (map History.url (History.load_history (History.after calls))) ->
        History.save_history now (Some d) w (History.after calls)
        = (History.Success, f') ->
        f' = History.Stored
               (History.new_item now d u
                :: removelast (History.load_history (History.after calls)))
        /\ length (History.load_history f') = 100)
  /\ (forall saves,
        Forall (fun e => History.req_url (snd e) <> None) saves ->
        NoDup (map (fun e => History.req_url (snd e)) saves) ->
        History.load_history (History.after (map written_save saves))
        = firstn 100 (rev (map entry_of saves)))
  /\ (forall calls now d w f' u,
        History.req_url d = Some u ->
        History.save_history now (Some d) w (History.after calls)
        = (History.Success, f') ->
        let before :=
          map History.url (History.load_history (History.after calls)) in
        let after := map History.url (History.load_history f') in
        (In u before -> after = before)
        /\ (~ In u before -> after = firstn 100 (u :: before))).
Proof.
  split; [|split; [|split; [|split]]].
  - intros calls now data w f' H.
    apply HistoryFacts.save_history_success in H as (d & u & _ & _ & ->).
    eexists. split; [reflexivity|].
    apply HistoryFacts.updated_history_spec, HistoryFacts.after_deduplicated.
  - intros calls now1 d1 w1 f1 now2 d2 w2 f2 u Hu1 Hu2 H1 H2.
    apply HistoryFacts.save_history_success in H1 as (d & u1 & [= <-] & E1 & ->).
    apply HistoryFacts.save_history_success in H2 as (d' & u2 & [= <-] & E2 & ->).
    assert (u1 = u) as -> by congruence. assert (u2 = u) as -> by congruence.
    eexists. split; [reflexivity|]. simpl History.load_history.
    apply (HistoryFacts.updated_history_spec (History.new_item now2 d2 u)).
    apply HistoryFacts.updated_history_spec, HistoryFacts.after_deduplicated.
  - intros calls now d w f' u Hu Hlen Hnew H.
    apply HistoryFacts.save_history_success in H as (d' & u' & [= <-] & E & ->).
    assert (u' = u) as -> by congruence.
    unfold History.updated_history.
    apply HistoryFacts.existing_index_none in Hnew.
    change (History.url (History.new_item now d u)) with u. rewrite Hnew.
    assert (T : (100 <? length (History.new_item now d u
                   :: History.load_history (History.after calls))) = true)
      by (apply Nat.ltb_lt; simpl; lia).
    rewrite T.
    change (firstn 100 (?x :: ?l)) with (x :: firstn 99 l).
    rewrite removelast_firstn_len, Hlen. split; [reflexivity|].
    cbn [History.load_history length]. rewrite length_firstn. lia.
  - intros saves. induction saves as [|e saves IH] using rev_ind; [reflexivity|].
    intros Hall Hnd.
    rewrite !map_app in *. simpl map in *. rewrite HistoryFacts.after_snoc.
    apply Forall_app in Hall as [Hall He]. inversion He as [|? ? Hu _]; subst.
    apply NoDup_remove_2 in Hnd as Hfresh. rewrite app_nil_r in Hfresh.
    apply NoDup_remove_1 in Hnd. rewrite app_nil_r in Hnd.
    specialize (IH Hall Hnd).
    destruct e as [now d]. simpl in Hu, Hfresh.
    destruct (History.req_url d) as [u|] eqn:Eu; [|congruence].
    change (written_save (now, d))
      with (History.mkCall now (Some d) History.Written).
    rewrite (HistoryFacts.step_written _ now d Eu), IH.
    assert (Ee : entry_of (now, d) = History.new_item now d u)
      by (unfold entry_of; simpl; rewrite Eu; reflexivity).
    rewrite Ee, rev_app_distr.
    change (rev [History.new_item now d u] ++ rev (map entry_of saves))
      with (History.new_item now d u :: rev (map entry_of saves)).
    unfold History.updated_history.
    change (History.url (History.new_item now d u)) with u.
    assert (Hnone : History.existing_index u
                      (firstn 100 (rev (map entry_of saves))) = None).
    { apply HistoryFacts.existing_index_none. intros Hin.
      apply in_map_iff in Hin as (it & Hit & Hin).
      assert (Hin' : In it (rev (map entry_of saves))).
      { rewrite <- (firstn_skipn 100 (rev (map entry_of saves))).
        apply in_or_app. left. exact Hin. }
      apply in_rev, in_map_iff in Hin' as (e' & <- & He').
      apply Hfresh. apply in_map_iff. exists e'. split; [|exact He'].
      rewrite Forall_forall in Hall. specialize (Hall e' He').
      unfold entry_of in Hit. simpl in Hit.
      destruct (History.req_url (snd e')); [simpl in Hit; congruence | congruence]. }
    rewrite Hnone. apply HistoryFacts.truncate_cons.
  - intros calls now d w f' u Hu H.
    apply HistoryFacts.save_history_success in H as (d' & u' & [= <-] & E & ->).
    assert (u' = u) as -> by congruence.
    exact (HistoryFacts.updated_history_order (History.new_item now d u)
             (HistoryFacts.after_deduplicated calls)).
Qed.


(** * The claims on concrete links *)

#[local] Existing Instance unvalidated_brackets.

(** Every character of [l] passes the test [f]. *)
Lemma all_chars (f : char -> bool) (l : str) :
  forallb f l = true -> forall c, In c l -> f c = true.
Proof. intros H c Hc. exact (proj1 (forallb_forall f l) H c Hc). Qed.

(** The enterprise link of the specification and its direct link. *)
Lemma enterprise_rewrite_rule_witness :
  convert_sharepoint_to_direct_link
    (lit "https://contoso-my.sharepoint.cn/:u:/g/personal/alice_contoso_cn/XY16c5xGfSxDn91zeEE3A2UBVpoPOzfNzUEDW6dQ")
  = OK (lit "https://contoso-my.sharepoint.cn/personal/alice_contoso_cn/_layouts/52/download.aspx?share=XY16c5xGfSxDn91zeEE3A2UBVpoPOzfNzUEDW6dQ").
Proof.
  pose (p := Urllib.mkParse (lit "https") (lit "contoso-my.sharepoint.cn")
               (lit "/:u:/g/personal/alice_contoso_cn/XY16c5xGfSxDn91zeEE3A2UBVpoPOzfNzUEDW6dQ")
               [] [] []).
  assert (Hmatch : SharePathAt (Urllib.path p) [] (lit "alice_contoso_cn")
                     (lit "XY16c5xGfSxDn91zeEE3A2UBVpoPOzfNzUEDW6dQ") []).
  { split; [reflexivity|]. split; [discriminate|]. split.
    - intros H. apply (all_chars Re.not_slash) in H; [|vm_compute; reflexivity].
      vm_compute in H. discriminate H.
    - split; [discriminate|]. intros c Hc. apply token_char_iff.
      revert c Hc. apply all_chars. vm_compute. reflexivity. }
  destruct (@enterprise_rewrite_rule _
              (lit "https://contoso-my.sharepoint.cn/:u:/g/personal/alice_contoso_cn/XY16c5xGfSxDn91zeEE3A2UBVpoPOzfNzUEDW6dQ")
              p)
    as (pre & user & token & rest & _ & _ & _ & Hout & Hsame).
  - vm_compute. reflexivity.
  - exists [], (lit "alice_contoso_cn"),
      (lit "XY16c5xGfSxDn91zeEE3A2UBVpoPOzfNzUEDW6dQ"), []. exact Hmatch.
  - destruct (Hsame _ _ _ _ Hmatch I) as [<- <-].
    + intros pre' user' token' rest' _. simpl. lia.
    + exact Hout.
Defined.

(** An enterprise link without the share path. *)
Lemma enterprise_rule_failure_witness :
  let url := lit "https://contoso.sharepoint.com/sites/team/report.docx" in
  let p := Urllib.mkParse (lit "https") (lit "contoso.sharepoint.com")
             (lit "/sites/team/report.docx") [] [] [] in
  ((exists e, convert_sharepoint_to_direct_link url = Raise e)
   <-> ~ HasSharePath (Urllib.path p))
  /\ (forall e, convert_sharepoint_to_direct_link url = Raise e ->
                e = OneDriveLinkError (sharepoint_format_message ++ url))
  /\ Occurs (lit "https://domain/:u:/g/personal/") sharepoint_format_message.
Proof.
  intros url p. apply (@enterprise_rule_failure _ url p).
  vm_compute. reflexivity.
Defined.

(** C7, as stated, fails on a link whose scheme is written in capitals: it
    does not start with [http://] or [https://], and it is converted. *)
Lemma uppercase_scheme_is_accepted :
  let url := lit "HTTPS://contoso.sharepoint.com/:u:/g/personal/a/b" in
  PyStr.startswith (lit "http://") url = false
  /\ PyStr.startswith (lit "https://") url = false
  /\ parse_onedrive_direct_link url 15
     = Ret (OK (lit "https://contoso.sharepoint.com/personal/a/_layouts/52/download.aspx?share=b")).
Proof. vm_compute. repeat split. Qed.

(** An input without a scheme. *)
Lemma malformed_input_rejected_witness :
  let url := lit "contoso.sharepoint.com/:u:/g/personal/a/b" in
  parse_onedrive_direct_link url 15 = Ret (Raise malformed_input)
  /\ forall net,
      run net (parse_onedrive_direct_link url 15) = (Raise malformed_input, []).
Proof.
  intros url. apply (@malformed_input_rejected _ url 15%N).
  - intros H. apply starts_ignoring_case_iff in H. vm_compute in H. discriminate H.
  - intros H. apply starts_ignoring_case_iff in H. vm_compute in H. discriminate H.
Defined.

(** The host of the specification that only contains a recognised name. *)
Lemma unsupported_host_rejected_witness :
  let url := lit "https://evil-sharepoint.com.attacker.net/:u:/g/personal/a/b" in
  parse_onedrive_direct_link url 15 = Ret (Raise unsupported_host)
  /\ forall net,
      run net (parse_onedrive_direct_link url 15) = (Raise unsupported_host, []).
Proof.
  intros url.
  apply (@unsupported_host_rejected _ url
           (Urllib.mkParse (lit "https") (lit "evil-sharepoint.com.attacker.net")
              (lit "/:u:/g/personal/a/b") [] [] []) 15%N).
  - right. exists (lit "evil-sharepoint.com.attacker.net/:u:/g/personal/a/b").
    reflexivity.
  - vm_compute. reflexivity.
  - intros h suffix Hh Hin Hend. vm_compute in Hh. injection Hh as <-.
    apply endswith_iff in Hend.
    simpl in Hin.
    repeat (destruct Hin as [<- | Hin]; [vm_compute in Hend; discriminate Hend|]).
    exact Hin.
Defined.

(** An enterprise link and a personal link, both past the two tests. *)
Lemma classify_and_resolve_witness :
  let url := lit "https://contoso-my.sharepoint.cn/:u:/g/personal/alice_contoso_cn/XY16" in
  let url' := lit "https://1drv.ms/u/s!AkijuZ" in
  (forall net,
      run net (parse_onedrive_direct_link url 15)
      = (convert_sharepoint_to_direct_link url, []))
  /\ (forall net,
        fst (run net (parse_onedrive_direct_link url' 15))
        = rbind (fst (run net (normalize_url url' 15)))
                convert_personal_onedrive_to_direct_link).
Proof.
  intros url url'. split.
  - refine (proj2 (proj1 (@classify_and_resolve _ url
             (Urllib.mkParse (lit "https") (lit "contoso-my.sharepoint.cn")
                (lit "/:u:/g/personal/alice_contoso_cn/XY16") [] [] []) 15%N
             _ _ _) _)).
    + vm_compute. reflexivity.
    + vm_compute. reflexivity.
    + vm_compute. reflexivity.
    + exists (lit "sharepoint.cn"). split; [simpl; auto|].
      apply contains_iff. vm_compute. reflexivity.
  - intros net.
    refine (proj1 (proj2 (@classify_and_resolve _ url'
             (Urllib.mkParse (lit "https") (lit "1drv.ms")
                (lit "/u/s!AkijuZ") [] [] []) 15%N
             _ _ _) _ net)).
    + vm_compute. reflexivity.
    + vm_compute. reflexivity.
    + vm_compute. reflexivity.
    + intros m Hin Hocc. apply contains_iff in Hocc. simpl in Hin.
      repeat (destruct Hin as [<- | Hin]; [vm_compute in Hocc; discriminate Hocc|]).
      exact Hin.
Defined.

(** Three saves of different urls, then the first url saved again. *)
Lemma history_deduplicated_and_bounded_witness :
  let now := History.mkClock 1700000000000 (lit "2023-11-14 22:13:20") in
  let save u := (now, History.mkRequest None (Some u) None None None) in
  let saves := [save (lit "https://a"); save (lit "https://b");
                save (lit "https://c")] in
  History.load_history (History.after (map written_save saves))
  = [entry_of (save (lit "https://c")); entry_of (save (lit "https://b"));
     entry_of (save (lit "https://a"))]
  /\ exists history,
      snd (History.save_history now (Some (snd (save (lit "https://a"))))
             History.Written (History.after (map written_save saves)))
      = History.Stored history
      /\ Deduplicated history.
Proof.
  intros now save saves. split.
  - refine (proj1 (proj2 (proj2 (proj2 history_deduplicated_and_bounded)))
              saves _ _).
    + repeat constructor; discriminate.
    + repeat (constructor; [vm_compute; intuition discriminate|]). constructor.
  - refine (proj1 history_deduplicated_and_bounded (map written_save saves) now
              (Some (snd (save (lit "https://a")))) History.Written _ _).
    reflexivity.
Defined.

Lemma not_in_text (c : char) (s : str) : PyStr.mem c s = false -> ~ In c s.
Proof. apply mem_false_iff. Qed.

(** C4, as stated, fails on a [redeem] without value: the query contains the
    parameter, and the link is the fallback one. *)
Lemma redeem_without_value_falls_back :
  let url := lit "https://onedrive.live.com/redir?redeem=" in
  Urllib.urlparse url
  = OK (Urllib.mkParse (lit "https") (lit "onedrive.live.com") (lit "/redir")
          [] (lit "redeem=") [])
  /\ convert_personal_onedrive_to_direct_link url
     = OK (lit "https://onedrive.live.com/redir?download=1")
  /\ convert_personal_onedrive_to_direct_link url
     <> OK (lit "https://dlink.host/1drv/").
Proof. vm_compute. repeat split. discriminate. Qed.

(** The personal link of the specification with a [redeem] value, here after
    [resid] and [authkey]. *)
Lemma redeem_rule_witness :
  convert_personal_onedrive_to_direct_link
    (lit "https://onedrive.live.com/redir?resid=111!222&authkey=xyz&redeem=ABC123")
  = OK (lit "https://dlink.host/1drv/ABC123").
Proof.
  apply (@redeem_rule _
           (lit "https://onedrive.live.com/redir?resid=111!222&authkey=xyz&redeem=ABC123")
           (Urllib.mkParse (lit "https") (lit "onedrive.live.com") (lit "/redir")
              [] (lit "resid=111!222&authkey=xyz&redeem=ABC123") [])
           (lit "ABC123")).
  - vm_compute. reflexivity.
  - exists [lit "resid=111!222"; lit "authkey=xyz"], (lit "redeem=ABC123"), [].
    split; [split|split].
    + reflexivity.
    + repeat constructor; apply not_in_text; vm_compute; reflexivity.
    + exists (lit "redeem"). split; [reflexivity|]. split.
      * apply not_in_text. vm_compute. reflexivity.
      * split; [vm_compute; reflexivity | discriminate].
    + intros g raw' [].
Defined.

(** C5, as stated, fails on a [resid] without value: both parameters are in
    the query, and the link is the fallback one. *)
Lemma resid_without_value_falls_back :
  let url := lit "https://onedrive.live.com/redir?resid=&authkey=xyz" in
  Urllib.urlparse url
  = OK (Urllib.mkParse (lit "https") (lit "onedrive.live.com") (lit "/redir")
          [] (lit "resid=&authkey=xyz") [])
  /\ convert_personal_onedrive_to_direct_link url
     = OK (lit "https://onedrive.live.com/redir?authkey=xyz&download=1")
  /\ convert_personal_onedrive_to_direct_link url
     <> OK (lit "https://onedrive.live.com/download?resid=&authkey=xyz").
Proof. vm_compute. repeat split. discriminate. Qed.

(** A field [k=raw] that gives another name than [name] a value gives [name]
    none. *)
Lemma other_field (name k raw g : str) :
  g = k ++ ch "=" :: raw -> ~ In (ch "=") k -> Urllib.unquote_plus k <> name ->
  forall raw', ~ FieldOf name raw' g.
Proof.
  intros -> Hk Hname raw' (k' & E & Hk' & Hn & _).
  assert (P : PyStr.partition (ch "=") (k ++ ch "=" :: raw) = (k, true, raw))
    by (apply partition_app; exact Hk).
  rewrite E, partition_app in P by exact Hk'. congruence.
Qed.

(** The personal link of the specification with [resid] and [authkey]. *)
Lemma resid_authkey_rule_witness :
  convert_personal_onedrive_to_direct_link
    (lit "https://onedrive.live.com/redir?resid=111!222&authkey=xyz")
  = OK (lit "https://onedrive.live.com/download?resid=111!222&authkey=xyz").
Proof.
  assert (Hfields : QueryFields (lit "resid=111!222&authkey=xyz")
                      [lit "resid=111!222"; lit "authkey=xyz"]).
  { split; [reflexivity|].
    repeat constructor; apply not_in_text; vm_compute; reflexivity. }
  assert (Hresid : FieldOf (lit "resid") (lit "111!222") (lit "resid=111!222")).
  { exists (lit "resid"). split; [reflexivity|]. split.
    - apply not_in_text. vm_compute. reflexivity.
    - split; [vm_compute; reflexivity | discriminate]. }
  assert (Hauthkey : FieldOf (lit "authkey") (lit "xyz") (lit "authkey=xyz")).
  { exists (lit "authkey"). split; [reflexivity|]. split.
    - apply not_in_text. vm_compute. reflexivity.
    - split; [vm_compute; reflexivity | discriminate]. }
  apply (@resid_authkey_rule _
           (lit "https://onedrive.live.com/redir?resid=111!222&authkey=xyz")
           (Urllib.mkParse (lit "https") (lit "onedrive.live.com") (lit "/redir")
              [] (lit "resid=111!222&authkey=xyz") [])
           (lit "111!222") (lit "xyz")).
  - vm_compute. reflexivity.
  - intros fs g raw Hfs Hg.
    assert (fs = [lit "resid=111!222"; lit "authkey=xyz"]) as ->.
    { apply (query_fields_unique Hfs Hfields); [|discriminate].
      intros ->. destruct Hfs as [E _]. discriminate E. }
    destruct Hg as [<- | [<- | []]].
    + apply (@other_field _ (lit "resid") (lit "111!222") _ eq_refl).
      * apply not_in_text. vm_compute. reflexivity.
      * vm_compute. discriminate.
    + apply (@other_field _ (lit "authkey") (lit "xyz") _ eq_refl).
      * apply not_in_text. vm_compute. reflexivity.
      * vm_compute. discriminate.
  - exists [], (lit "resid=111!222"), [lit "authkey=xyz"].
    split; [exact Hfields|]. split; [exact Hresid|].
    intros g raw' [<- | []].
    apply (@other_field _ (lit "authkey") (lit "xyz") _ eq_refl).
    + apply not_in_text. vm_compute. reflexivity.
    + vm_compute. discriminate.
  - exists [lit "resid=111!222"], (lit "authkey=xyz"), [].
    split; [exact Hfields|]. split; [exact Hauthkey|]. intros g raw' [].
Defined.

(** A field [k=] gives no name a value. *)
Lemma blank_field (name k g : str) :
  g = k ++ [ch "="] -> ~ In (ch "=") k -> forall raw', ~ FieldOf name raw' g.
Proof.
  intros -> Hk raw' (k' & E & Hk' & _ & Hraw).
  assert (P : PyStr.partition (ch "=") (k ++ [ch "="]) = (k, true, []))
    by (apply partition_app; exact Hk).
  rewrite E, partition_app in P by exact Hk'. congruence.
Qed.

(** An expanded link whose [redeem] and [authkey] have no value. *)
Lemma blank_values_are_ignored_witness :
  let url := lit "https://onedrive.live.com/redir?redeem=&resid=5&authkey=" in
  convert_personal_onedrive_to_direct_link url
  = ensure_download_param_fallback url
  /\ ensure_download_param_fallback url
     = OK (lit "https://onedrive.live.com/redir?resid=5&download=1").
Proof.
  intros url. split; [|vm_compute; reflexivity].
  pose (p := Urllib.mkParse (lit "https") (lit "onedrive.live.com") (lit "/redir")
               [] (lit "redeem=&resid=5&authkey=") []).
  assert (Hfields : QueryFields (Urllib.query p)
                      [lit "redeem="; lit "resid=5"; lit "authkey="]).
  { split; [reflexivity|].
    repeat constructor; apply not_in_text; vm_compute; reflexivity. }
  assert (Hno : forall name,
             name = lit "redeem" \/ name = lit "authkey" ->
             NoValue (Urllib.query p) name).
  { intros name Hname fs g raw Hfs Hg.
    assert (fs = [lit "redeem="; lit "resid=5"; lit "authkey="]) as ->.
    { apply (query_fields_unique Hfs Hfields); [|discriminate].
      intros ->. destruct Hfs as [E _]. discriminate E. }
    destruct Hg as [<- | [<- | [<- | []]]].
    - apply (@blank_field name (lit "redeem") _ eq_refl).
      apply not_in_text. vm_compute. reflexivity.
    - apply (@other_field name (lit "resid") (lit "5") _ eq_refl).
      + apply not_in_text. vm_compute. reflexivity.
      + destruct Hname as [-> | ->]; vm_compute; discriminate.
    - apply (@blank_field name (lit "authkey") _ eq_refl).
      apply not_in_text. vm_compute. reflexivity. }
  refine (proj1 (@blank_values_are_ignored _ url p _) _ _).
  - vm_compute. reflexivity.
  - apply Hno. left. reflexivity.
  - right. apply Hno. right. reflexivity.
Defined.

(** C3, as stated, fails: the fallback writes the query again from the
    parsed parameters.  A parameter without value is dropped, a character
    that is not unreserved is percent-encoded, and of two values of one key
    the last is kept; in none of the three cases is the link the input with
    [download=1] added. *)
Lemma fallback_rewrites_the_query :
  (ensure_download_param_fallback
     (lit "https://onedrive.live.com/view?flag=&id=7#top")
   = OK (lit "https://onedrive.live.com/view?id=7&download=1#top")
   /\ ensure_download_param_fallback
        (lit "https://onedrive.live.com/view?flag=&id=7#top")
      <> OK (lit "https://onedrive.live.com/view?flag=&id=7&download=1#top"))
  /\ ensure_download_param_fallback
       (lit "https://onedrive.live.com/view?resid=111!222#top")
     = OK (lit "https://onedrive.live.com/view?resid=111%21222&download=1#top")
  /\ ensure_download_param_fallback
       (lit "https://onedrive.live.com/view?a=1&a=2")
     = OK (lit "https://onedrive.live.com/view?a=2&download=1").
Proof. vm_compute. repeat split. discriminate. Qed.

(** Discharges a property of every character of a literal. *)
Ltac each_char :=
  let c := fresh "c" in
  let Hc := fresh "Hc" in
  intros c Hc; simpl in Hc;
  repeat (destruct Hc as [<- | Hc];
          [vm_compute; repeat split;
           first [reflexivity | discriminate | intro; discriminate] |]);
  contradiction.

(** A plain expanded link, without and with a [download] parameter. *)
Lemma fallback_rule_witness :
  ensure_download_param_fallback
    (lit "https://onedrive.live.com/view?id=7&x=a_b#top")
  = OK (lit "https://onedrive.live.com/view?id=7&x=a_b&download=1#top")
  /\ ensure_download_param_fallback
       (lit "https://onedrive.live.com/view?id=7&Download=0#top")
     = OK (lit "https://onedrive.live.com/view?id=7&Download=0#top").
Proof.
  assert (Hnet : PlainNetloc (lit "onedrive.live.com"))
    by (split; [discriminate | each_char]).
  assert (Hpath : PlainPath (lit "/view")).
  { split; [right; exists (lit "view"); reflexivity | each_char]. }
  assert (Hpairs : forall k v k' v',
             k <> k' ->
             forallb (fun c => PyStr.mem c Urllib._ALWAYS_SAFE) (k ++ v ++ k' ++ v')
             = true ->
             v <> [] -> v' <> [] -> PlainPairs [(k, v); (k', v')]).
  { intros k v k' v' Hne Hall Hv Hv'. rewrite !forallb_app in Hall.
    apply andb_true_iff in Hall as [Hk Hall].
    apply andb_true_iff in Hall as [Hv1 Hall].
    apply andb_true_iff in Hall as [Hk' Hv1'].
    split.
    - simpl. repeat constructor; simpl; intuition congruence.
    - intros a b [[= <- <-] | [[= <- <-] | []]];
        repeat split; try assumption; apply PairFacts.unreserved_literal; assumption. }
  split.
  - refine (proj1 (@fallback_rule _ (lit "https") (lit "onedrive.live.com")
              (lit "/view") (lit "top") [(lit "id", lit "7"); (lit "x", lit "a_b")]
              _ Hnet Hpath _ _) _).
    + right. reflexivity.
    + apply Hpairs; [discriminate | reflexivity | discriminate | discriminate].
    + each_char.
    + intros k [<- | [<- | []]]; vm_compute; discriminate.
  - refine (proj1 (proj2 (@fallback_rule _ (lit "https") (lit "onedrive.live.com")
              (lit "/view") (lit "top")
              [(lit "id", lit "7"); (lit "Download", lit "0")]
              _ Hnet Hpath _ _)) _).
    + right. reflexivity.
    + apply Hpairs; [discriminate | reflexivity | discriminate | discriminate].
    + each_char.
    + exists (lit "Download"). split; [right; left; reflexivity | reflexivity].
Defined.

(** * Where the code departs from the claims *)

Section Departures.
Context {BH : BracketedHosts}.
Import Urllib.

(** C2.  The three names are looked for in the network location, not in
    the host.  The link below passes the scheme test and the supported-host
    test, its hostname is [onedrive.live.com] and holds none of the three
    names, yet the program is the enterprise rule on the link as given: no
    request is made and the link is refused for its path, where the
    personal rule would have made a direct link of it. *)
Theorem userinfo_selects_the_enterprise_rule :
  let url :=
    lit "https://sharepoint.com@onedrive.live.com/x?resid=1&authkey=2" in
  let p := mkParse (lit "https") (lit "sharepoint.com@onedrive.live.com")
             (lit "/x") [] (lit "resid=1&authkey=2") [] in
  Re.match_scheme url = true
  /\ is_onedrive_supported_host url = OK true
  /\ urlparse url = OK p
  /\ hostname p = Some (lit "onedrive.live.com")
  /\ (forall m, In m sharepoint_markers ->
                ~ Occurs m (PyStr.lower (lit "onedrive.live.com")))
  /\ (forall net timeout,
        run net (parse_onedrive_direct_link url timeout)
        = (Raise (OneDriveLinkError (sharepoint_format_message ++ url)), []))
  /\ convert_personal_onedrive_to_direct_link url
     = OK (lit "https://onedrive.live.com/download?resid=1&authkey=2").
Proof.
  intros url p.
  split; [vm_compute; reflexivity|].
  split; [vm_compute; reflexivity|].
  split; [vm_compute; reflexivity|].
  split; [vm_compute; reflexivity|].
  split.
  { intros m Hin Hocc. apply contains_iff in Hocc. simpl in Hin.
    destruct Hin as [<- | [<- | [<- | []]]]; vm_compute in Hocc;
      discriminate Hocc. }
  split; [|vm_compute; reflexivity].
  intros net timeout.
  assert (E : parse_onedrive_direct_link url timeout
              = Ret (Raise (OneDriveLinkError
                              (sharepoint_format_message ++ url))))
    by (vm_compute; reflexivity).
  rewrite E. reflexivity.
Qed.

(** C6.  The link below starts with [https://] and the host it names,
    [evil.net], ends with none of the recognised suffixes; it is not
    rejected as an unsupported host: [urlparse] raises [ValueError] inside
    the supported-host test, and the exception leaves the classifier and
    the handler. *)
Theorem unmatched_bracket_is_not_unsupported :
  let url := lit "https://[evil.net/x" in
  PyStr.startswith (lit "https://") url = true
  /\ _hostinfo_hostname (lit "[evil.net") = lit "evil.net"
  /\ (forall suffix,
        In suffix supported_suffixes ->
        PyStr.endswith suffix (PyStr.lower (lit "evil.net")) = false)
  /\ urlparse url = Raise (ValueError (lit "Invalid IPv6 URL"))
  /\ ValueError (lit "Invalid IPv6 URL") <> unsupported_host
  /\ (forall net timeout,
        run net (parse_onedrive_direct_link url timeout)
        = (Raise (ValueError (lit "Invalid IPv6 URL")), []))
  /\ (forall net,
        run net (index_post (Some url))
        = (Raise (ValueError (lit "Invalid IPv6 URL")), [])).
Proof.
  intros url.
  split; [vm_compute; reflexivity|].
  split; [vm_compute; reflexivity|].
  split.
  { intros suffix Hin. simpl in Hin.
    repeat (destruct Hin as [<- | Hin]; [vm_compute; reflexivity|]).
    contradiction. }
  split; [vm_compute; reflexivity|].
  split; [discriminate|].
  split.
  - intros net timeout.
    assert (E : parse_onedrive_direct_link url timeout
                = Ret (Raise (ValueError (lit "Invalid IPv6 URL"))))
      by (vm_compute; reflexivity).
    rewrite E. reflexivity.
  - intros net.
    assert (E : index_post (Some url)
                = Ret (Raise (ValueError (lit "Invalid IPv6 URL"))))
      by (vm_compute; reflexivity).
    rewrite E. reflexivity.
Qed.

End Departures.

(** * Further properties of the program *)

(** ** The redirect expander and the requests of the classifier *)

Section Requests.
Context {BH : BracketedHosts}.
Import Urllib.

(** X1.  The expander sends a HEAD of the URL and then, exactly when the
    answer has status 405 or 403 or is a redirect, a GET of the same URL
    with the same timeout, and nothing else.  A [RequestException] of the
    last request becomes a [OneDriveLinkError] that wraps its text; an
    exception of another class goes through as it is, and the expander
    fails in no other way.  What it returns is the URL of the last
    answer. *)
Theorem normalize_url_protocol (net : network) (url : str) (timeout : N) :
  let r := fst (run net (normalize_url url timeout)) in
  let evs := snd (run net (normalize_url url timeout)) in
  let last :=
    match evs with
    | [_; _] => net_get net url timeout
    | _ => net_head net url timeout
    end in
  (evs = [EvHead url timeout]
   \/ evs = [EvHead url timeout; EvGet url timeout])
  /\ (evs = [EvHead url timeout; EvGet url timeout] <->
      exists resp,
        net_head net url timeout = Responded resp
        /\ (status_code resp = 405%N \/ status_code resp = 403%N
            \/ is_redirect resp = true))
  /\ match last with
     | Responded resp => r = OK (resp_url resp)
     | RequestException description =>
         r = Raise (OneDriveLinkError
                      (Utf8.text "无法展开链接: " ++ description))
     | OtherException description => r = Raise (OtherError description)
     end.
Proof.
  unfold normalize_url. cbn [run].
  destruct (net_head net url timeout) as [resp|exc|exc] eqn:Eh.
  - destruct ((status_code resp =? 405)%N || (status_code resp =? 403)%N
              || is_redirect resp) eqn:Egate.
    + assert (Hgate : status_code resp = 405%N \/ status_code resp = 403%N
                      \/ is_redirect resp = true).
      { apply orb_true_iff in Egate as [Egate | Egate]; [|auto].
        apply orb_true_iff in Egate as [Egate | Egate];
          apply N.eqb_eq in Egate; auto. }
      cbn [run].
      destruct (net_get net url timeout) as [resp'|exc'|exc'] eqn:Eg;
        cbn [run fst snd]; rewrite ?Eg;
        (split; [right; reflexivity|]);
        (split; [split; [intros _; exists resp; split; [reflexivity | exact Hgate]
                        | reflexivity]|]);
        reflexivity.
    + cbn [run fst snd]. split; [left; reflexivity|]. split.
      * split; [discriminate|]. intros (resp' & Hr & Hgate).
        assert (resp' = resp) as -> by congruence.
        apply orb_false_iff in Egate as [Egate Er].
        apply orb_false_iff in Egate as [E5 E3].
        apply N.eqb_neq in E5, E3. destruct Hgate as [H | [H | H]]; congruence.
      * reflexivity.
  - cbn [run fst snd]. split; [left; reflexivity|]. split.
    + split; [discriminate|]. intros (resp & H & _). discriminate H.
    + reflexivity.
  - cbn [run fst snd]. split; [left; reflexivity|]. split.
    + split; [discriminate|]. intros (resp & H & _). discriminate H.
    + reflexivity.
Qed.

Lemma normalize_url_events (net : network) (url : str) (timeout : N) :
  snd (run net (normalize_url url timeout)) = [EvHead url timeout]
  \/ snd (run net (normalize_url url timeout))
     = [EvHead url timeout; EvGet url timeout].
Proof.
  unfold normalize_url. simpl.
  destruct (net_head net url timeout) as [resp|exc|exc]; simpl; [|auto|auto].
  destruct ((status_code resp =? 405)%N || (status_code resp =? 403)%N
            || is_redirect resp); simpl; [|auto].
  destruct (net_get net url timeout); simpl; auto.
Qed.

(** The requests of the classifier: none, or those of the expander on the
    input, made only past the scheme test, the supported-host test and the
    test for the SharePoint names. *)
Lemma parse_requests (net : network) (url : str) (timeout : N) :
  filter is_request (snd (run net (parse_onedrive_direct_link url timeout))) = []
  \/ (Re.match_scheme url = true
      /\ is_onedrive_supported_host url = OK true
      /\ (exists p, urlparse url = OK p
                    /\ forall m, In m sharepoint_markers ->
                                 ~ Occurs m (PyStr.lower (netloc p)))
      /\ filter is_request
           (snd (run net (parse_onedrive_direct_link url timeout)))
         = snd (run net (normalize_url url timeout))).
Proof.
  unfold parse_onedrive_direct_link.
  destruct (Re.match_scheme url); [|left; reflexivity].
  cbv beta iota delta [negb].
  destruct (is_onedrive_supported_host url) as [[|]|e]; try (left; reflexivity).
  destruct (urlparse url) as [p|e]; [|left; reflexivity].
  destruct (existsb (fun domain => PyStr.contains domain (PyStr.lower (netloc p)))
                    sharepoint_markers) eqn:E; [left; reflexivity|].
  right. split; [reflexivity|]. split; [reflexivity|]. split.
  - exists p. split; [reflexivity|]. intros m Hm Hocc.
    assert (T : existsb (fun domain => PyStr.contains domain (PyStr.lower (netloc p)))
                        sharepoint_markers = true)
      by (apply markers_iff; eauto).
    congruence.
  - rewrite snd_run_bind, filter_app.
    rewrite (proj2 (personal_continuation_run net _)), app_nil_r.
    apply normalize_url_requests.
Qed.

(** X2.  Whatever the input and the network, the classifier makes no
    request, or one HEAD of the input URL, or that HEAD followed by one GET
    of the input URL, always with the timeout it was given; it makes none
    when the scheme test or the supported-host test fails. *)
Theorem classifier_requests_are_bounded
    (net : network) (url : str) (timeout : N) :
  let requests :=
    filter is_request (snd (run net (parse_onedrive_direct_link url timeout))) in
  (requests = []
   \/ requests = [EvHead url timeout]
   \/ requests = [EvHead url timeout; EvGet url timeout])
  /\ (Re.match_scheme url = false \/ is_onedrive_supported_host url <> OK true ->
      requests = []).
Proof.
  cbv zeta. destruct (parse_requests net url timeout) as [H | (Hs & Hh & _ & H)].
  - rewrite H. auto.
  - rewrite H. split.
    + destruct (normalize_url_events net url timeout) as [E | E]; rewrite E; auto.
    + intros [Hn | Hn]; congruence.
Qed.

End Requests.

(** ** The hostname and the network location *)

Module HostFacts.
Import Urllib.

Lemma lower_app (a b : str) :
  PyStr.lower (a ++ b) = PyStr.lower a ++ PyStr.lower b.
Proof. unfold PyStr.lower. apply flat_map_app. Qed.

Lemma lower_char_stable (c x : char) :
  In x (PyStr.lower_char c) -> PyStr.lower_char x = [x].
Proof.
  unfold PyStr.lower_char at 1.
  destruct ((65 <=? c) && (c <=? 90))%N eqn:E1.
  - apply andb_true_iff in E1 as [L1 L2]. apply N.leb_le in L1, L2.
    intros [<- | []]. unfold PyStr.lower_char.
    assert (R1 : ((65 <=? c + 32) && (c + 32 <=? 90))%N = false)
      by (apply andb_false_iff; right; apply N.leb_gt; lia).
    assert (R2 : (c + 32 =? 304)%N = false) by (apply N.eqb_neq; lia).
    assert (R3 : (c + 32 =? 8490)%N = false) by (apply N.eqb_neq; lia).
    rewrite R1, R2, R3. reflexivity.
  - destruct (c =? 304)%N eqn:E2.
    + intros [<- | [<- | []]]; reflexivity.
    + destruct (c =? 8490)%N eqn:E3.
      * intros [<- | []]. reflexivity.
      * intros [<- | []]. unfold PyStr.lower_char. rewrite E1, E2, E3.
        reflexivity.
Qed.

Lemma lower_stable (s : str) :
  (forall x, In x s -> PyStr.lower_char x = [x]) -> PyStr.lower s = s.
Proof.
  unfold PyStr.lower. induction s as [|c s IH]; intros H; [reflexivity|].
  simpl. rewrite (H c) by (left; reflexivity).
  rewrite IH by (intros x Hx; apply H; right; exact Hx). reflexivity.
Qed.

(** Lowercasing twice is lowercasing once. *)
Lemma lower_lower (s : str) : PyStr.lower (PyStr.lower s) = PyStr.lower s.
Proof.
  apply lower_stable. intros x Hx. unfold PyStr.lower in Hx.
  apply in_flat_map in Hx as (c & _ & Hx). exact (lower_char_stable c x Hx).
Qed.

Lemma partition_decompose (c : char) (s a b : str) (found : bool) :
  PyStr.partition c s = (a, found, b) ->
  s = a ++ (if found then [c] else []) ++ b.
Proof.
  unfold PyStr.partition.
  destruct (PyStr.break c s) as [x [|y r]] eqn:E.
  - intros [= <- <- <-]. rewrite app_nil_r. reflexivity.
  - intros [= <- <- <-].
    apply break_sound in E as (-> & _ & [Hr | [r' Hr]]); [discriminate|].
    injection Hr as -> ->. reflexivity.
Qed.

Lemma rpartition_decompose (c : char) (s a b : str) (found : bool) :
  PyStr.rpartition c s = (a, found, b) ->
  s = a ++ (if found then [c] else []) ++ b.
Proof.
  unfold PyStr.rpartition.
  destruct (PyStr.break c (rev s)) as [x [|y r]] eqn:E.
  - intros [= <- <- <-]. reflexivity.
  - intros [= <- <- <-].
    apply break_sound in E as (E & _ & [Hr | [r' Hr]]); [discriminate|].
    injection Hr as -> ->.
    apply (f_equal (@rev char)) in E. rewrite rev_involutive in E.
    rewrite E, rev_app_distr. simpl. rewrite <- app_assoc. reflexivity.
Qed.

(** The host that [_hostinfo] cuts out stands in the network location. *)
Lemma hostinfo_in_netloc (netloc : str) :
  exists a b, netloc = a ++ _hostinfo_hostname netloc ++ b.
Proof.
  unfold _hostinfo_hostname.
  destruct (PyStr.rpartition (ch "@") netloc) as [[u at_found] hostinfo] eqn:E1.
  apply rpartition_decompose in E1.
  destruct (PyStr.partition (ch "[") hostinfo) as [[pre open_found] bracketed] eqn:E2.
  apply partition_decompose in E2.
  destruct open_found.
  - destruct (PyStr.partition (ch "]") bracketed) as [[host close_found] port] eqn:E3.
    apply partition_decompose in E3.
    exists (u ++ (if at_found then [ch "@"] else []) ++ pre ++ [ch "["]),
           ((if close_found then [ch "]"] else []) ++ port).
    rewrite E1, E2, E3. rewrite <- !app_assoc. reflexivity.
  - destruct (PyStr.partition (ch ":") hostinfo) as [[host colon_found] port] eqn:E3.
    apply partition_decompose in E3.
    exists (u ++ (if at_found then [ch "@"] else [])),
           ((if colon_found then [ch ":"] else []) ++ port).
    rewrite E1, E3. rewrite <- !app_assoc. reflexivity.
Qed.

(** Lowercased, the [hostname] property is the host of [_hostinfo]
    lowercased, zone included. *)
Lemma hostname_lower (p : ParseResult) (h : str) :
  hostname p = Some h ->
  PyStr.lower h = PyStr.lower (_hostinfo_hostname (netloc p)).
Proof.
  unfold hostname.
  destruct (_hostinfo_hostname (netloc p)) as [|c raw] eqn:E; [discriminate|].
  destruct (PyStr.partition (ch "%") (c :: raw)) as [[host found] zone] eqn:Ep.
  intros [= <-]. apply partition_decompose in Ep. rewrite Ep.
  rewrite !lower_app, lower_lower. destruct found; reflexivity.
Qed.

Lemma occurs_in_middle (s a x b : str) : Occurs s x -> Occurs s (a ++ x ++ b).
Proof.
  intros (u & v & ->). exists (a ++ u), (v ++ b).
  rewrite <- !app_assoc. reflexivity.
Qed.

(** What occurs in the lowercased hostname occurs in the lowercased network
    location. *)
Lemma hostname_occurs (p : ParseResult) (h s : str) :
  hostname p = Some h -> Occurs s (PyStr.lower h) ->
  Occurs s (PyStr.lower (netloc p)).
Proof.
  intros Hh Hocc. rewrite (hostname_lower p Hh) in Hocc.
  destruct (hostinfo_in_netloc (netloc p)) as (a & b & E).
  rewrite E, !lower_app. apply occurs_in_middle, Hocc.
Qed.

Lemma ends_occurs (s x : str) : EndsWith s x -> Occurs s x.
Proof. intros [a ->]. exists a, []. rewrite app_nil_r. reflexivity. Qed.

Lemma ends_with_tail (a s x : str) : EndsWith (a ++ s) x -> EndsWith s x.
Proof. intros [u ->]. exists (u ++ a). rewrite <- app_assoc. reflexivity. Qed.

End HostFacts.

Section Hosts.
Context {BH : BracketedHosts}.
Import Urllib.

(** The six suffixes come to four: a host that ends with [my.sharepoint.com]
    or [my.sharepoint.cn] ends with [sharepoint.com] or [sharepoint.cn]. *)
Lemma supported_suffix_cases (x suffix : str) :
  In suffix supported_suffixes -> EndsWith suffix x ->
  (EndsWith (lit "1drv.ms") x \/ EndsWith (lit "onedrive.live.com") x)
  \/ (EndsWith (lit "sharepoint.com") x \/ EndsWith (lit "sharepoint.cn") x).
Proof.
  intros Hin Hend. simpl in Hin.
  destruct Hin as [<- | [<- | [<- | [<- | [<- | [<- | []]]]]]]; auto.
  - right. left. apply (HostFacts.ends_with_tail (lit "my.")). exact Hend.
  - right. right. apply (HostFacts.ends_with_tail (lit "my.")). exact Hend.
Qed.

(** X3.  For a URL that [urlparse] accepts, the supported-host test succeeds
    exactly when the hostname, lowercased, ends with [1drv.ms],
    [onedrive.live.com], [sharepoint.com] or [sharepoint.cn]: the suffixes
    [my.sharepoint.com] and [my.sharepoint.cn] of the list add nothing, and
    no dot is asked for before a suffix. *)
Theorem supported_hosts (url : str) (p : ParseResult) :
  urlparse url = OK p ->
  is_onedrive_supported_host url = OK true <->
  exists h,
    hostname p = Some h
    /\ (EndsWith (lit "1drv.ms") (PyStr.lower h)
        \/ EndsWith (lit "onedrive.live.com") (PyStr.lower h)
        \/ EndsWith (lit "sharepoint.com") (PyStr.lower h)
        \/ EndsWith (lit "sharepoint.cn") (PyStr.lower h)).
Proof.
  intros Hp. rewrite (supported_host_iff url Hp). split.
  - intros (h & suffix & Hh & Hin & Hend). exists h. split; [exact Hh|].
    destruct (supported_suffix_cases Hin Hend) as [[H | H] | [H | H]]; auto.
  - intros (h & Hh & H). exists h.
    destruct H as [H | [H | [H | H]]].
    + exists (lit "1drv.ms"). simpl. auto.
    + exists (lit "onedrive.live.com"). simpl. auto.
    + exists (lit "sharepoint.com"). simpl. auto 6.
    + exists (lit "sharepoint.cn"). simpl. auto 8.
Qed.

Lemma sharepoint_host_marked (p : ParseResult) (h : str) :
  hostname p = Some h ->
  EndsWith (lit "sharepoint.com") (PyStr.lower h)
  \/ EndsWith (lit "sharepoint.cn") (PyStr.lower h) ->
  exists m, In m sharepoint_markers /\ Occurs m (PyStr.lower (netloc p)).
Proof.
  intros Hh [H | H].
  - exists (lit "sharepoint.com"). split; [simpl; auto|].
    apply (HostFacts.hostname_occurs p Hh), HostFacts.ends_occurs, H.
  - exists (lit "sharepoint.cn"). split; [simpl; auto|].
    apply (HostFacts.hostname_occurs p Hh), HostFacts.ends_occurs, H.
Qed.

(** X4.  A URL past the scheme test whose hostname, lowercased, ends with
    [sharepoint.com] or [sharepoint.cn] is always given to the enterprise
    rewrite rule as it is: the substring test on the network location cannot
    miss a host that the suffix test accepted, and no request is made. *)
Theorem sharepoint_hosts_are_enterprise
    (url : str) (p : ParseResult) (h : str) (timeout : N) :
  Re.match_scheme url = true ->
  urlparse url = OK p ->
  hostname p = Some h ->
  EndsWith (lit "sharepoint.com") (PyStr.lower h)
  \/ EndsWith (lit "sharepoint.cn") (PyStr.lower h) ->
  parse_onedrive_direct_link url timeout
  = Ret (convert_sharepoint_to_direct_link url).
Proof.
  intros Hs Hp Hh Hend.
  assert (Hsup : is_onedrive_supported_host url = OK true).
  { apply (supported_host_iff url Hp).
    destruct Hend as [H | H].
    - exists h, (lit "sharepoint.com"). simpl. auto 6.
    - exists h, (lit "sharepoint.cn"). simpl. auto 8. }
  unfold parse_onedrive_direct_link. rewrite Hs, Hsup, Hp.
  cbv beta iota delta [negb].
  rewrite (proj2 (markers_iff _) (sharepoint_host_marked p Hh Hend)).
  reflexivity.
Qed.

(** X5.  The classifier makes a request only for a host that ends,
    lowercased, with [1drv.ms] or [onedrive.live.com]. *)
Theorem requests_only_for_personal_hosts
    (net : network) (url : str) (p : ParseResult) (timeout : N) :
  urlparse url = OK p ->
  filter is_request (snd (run net (parse_onedrive_direct_link url timeout)))
  <> [] ->
  exists h,
    hostname p = Some h
    /\ (EndsWith (lit "1drv.ms") (PyStr.lower h)
        \/ EndsWith (lit "onedrive.live.com") (PyStr.lower h)).
Proof.
  intros Hp Hreq.
  destruct (parse_requests net url timeout)
    as [H | (_ & Hsup & (p' & Hp' & Hno) & _)]; [contradiction|].
  assert (p' = p) as -> by congruence.
  apply (supported_host_iff url Hp) in Hsup as (h & suffix & Hh & Hin & Hend).
  exists h. split; [exact Hh|].
  destruct (supported_suffix_cases Hin Hend) as [H | H]; [exact H|].
  destruct (sharepoint_host_marked p Hh H) as (m & Hm & Hocc).
  destruct (Hno m Hm Hocc).
Qed.

End Hosts.

(** ** One save and the entries it leaves alone *)

Module SaveFacts.
Import History.

Lemma existing_index_entry (u : str) (history : list item) (i : nat) :
  existing_index u history = Some i ->
  exists y, nth_error history i = Some y /\ url y = u.
Proof.
  revert i. induction history as [|it history IH]; intros i; simpl;
    [discriminate|].
  destruct (PyStr.eqb (url it) u) eqn:E.
  - intros [= <-]. exists it. split; [reflexivity | apply eqb_eq, E].
  - destruct (existing_index u history) as [j|]; simpl; [|discriminate].
    intros [= <-]. exact (IH j eq_refl).
Qed.

Lemma assign_other (history : list item) (i j : nat) (x y : item) :
  existing_index (url x) history = Some i ->
  nth_error history j = Some y -> url y <> url x ->
  nth_error (assign history i x) j = Some y.
Proof.
  revert i j. induction history as [|it history IH]; intros i j; simpl;
    [discriminate|].
  destruct (PyStr.eqb (url it) (url x)) eqn:E.
  - intros [= <-] Hj Hne. destruct j as [|j]; [|exact Hj].
    simpl in Hj. injection Hj as ->. apply eqb_eq in E. contradiction.
  - destruct (existing_index (url x) history) as [k|]; simpl; [|discriminate].
    intros [= <-] Hj Hne. destruct j as [|j]; [exact Hj|].
    simpl in *. exact (IH k j eq_refl Hj Hne).
Qed.

Lemma assign_in (history : list item) (i : nat) (x z : item) :
  In z (assign history i x) -> z = x \/ In z history.
Proof.
  revert i. induction history as [|it history IH]; intros [|i]; simpl;
    try tauto.
  - intros [H | H]; auto.
  - intros [H | H]; [auto|]. destruct (IH i H); auto.
Qed.

Lemma assign_same (history : list item) (i : nat) (x : item) :
  nth_error history i = Some x -> assign history i x = history.
Proof.
  revert i. induction history as [|it history IH]; intros [|i]; simpl;
    try discriminate.
  - intros [= ->]. reflexivity.
  - intros H. rewrite (IH i H). reflexivity.
Qed.

Lemma in_firstn (n : nat) (l : list item) (z : item) :
  In z (firstn n l) -> In z l.
Proof.
  intros H. rewrite <- (firstn_skipn n l). apply in_or_app. left. exact H.
Qed.

Lemma truncated_in (l : list item) (z : item) :
  In z (if 100 <? length l then firstn 100 l else l) -> In z l.
Proof. destruct (100 <? length l); [apply in_firstn | auto]. Qed.

Lemma truncated_nth (l : list item) (j : nat) :
  j < 100 ->
  nth_error (if 100 <? length l then firstn 100 l else l) j = nth_error l j.
Proof.
  intros Hj. destruct (100 <? length l); [|reflexivity].
  rewrite nth_error_firstn.
  destruct (j <? 100) eqn:E; [reflexivity|].
  apply Nat.ltb_ge in E. lia.
Qed.

(** In a list without two entries of one url, an entry is known by its
    url. *)
Lemma entry_by_url (history : list item) (x y : item) :
  NoDup (map url history) -> In x history -> In y history ->
  url y = url x -> y = x.
Proof.
  intros Hnd Hx Hy E.
  assert (H : In y (entries_of (url x) history)).
  { unfold entries_of. apply filter_In. split; [exact Hy | apply eqb_eq, E]. }
  rewrite (HistoryFacts.entries_of_unique _ _ Hnd Hx) in H.
  destruct H as [H | []]. congruence.
Qed.

End SaveFacts.

(** X6.  One save touches one entry.  An entry of another url stays where it
    was when the saved url was already held (the update is in place), and
    moves down by one place when it was not (the new entry comes first), as
    long as the place is among the first hundred; and every entry of the
    list written is the saved one or was there before. *)
Theorem save_keeps_other_entries
    (history : list History.item) (x y : History.item) (j : nat) :
  nth_error history j = Some y ->
  History.url y <> History.url x ->
  (In (History.url x) (map History.url history) -> j < 100 ->
   nth_error (History.updated_history history x) j = Some y)
  /\ (~ In (History.url x) (map History.url history) -> S j < 100 ->
      nth_error (History.updated_history history x) (S j) = Some y)
  /\ (forall z, In z (History.updated_history history x) ->
                z = x \/ In z history).
Proof.
  intros Hj Hne. unfold History.updated_history.
  destruct (History.existing_index (History.url x) history) as [i|] eqn:E.
  - split; [|split].
    + intros _ Hlt. rewrite SaveFacts.truncated_nth by exact Hlt.
      exact (SaveFacts.assign_other history j x E Hj Hne).
    + intros Hnot. exfalso. apply Hnot.
      destruct (SaveFacts.existing_index_entry _ _ E) as (it & Hit & Hu).
      rewrite <- Hu. apply in_map. exact (nth_error_In _ _ Hit).
    + intros z Hz. apply SaveFacts.truncated_in in Hz.
      exact (SaveFacts.assign_in _ _ _ _ Hz).
  - split; [|split].
    + intros Hin. apply HistoryFacts.existing_index_none in E. contradiction.
    + intros _ Hlt. rewrite SaveFacts.truncated_nth by exact Hlt. exact Hj.
    + intros z Hz. apply SaveFacts.truncated_in in Hz.
      destruct Hz as [Hz | Hz]; auto.
Qed.

(** X7.  On a file whose history is deduplicated, a save that is written
    through and then repeated with the same body leaves the file the first
    save left, provided the body carries its own id and timestamp or the
    clock has not moved: the second save finds the entry of the first and
    writes the same list again. *)
Theorem save_twice_is_save_once
    (f : History.file) (now now' : History.clock) (d : History.request)
    (w : History.write_outcome) :
  FileDeduplicated f ->
  History.req_url d <> None ->
  (History.req_id d <> None /\ History.req_timestamp d <> None) \/ now' = now ->
  let once := History.save_history now (Some d) History.Written f in
  fst once = History.Success
  /\ (w <> History.DumpFailed ->
      snd (History.save_history now' (Some d) w (snd once)) = snd once).
Proof.
  intros Hf Hu Hclock. unfold History.save_history.
  destruct (History.req_url d) as [u|] eqn:Eu; [|congruence].
  cbn [History.save_history_to_file fst snd]. split; [reflexivity|].
  assert (Hitem : History.new_item now' d u = History.new_item now d u).
  { destruct Hclock as [[Hid Hts] | ->]; [|reflexivity].
    unfold History.new_item.
    destruct (History.req_id d); [|congruence].
    destruct (History.req_timestamp d); [|congruence]. reflexivity. }
  rewrite Hitem.
  set (x := History.new_item now d u).
  set (h := History.updated_history (History.load_history f) x).
  cbn [History.load_history].
  destruct (@HistoryFacts.updated_history_spec (History.load_history f) x Hf)
    as [[Hnd Hlen] Hent].
  fold h in Hnd, Hlen, Hent.
  assert (Hin : In x h).
  { assert (H : In x (entries_of (History.url x) h))
      by (rewrite Hent; left; reflexivity).
    unfold entries_of in H. apply filter_In in H. tauto. }
  assert (Hsame : History.updated_history h x = h).
  { unfold History.updated_history.
    destruct (History.existing_index (History.url x) h) as [i|] eqn:E.
    - destruct (SaveFacts.existing_index_entry _ _ E) as (y & Hy & Hurl).
      assert (y = x) as ->
        by (apply (SaveFacts.entry_by_url h); eauto using nth_error_In).
      rewrite (SaveFacts.assign_same _ _ Hy).
      assert (T : (100 <? length h) = false) by (apply Nat.ltb_ge; lia).
      rewrite T. reflexivity.
    - apply HistoryFacts.existing_index_none in E. exfalso. apply E.
      apply in_map. exact Hin. }
  intros Hw. rewrite Hsame. destruct w; [reflexivity | reflexivity | congruence].
Qed.

(** ** What the fallback writes, read again *)

Module RoundTrip.
Import Urllib.
Local Open Scope N_scope.

Lemma is_cont_byte (m : N) : m < 64 -> Utf8.is_cont (128 + m) = true.
Proof.
  intros H. unfold Utf8.is_cont. apply andb_true_iff. split.
  - apply N.leb_le. lia.
  - apply N.ltb_lt. lia.
Qed.

Lemma decode_two (q m : N) (r : list N) :
  2 <= q -> q < 32 -> m < 64 ->
  Utf8.decode (192 + q :: 128 + m :: r) = (q * 64 + m) :: Utf8.decode r.
Proof.
  intros H1 H2 H3.
  assert (T1 : (192 + q <? 128) = false) by (apply N.ltb_ge; lia).
  assert (T2 : (192 + q <? 194) = false) by (apply N.ltb_ge; lia).
  assert (T3 : (192 + q <? 224) = true) by (apply N.ltb_lt; lia).
  cbn [Utf8.decode]. rewrite T1, T2, T3, (is_cont_byte H3).
  f_equal. lia.
Qed.

Lemma decode_three (q m1 m0 : N) (r : list N) :
  q < 16 -> m1 < 64 -> m0 < 64 ->
  (q = 0 -> 32 <= m1) -> (q = 13 -> m1 < 32) ->
  Utf8.decode (224 + q :: 128 + m1 :: 128 + m0 :: r)
  = (q * 4096 + m1 * 64 + m0) :: Utf8.decode r.
Proof.
  intros H1 H2 H3 H4 H5.
  assert (T1 : (224 + q <? 128) = false) by (apply N.ltb_ge; lia).
  assert (T2 : (224 + q <? 194) = false) by (apply N.ltb_ge; lia).
  assert (T3 : (224 + q <? 224) = false) by (apply N.ltb_ge; lia).
  assert (T4 : (224 + q <? 240) = true) by (apply N.ltb_lt; lia).
  assert (T5 : (if 128 + m1 <? 160 then 224 + q =? 224 else 224 + q =? 237)
               = false).
  { destruct (128 + m1 <? 160) eqn:E.
    - apply N.ltb_lt in E. apply N.eqb_neq. lia.
    - apply N.ltb_ge in E. apply N.eqb_neq. lia. }
  cbn [Utf8.decode].
  rewrite T1, T2, T3, T4, (is_cont_byte H2), T5, (is_cont_byte H3).
  cbn [negb orb]. f_equal. lia.
Qed.

Lemma decode_four (q m2 m1 m0 : N) (r : list N) :
  q < 5 -> m2 < 64 -> m1 < 64 -> m0 < 64 ->
  (q = 0 -> 16 <= m2) -> (q = 4 -> m2 < 16) ->
  Utf8.decode (240 + q :: 128 + m2 :: 128 + m1 :: 128 + m0 :: r)
  = (q * 262144 + m2 * 4096 + m1 * 64 + m0) :: Utf8.decode r.
Proof.
  intros H0 H1 H2 H3 H4 H5.
  assert (T1 : (240 + q <? 128) = false) by (apply N.ltb_ge; lia).
  assert (T2 : (240 + q <? 194) = false) by (apply N.ltb_ge; lia).
  assert (T3 : (240 + q <? 224) = false) by (apply N.ltb_ge; lia).
  assert (T4 : (240 + q <? 240) = false) by (apply N.ltb_ge; lia).
  assert (T6 : (240 + q <? 245) = true) by (apply N.ltb_lt; lia).
  assert (T5 : (if 128 + m2 <? 144 then 240 + q =? 240 else 240 + q =? 244)
               = false).
  { destruct (128 + m2 <? 144) eqn:E.
    - apply N.ltb_lt in E. apply N.eqb_neq. lia.
    - apply N.ltb_ge in E. apply N.eqb_neq. lia. }
  cbn [Utf8.decode].
  rewrite T1, T2, T3, T4, T6, (is_cont_byte H1), T5, (is_cont_byte H2),
    (is_cont_byte H3).
  cbn [negb orb]. f_equal. lia.
Qed.

Lemma Some_eq {A} (a b : A) : Some a = Some b -> a = b.
Proof. intros H. injection H. auto. Qed.

(** The digits of a code point in base 64. *)
Lemma base64_digits (c : N) :
  c = (c / 64) * 64 + c mod 64 /\ c mod 64 < 64.
Proof.
  split; [|apply N.mod_lt; discriminate].
  rewrite N.mul_comm. apply N.div_mod. discriminate.
Qed.

Lemma decode_encode_char (c : char) (bs r : list N) :
  Utf8.encode_char c = Some bs ->
  Utf8.decode (bs ++ r) = c :: Utf8.decode r.
Proof.
  unfold Utf8.encode_char.
  destruct (base64_digits c) as [E0 L0].
  destruct (base64_digits (c / 64)) as [E1 L1].
  destruct (base64_digits (c / 64 / 64)) as [E2 L2].
  assert (D2 : c / 4096 = c / 64 / 64)
    by (rewrite N.Div0.div_div; reflexivity).
  assert (D3 : c / 262144 = c / 64 / 64 / 64)
    by (rewrite !N.Div0.div_div; reflexivity).
  rewrite D3, D2. clear D2 D3.
  set (q1 := c / 64) in *. set (m0 := c mod 64) in *.
  set (q2 := q1 / 64) in *. set (m1 := q1 mod 64) in *.
  set (q3 := q2 / 64) in *. set (m2 := q2 mod 64) in *.
  clearbody q3 m2 m1 m0. subst q2. clearbody q1.
  destruct (c <? 128) eqn:C1.
  { intros H. apply Some_eq in H. subst bs. cbn [app Utf8.decode].
    rewrite C1. reflexivity. }
  apply N.ltb_ge in C1.
  destruct (c <? 2048) eqn:C2.
  { intros H. apply Some_eq in H. subst bs. apply N.ltb_lt in C2.
    cbn [app]. rewrite decode_two; [f_equal; lia | lia | lia | lia]. }
  apply N.ltb_ge in C2.
  destruct ((55296 <=? c) && (c <=? 57343)) eqn:C3; [discriminate|].
  assert (S3 : c < 55296 \/ 57343 < c).
  { apply andb_false_iff in C3 as [C3 | C3];
      [left; apply N.leb_gt, C3 | right; apply N.leb_gt, C3]. }
  destruct (c <? 65536) eqn:C4.
  { intros H. apply Some_eq in H. subst bs. apply N.ltb_lt in C4.
    cbn [app]. rewrite decode_three; [f_equal; lia | lia | lia | lia | lia | lia]. }
  apply N.ltb_ge in C4.
  destruct (c <? 1114112) eqn:C5; [|discriminate].
  intros H. apply Some_eq in H. subst bs. apply N.ltb_lt in C5.
  cbn [app].
  rewrite decode_four; [f_equal; lia | lia | lia | lia | lia | lia | lia].
Qed.

Lemma decode_encode (s : str) (bs : list N) :
  Utf8.encode s = OK bs -> Utf8.decode bs = s.
Proof.
  revert bs. induction s as [|c s IH]; intros bs; simpl.
  - intros H. apply OK_inj in H. subst bs. reflexivity.
  - destruct (Utf8.encode_char c) as [cs|] eqn:Ec; [|discriminate].
    destruct (Utf8.encode s) as [r|e]; [|discriminate].
    cbv beta iota delta [rbind]. intros H. apply OK_inj in H. subst bs.
    rewrite (@decode_encode_char c cs r Ec). rewrite (IH r eq_refl). reflexivity.
Qed.


(** *** Percent-encoding and back *)

Lemma encode_char_bytes (c : char) (bs : list N) :
  Utf8.encode_char c = Some bs ->
  (c < 128 /\ bs = [c])
  \/ (128 <= c /\ forall b, In b bs -> 128 <= b /\ b < 256).
Proof.
  unfold Utf8.encode_char.
  destruct (base64_digits c) as [E0 L0].
  destruct (base64_digits (c / 64)) as [E1 L1].
  destruct (base64_digits (c / 64 / 64)) as [E2 L2].
  assert (D2 : c / 4096 = c / 64 / 64)
    by (rewrite N.Div0.div_div; reflexivity).
  assert (D3 : c / 262144 = c / 64 / 64 / 64)
    by (rewrite !N.Div0.div_div; reflexivity).
  rewrite D3, D2. clear D2 D3.
  set (q1 := c / 64) in *. set (m0 := c mod 64) in *.
  set (q2 := q1 / 64) in *. set (m1 := q1 mod 64) in *.
  set (q3 := q2 / 64) in *. set (m2 := q2 mod 64) in *.
  clearbody q3 m2 m1 m0. subst q2. clearbody q1.
  destruct (c <? 128) eqn:C1.
  { intros H. apply Some_eq in H. subst bs. apply N.ltb_lt in C1. auto. }
  apply N.ltb_ge in C1. intros Henc. right. split; [exact C1|]. revert Henc.
  destruct (c <? 2048) eqn:C2.
  { intros H. apply Some_eq in H. subst bs. apply N.ltb_lt in C2.
    intros b [<- | [<- | []]]; lia. }
  destruct ((55296 <=? c) && (c <=? 57343)); [discriminate|].
  destruct (c <? 65536) eqn:C4.
  { intros H. apply Some_eq in H. subst bs. apply N.ltb_lt in C4.
    intros b [<- | [<- | [<- | []]]]; lia. }
  destruct (c <? 1114112) eqn:C5; [|discriminate].
  intros H. apply Some_eq in H. subst bs. apply N.ltb_lt in C5.
  intros b [<- | [<- | [<- | [<- | []]]]]; lia.
Qed.

(** The bytes of an encoded string: each is below 256, and one below 128 is
    a character of the string. *)
Lemma encode_bytes (s : str) (bs : list N) :
  Utf8.encode s = OK bs ->
  forall b, In b bs -> b < 256 /\ (b < 128 -> In b s).
Proof.
  revert bs. induction s as [|c s IH]; intros bs; simpl.
  - intros H. apply OK_inj in H. subst bs. intros b [].
  - destruct (Utf8.encode_char c) as [cs|] eqn:Ec; [|discriminate].
    destruct (Utf8.encode s) as [r|e]; [|discriminate].
    cbv beta iota delta [rbind]. intros H. apply OK_inj in H. subst bs.
    intros b Hb. apply in_app_or in Hb as [Hb | Hb].
    + destruct (encode_char_bytes _ Ec) as [[Hc ->] | [Hc Hcs]].
      * destruct Hb as [<- | []]. split; [lia | auto].
      * apply Hcs in Hb. split; [lia | lia].
    + destruct (IH r eq_refl b Hb) as [H1 H2]. split; [exact H1 | auto].
Qed.

Lemma mem_app (c : char) (a b : str) :
  PyStr.mem c (a ++ b) = PyStr.mem c a || PyStr.mem c b.
Proof.
  destruct (PyStr.mem c a) eqn:Ea.
  - apply mem_iff. apply in_or_app. left. apply mem_iff, Ea.
  - destruct (PyStr.mem c b) eqn:Eb.
    + apply mem_iff. apply in_or_app. right. apply mem_iff, Eb.
    + apply mem_false_iff. intros Hin.
      apply in_app_or in Hin as [Hin | Hin]; apply mem_iff in Hin; congruence.
Qed.

Lemma hexdigit_upper (n : N) :
  n < 16 -> In (hexdigit n) (lit "0123456789ABCDEF").
Proof.
  intros H. apply mem_iff.
  assert (Hn : In n (map N.of_nat (seq 0 16))).
  { apply in_map_iff. exists (N.to_nat n).
    split; [apply N2Nat.id | apply in_seq; lia]. }
  clear H. revert n Hn.
  apply (proj1 (forallb_forall
                  (fun n => PyStr.mem (hexdigit n) (lit "0123456789ABCDEF"))
                  (map N.of_nat (seq 0 16)))).
  vm_compute. reflexivity.
Qed.

Lemma hexval_hexdigit (n : N) : n < 16 -> hexval (hexdigit n) = Some n.
Proof.
  intros H. unfold hexdigit. destruct (n <? 10) eqn:E.
  - apply N.ltb_lt in E. unfold hexval.
    assert (T : ((48 <=? 48 + n) && (48 + n <=? 57)) = true).
    { apply andb_true_iff. split; apply N.leb_le; lia. }
    rewrite T. f_equal. lia.
  - apply N.ltb_ge in E. unfold hexval.
    assert (T1 : ((48 <=? 55 + n) && (55 + n <=? 57)) = false).
    { apply andb_false_iff. right. apply N.leb_gt. lia. }
    assert (T2 : ((65 <=? 55 + n) && (55 + n <=? 70)) = true).
    { apply andb_true_iff. split; apply N.leb_le; lia. }
    rewrite T1, T2. f_equal. lia.
Qed.

(** A property of the sixteen digits holds of the digit of a number below
    sixteen. *)
Lemma hexdigit_all (f : char -> bool) (n : N) :
  forallb f (lit "0123456789ABCDEF") = true -> n < 16 -> f (hexdigit n) = true.
Proof.
  intros Hall Hn. exact (proj1 (forallb_forall f _) Hall _ (hexdigit_upper Hn)).
Qed.

Lemma byte_digits (b : N) :
  b < 256 -> b / 16 < 16 /\ b mod 16 < 16 /\ 16 * (b / 16) + b mod 16 = b.
Proof.
  intros H.
  assert (E : b = 16 * (b / 16) + b mod 16) by (apply N.div_mod; discriminate).
  assert (L : b mod 16 < 16) by (apply N.mod_lt; discriminate).
  set (q := b / 16) in *. set (m := b mod 16) in *. clearbody q m. lia.
Qed.

Lemma safe_all (f : char -> bool) (b : N) :
  forallb f _ALWAYS_SAFE = true -> PyStr.mem b _ALWAYS_SAFE = true -> f b = true.
Proof.
  intros Hall Hb. apply mem_iff in Hb.
  exact (proj1 (forallb_forall f _) Hall _ Hb).
Qed.

Lemma map_flat_map {A B C} (g : B -> C) (f : A -> list B) (l : list A) :
  map g (flat_map f l) = flat_map (fun x => map g (f x)) l.
Proof.
  induction l as [|x l IH]; simpl; [reflexivity|].
  rewrite map_app, IH. reflexivity.
Qed.

Lemma flat_map_same {A B} (f g : A -> list B) (l : list A) :
  (forall x, In x l -> f x = g x) -> flat_map f l = flat_map g l.
Proof.
  induction l as [|x l IH]; intros H; simpl; [reflexivity|].
  rewrite (H x) by (left; reflexivity).
  rewrite IH by (intros y Hy; apply H; right; exact Hy). reflexivity.
Qed.

Lemma quoter_plain (b : N) : b <> 32 -> b < 256 -> quoter [] b = plus_byte b.
Proof.
  intros Hb _. unfold quoter, plus_byte. rewrite app_nil_r.
  destruct (PyStr.mem b _ALWAYS_SAFE); [reflexivity|].
  apply N.eqb_neq in Hb. rewrite Hb. reflexivity.
Qed.

Lemma quoter_space (b : N) :
  b < 256 ->
  PyStr.replace (ch " ") (ch "+") (quoter [ch " "] b) = plus_byte b.
Proof.
  intros Hb. destruct (byte_digits Hb) as (Hq & Hm & _).
  unfold quoter, plus_byte. rewrite mem_app.
  destruct (PyStr.mem b _ALWAYS_SAFE) eqn:Es.
  - assert (T : negb (b =? ch " ") = true)
      by (apply (safe_all (fun x => negb (x =? ch " "))); [reflexivity | exact Es]).
    apply negb_true_iff in T. unfold PyStr.replace. cbn [orb map].
    rewrite T. reflexivity.
  - cbn [orb]. change (PyStr.mem b [ch " "]) with ((b =? 32) || false).
    rewrite orb_false_r. destruct (b =? 32) eqn:E.
    + apply N.eqb_eq in E. subst b. reflexivity.
    + unfold PyStr.replace. cbn [map].
      assert (T : forall n, n < 16 -> (hexdigit n =? ch " ") = false).
      { intros n Hn. apply negb_true_iff.
        apply (hexdigit_all (fun x => negb (x =? ch " "))); [reflexivity | exact Hn]. }
      rewrite (T _ Hq), (T _ Hm). reflexivity.
Qed.

(** [quote_plus] of a string is what it writes for each byte of its
    encoding. *)
Lemma quote_plus_bytes (s : str) (bs : list N) :
  Utf8.encode s = OK bs -> quote_plus s = OK (flat_map plus_byte bs).
Proof.
  intros He. pose proof (encode_bytes _ He) as Hbs.
  destruct s as [|c s]; [apply OK_inj in He; subst bs; reflexivity|].
  unfold quote_plus, quote.
  destruct (PyStr.mem (ch " ") (c :: s)) eqn:Esp; cbn [negb].
  - rewrite He. cbv beta iota delta [rbind]. f_equal.
    unfold quote_from_bytes, PyStr.replace. rewrite map_flat_map.
    apply flat_map_same. intros b Hb. apply quoter_space. apply Hbs, Hb.
  - rewrite He. cbv beta iota delta [rbind]. f_equal.
    unfold quote_from_bytes. apply flat_map_same. intros b Hb.
    apply quoter_plain; [|apply Hbs, Hb].
    intros ->. apply mem_false_iff in Esp. apply Esp.
    apply (proj2 (Hbs _ Hb)). reflexivity.
Qed.

Lemma plus_read_back (b : N) :
  b < 256 -> PyStr.replace (ch "+") (ch " ") (plus_byte b) = percent_byte b.
Proof.
  intros Hb. destruct (byte_digits Hb) as (Hq & Hm & _).
  unfold plus_byte, percent_byte, PyStr.replace.
  destruct (PyStr.mem b _ALWAYS_SAFE) eqn:Es.
  - assert (T : negb (b =? ch "+") = true)
      by (apply (safe_all (fun x => negb (x =? ch "+"))); [reflexivity | exact Es]).
    apply negb_true_iff in T. cbn [map]. rewrite T. reflexivity.
  - destruct (b =? 32); [reflexivity|]. cbn [map].
    assert (T : forall n, n < 16 -> (hexdigit n =? ch "+") = false).
    { intros n Hn. apply negb_true_iff.
      apply (hexdigit_all (fun x => negb (x =? ch "+"))); [reflexivity | exact Hn]. }
    rewrite (T _ Hq), (T _ Hm). reflexivity.
Qed.

Lemma percent_byte_ascii (b c : N) :
  b < 256 -> In c (percent_byte b) -> c < 128.
Proof.
  intros Hb. destruct (byte_digits Hb) as (Hq & Hm & _). unfold percent_byte.
  destruct (PyStr.mem b _ALWAYS_SAFE) eqn:Es.
  - intros [<- | []]. apply N.ltb_lt.
    apply (safe_all (fun x => x <? 128)); [reflexivity | exact Es].
  - destruct (b =? 32); [intros [<- | []]; reflexivity|].
    intros [<- | [<- | [<- | []]]]; [reflexivity | |];
      apply N.ltb_lt;
      apply (hexdigit_all (fun x => x <? 128)); (reflexivity || assumption).
Qed.

Lemma unquote_to_bytes_cons (c : char) (t : str) :
  c <> ch "%" -> unquote_to_bytes (c :: t) = c :: unquote_to_bytes t.
Proof.
  intros Hc. unfold unquote_to_bytes. cbn [PyStr.split].
  apply N.eqb_neq in Hc. rewrite Hc.
  destruct (PyStr.split (ch "%") t) as [|h tl] eqn:E;
    [destruct (split_nonempty _ _ E) | reflexivity].
Qed.

Lemma unquote_to_bytes_escape (h1 h2 : char) (x y : N) (t : str) :
  hexval h1 = Some x -> hexval h2 = Some y ->
  unquote_to_bytes (ch "%" :: h1 :: h2 :: t)
  = (16 * x + y) :: unquote_to_bytes t.
Proof.
  intros H1 H2.
  assert (N1 : (h1 =? ch "%") = false).
  { apply N.eqb_neq. intros ->. vm_compute in H1. discriminate H1. }
  assert (N2 : (h2 =? ch "%") = false).
  { apply N.eqb_neq. intros ->. vm_compute in H2. discriminate H2. }
  unfold unquote_to_bytes. cbn [PyStr.split].
  change (ch "%" =? ch "%") with true. cbv iota. rewrite N1, N2.
  destruct (PyStr.split (ch "%") t) as [|h tl] eqn:E;
    [destruct (split_nonempty _ _ E)|].
  cbn [flat_map app unquote_item]. rewrite H1, H2. reflexivity.
Qed.

Lemma unquote_to_bytes_percent (bs : list N) :
  (forall b, In b bs -> b < 256) ->
  unquote_to_bytes (flat_map percent_byte bs) = bs.
Proof.
  induction bs as [|b bs IH]; intros Hbs; [reflexivity|].
  assert (Hb : b < 256) by (apply Hbs; left; reflexivity).
  destruct (byte_digits Hb) as (Hq & Hm & Hsum).
  specialize (IH (fun x Hx => Hbs x (or_intror Hx))).
  cbn [flat_map]. unfold percent_byte at 1.
  destruct (PyStr.mem b _ALWAYS_SAFE) eqn:Es.
  - cbn [app]. rewrite unquote_to_bytes_cons, IH; [reflexivity|].
    assert (T : negb (b =? ch "%") = true)
      by (apply (safe_all (fun x => negb (x =? ch "%"))); [reflexivity | exact Es]).
    apply negb_true_iff, N.eqb_neq in T. exact T.
  - destruct (b =? 32) eqn:E.
    + apply N.eqb_eq in E. subst b. cbn [app].
      rewrite unquote_to_bytes_cons, IH; [reflexivity | discriminate].
    + cbn [app].
      rewrite (@unquote_to_bytes_escape _ _ _ _ _ (hexval_hexdigit Hq) (hexval_hexdigit Hm)).
      rewrite IH, Hsum. reflexivity.
Qed.

Lemma decode_ascii (t : str) :
  (forall c, In c t -> c < 128) -> Utf8.decode t = t.
Proof.
  induction t as [|c t IH]; intros H; [reflexivity|].
  assert (Hc : (c <? 128) = true) by (apply N.ltb_lt, H; left; reflexivity).
  cbn [Utf8.decode]. rewrite Hc, IH; [reflexivity|].
  intros x Hx. apply H. right. exact Hx.
Qed.

Lemma unquote_runs_ascii (t run : str) :
  (forall c, In c t -> c < 128) ->
  unquote_runs run t = Utf8.decode (unquote_to_bytes (run ++ t)).
Proof.
  revert run. induction t as [|c t IH]; intros run H.
  - rewrite app_nil_r. reflexivity.
  - assert (Hc : (c <? 128) = true) by (apply N.ltb_lt, H; left; reflexivity).
    cbn [unquote_runs]. rewrite Hc, IH by (intros x Hx; apply H; right; exact Hx).
    rewrite <- app_assoc. reflexivity.
Qed.

(** On ASCII text, [unquote] is the decoding of the bytes that the escapes
    stand for. *)
Lemma unquote_ascii (t : str) :
  (forall c, In c t -> c < 128) ->
  unquote t = Utf8.decode (unquote_to_bytes t).
Proof.
  intros H. unfold unquote. destruct (PyStr.mem (ch "%") t) eqn:E; cbn [negb].
  - exact (@unquote_runs_ascii t [] H).
  - apply mem_false_iff in E. unfold unquote_to_bytes.
    rewrite (@split_no_sep _ _ E). cbn [flat_map]. rewrite app_nil_r.
    symmetry. apply decode_ascii, H.
Qed.

(** What [quote_plus] wrote, [unquote_plus] reads back. *)
Lemma unquote_quote_plus (s q : str) :
  quote_plus s = OK q -> unquote_plus q = s.
Proof.
  intros Hq.
  destruct (Utf8.encode s) as [bs|e] eqn:He.
  - rewrite (quote_plus_bytes _ He) in Hq. apply OK_inj in Hq. subst q.
    pose proof (encode_bytes _ He) as Hbs.
    unfold unquote_plus. unfold PyStr.replace at 1. rewrite map_flat_map.
    rewrite (flat_map_same _ percent_byte).
    2:{ intros b Hb. apply plus_read_back, Hbs, Hb. }
    rewrite unquote_ascii.
    + rewrite unquote_to_bytes_percent by (intros b Hb; apply Hbs, Hb).
      apply decode_encode, He.
    + intros c Hc. apply in_flat_map in Hc as (b & Hb & Hc).
      apply (percent_byte_ascii (b := b)); [apply Hbs, Hb | exact Hc].
  - exfalso. destruct s as [|c s]; [discriminate He|].
    unfold quote_plus, quote in Hq. rewrite He in Hq.
    destruct (negb (PyStr.mem (ch " ") (c :: s))); discriminate Hq.
Qed.


(** *** The query string and back *)

Lemma urlencode_items_parse (d : Dict.t) (l : list str) :
  urlencode_items d = OK l -> Valued d -> flat_map parse_field l = d.
Proof.
  revert l. induction d as [|[k v] d IH]; intros l; cbn [urlencode_items].
  - intros H _. apply OK_inj in H. subst l. reflexivity.
  - destruct (quote_plus k) as [k'|] eqn:Ek; [|discriminate].
    destruct (quote_plus v) as [v'|] eqn:Ev; [|discriminate].
    destruct (urlencode_items d) as [l'|]; [|discriminate].
    cbv beta iota delta [rbind]. intros H Hd. apply OK_inj in H. subst l.
    inversion Hd as [|? ? Hv Hd']; subst. cbn [snd] in Hv.
    cbn [flat_map]. rewrite (IH l' eq_refl Hd').
    rewrite (@QueryFacts.parse_field_valued k v').
    + rewrite (@unquote_quote_plus v v' Ev). reflexivity.
    + exists k'. split; [reflexivity|].
      destruct (@QuoteFacts.quote_plus_spec k k' Ek) as [Hk _].
      destruct (@QuoteFacts.quote_plus_spec v v' Ev) as [_ Hne].
      split; [intros Hin; apply Hk in Hin; tauto|].
      split; [apply (@unquote_quote_plus k k' Ek) | auto].
Qed.

(** The query string written for a dictionary without empty values parses
    back to its items. *)
Lemma parse_qsl_urlencode (d : Dict.t) (q : str) :
  urlencode d = OK q -> Valued d -> parse_qsl q = d.
Proof.
  unfold urlencode.
  destruct (urlencode_items d) as [l|] eqn:E; [|discriminate].
  cbv beta iota delta [rbind]. intros H Hd. apply OK_inj in H. subst q.
  destruct (@FallbackFacts.urlencode_items_spec d l E Hd) as [Hl _].
  rewrite (@QueryFacts.parse_qsl_fields _ l).
  - exact (@urlencode_items_parse d l E Hd).
  - split; [reflexivity|]. apply Forall_forall. intros f Hf.
    rewrite Forall_forall in Hl. apply (Hl f Hf).
Qed.

Lemma set_keys (d : Dict.t) (k v : str) :
  In k (Dict.keys d) -> Dict.keys (Dict.set d k v) = Dict.keys d.
Proof.
  unfold Dict.keys. induction d as [|[k' v'] d IH]; cbn [map fst Dict.set];
    [intros []|].
  destruct (PyStr.eqb k' k) eqn:E; [reflexivity|].
  intros [H | H]; [apply eqb_neq in E; contradiction|].
  cbn [map fst]. rewrite IH by exact H. reflexivity.
Qed.

Lemma set_keys_nodup (d : Dict.t) (k v : str) :
  NoDup (Dict.keys d) -> NoDup (Dict.keys (Dict.set d k v)).
Proof.
  intros Hnd.
  destruct (in_dec (list_eq_dec N.eq_dec) k (Dict.keys d)) as [Hin | Hnot].
  - rewrite set_keys by exact Hin. exact Hnd.
  - rewrite PairFacts.set_fresh by exact Hnot.
    unfold Dict.keys. rewrite map_app. cbn [map fst].
    apply NoDup_app.
    + exact Hnd.
    + constructor; [intros [] | constructor].
    + intros x Hx [<- | []]. contradiction.
Qed.

(** The keys of a dictionary are all different. *)
Lemma of_pairs_nodup (l : list (str * str)) :
  NoDup (Dict.keys (Dict.of_pairs l)).
Proof.
  unfold Dict.of_pairs.
  assert (G : forall d, NoDup (Dict.keys d) ->
                        NoDup (Dict.keys
                                 (fold_left (fun d kv => Dict.set d (fst kv) (snd kv))
                                            l d))).
  { induction l as [|kv l IH]; intros d Hd; [exact Hd|].
    cbn [fold_left]. apply IH, set_keys_nodup, Hd. }
  apply G. constructor.
Qed.

(** A dictionary written to a query string and read back is the same
    dictionary. *)
Lemma written_query_reads_back (d : Dict.t) (q : str) :
  NoDup (Dict.keys d) -> Valued d -> urlencode d = OK q ->
  Dict.of_pairs (parse_qsl q) = d.
Proof.
  intros Hnd Hv Hq. rewrite (@parse_qsl_urlencode d q Hq Hv).
  apply (@PairFacts.fold_set_fresh d []). exact Hnd.
Qed.

End RoundTrip.

Section Fallback.
Context {BH : BracketedHosts}.
Import Urllib.

(** The dictionary the fallback reads from a query string. *)
Lemma read_dictionary (q : str) :
  NoDup (Dict.keys (Dict.of_pairs (parse_qsl q)))
  /\ Valued (Dict.of_pairs (parse_qsl q)).
Proof.
  split; [apply RoundTrip.of_pairs_nodup|].
  apply FallbackFacts.fold_set_valued;
    [apply FallbackFacts.parse_qsl_valued | constructor].
Qed.

Lemma written_dictionary_spec (read : Dict.t) :
  NoDup (Dict.keys read) -> Valued read ->
  NoDup (Dict.keys (written_dictionary read))
  /\ Valued (written_dictionary read)
  /\ existsb (fun k => PyStr.eqb (PyStr.lower k) (lit "download"))
             (Dict.keys (written_dictionary read)) = true
  /\ ((exists k, In k (Dict.keys read) /\ PyStr.lower k = lit "download") ->
      written_dictionary read = read)
  /\ ((forall k, In k (Dict.keys read) -> PyStr.lower k <> lit "download") ->
      written_dictionary read = read ++ [(lit "download", lit "1")]).
Proof.
  intros Hnd Hv. unfold written_dictionary.
  destruct (existsb (fun k => PyStr.eqb (PyStr.lower k) (lit "download"))
                    (Dict.keys read)) eqn:E; cbn [negb].
  - split; [exact Hnd|]. split; [exact Hv|]. split; [exact E|].
    split; [reflexivity|]. intros Hno.
    apply existsb_exists in E as (k & Hk & Ek). apply eqb_eq in Ek.
    destruct (Hno k Hk Ek).
  - assert (Hno : forall k, In k (Dict.keys read) -> PyStr.lower k <> lit "download").
    { intros k Hk. apply eqb_neq.
      exact (proj1 (existsb_false_iff _ _) E k Hk). }
    assert (Hfresh : ~ In (lit "download") (Dict.keys read)).
    { intros Hin. apply (Hno _ Hin). reflexivity. }
    assert (Hset : Dict.set read (lit "download") (lit "1")
                   = read ++ [(lit "download", lit "1")])
      by (apply PairFacts.set_fresh, Hfresh).
    split; [apply RoundTrip.set_keys_nodup, Hnd|].
    split; [apply FallbackFacts.set_valued; [exact Hv | discriminate]|].
    split.
    + rewrite Hset. unfold Dict.keys. rewrite map_app, existsb_app.
      apply orb_true_iff. right. reflexivity.
    + split; [|intros _; exact Hset].
      intros (k & Hk & Ek). destruct (Hno k Hk Ek).
Qed.

Lemma fallback_unfolded (url : str) (p : ParseResult) :
  urlparse url = OK p ->
  ensure_download_param_fallback url
  = rbind (urlencode (written_dictionary (Dict.of_pairs (parse_qsl (query p)))))
          (fun new_query =>
             OK (urlunparse (scheme p) (netloc p) (path p) (params p)
                            new_query (fragment p))).
Proof.
  intros Hp. unfold ensure_download_param_fallback. rewrite Hp. reflexivity.
Qed.

(** X8.  The query string the fallback writes carries the parameters it read
    and no others: parsed again into a dictionary, it gives back the
    dictionary of the input query, as it is when a key is [download] in any
    case, with [download=1] added last otherwise.  Nothing is lost or
    changed by the percent-encoding. *)
Theorem fallback_query_reads_back (url : str) (p : ParseResult) (out : str) :
  urlparse url = OK p ->
  ensure_download_param_fallback url = OK out ->
  let read := Dict.of_pairs (parse_qsl (query p)) in
  exists new_query,
    out = urlunparse (scheme p) (netloc p) (path p) (params p)
                     new_query (fragment p)
    /\ ((exists k, In k (Dict.keys read) /\ PyStr.lower k = lit "download") ->
        Dict.of_pairs (parse_qsl new_query) = read)
    /\ ((forall k, In k (Dict.keys read) -> PyStr.lower k <> lit "download") ->
        Dict.of_pairs (parse_qsl new_query)
        = read ++ [(lit "download", lit "1")]).
Proof.
  intros Hp Hout read. rewrite (fallback_unfolded _ Hp) in Hout. fold read in Hout.
  destruct (read_dictionary (query p)) as [Hnd Hv]. fold read in Hnd, Hv.
  destruct (written_dictionary_spec Hnd Hv) as (Hnd' & Hv' & _ & Hsame & Hadd).
  destruct (urlencode (written_dictionary read)) as [new_query|e] eqn:Eq;
    [|discriminate].
  cbv beta iota delta [rbind] in Hout. apply OK_inj in Hout.
  exists new_query. split; [symmetry; exact Hout|].
  rewrite (@RoundTrip.written_query_reads_back _ _ Hnd' Hv' Eq).
  split; assumption.
Qed.


Lemma plus_byte_chars (b : N) (c : char) :
  (b < 256)%N -> In c (plus_byte b) -> In c (_ALWAYS_SAFE ++ lit "+%").
Proof.
  intros Hb. destruct (RoundTrip.byte_digits Hb) as (Hq & Hm & _).
  assert (Hhex : forall n, (n < 16)%N ->
                           In (hexdigit n) (_ALWAYS_SAFE ++ lit "+%")).
  { intros n Hn. apply mem_iff.
    apply (RoundTrip.hexdigit_all
             (fun x => PyStr.mem x (_ALWAYS_SAFE ++ lit "+%")));
      [reflexivity | exact Hn]. }
  unfold plus_byte.
  destruct (PyStr.mem b _ALWAYS_SAFE) eqn:Es.
  - intros [<- | []]. apply in_or_app. left. apply mem_iff, Es.
  - destruct (b =? 32)%N.
    + intros [<- | []]. apply mem_iff. reflexivity.
    + intros [<- | [<- | [<- | []]]]; [apply mem_iff; reflexivity | |]; auto.
Qed.

Lemma quote_plus_chars (s q : str) (c : char) :
  quote_plus s = OK q -> In c q -> In c (_ALWAYS_SAFE ++ lit "+%=&").
Proof.
  intros Hq Hc.
  assert (G : In c (_ALWAYS_SAFE ++ lit "+%")).
  { destruct (Utf8.encode s) as [bs|e] eqn:He.
    - rewrite (@RoundTrip.quote_plus_bytes s bs He) in Hq.
      apply OK_inj in Hq. subst q.
      apply in_flat_map in Hc as (b & Hb & Hc).
      apply (@plus_byte_chars b c); [|exact Hc].
      apply (@RoundTrip.encode_bytes s bs He b Hb).
    - exfalso. destruct s as [|c0 s]; [discriminate He|].
      unfold quote_plus, quote in Hq. rewrite He in Hq.
      destruct (negb (PyStr.mem (ch " ") (c0 :: s))); discriminate Hq. }
  apply in_app_or in G as [G | G]; apply in_or_app; [left; exact G | right].
  simpl in G. simpl. tauto.
Qed.

Lemma in_join (c sep : char) (l : list str) :
  In c (PyStr.join [sep] l) -> c = sep \/ exists f, In f l /\ In c f.
Proof.
  induction l as [|x l IH]; [intros []|].
  destruct l as [|y l].
  - intros H. right. exists x. split; [left; reflexivity | exact H].
  - rewrite join_cons by discriminate. intros H.
    apply in_app_or in H as [H | H].
    + right. exists x. split; [left; reflexivity | exact H].
    + destruct H as [H | H]; [left; symmetry; exact H|].
      destruct (IH H) as [-> | (f & Hf & Hcf)]; [left; reflexivity|].
      right. exists f. split; [right; exact Hf | exact Hcf].
Qed.

Lemma urlencode_items_chars (d : Dict.t) (l : list str) (f : str) (c : char) :
  urlencode_items d = OK l -> In f l -> In c f ->
  In c (_ALWAYS_SAFE ++ lit "+%=&").
Proof.
  revert l. induction d as [|[k v] d IH]; intros l; cbn [urlencode_items].
  - intros H. apply OK_inj in H. subst l. intros [].
  - destruct (quote_plus k) as [k'|] eqn:Ek; [|discriminate].
    destruct (quote_plus v) as [v'|] eqn:Ev; [|discriminate].
    destruct (urlencode_items d) as [l'|]; [|discriminate].
    cbv beta iota delta [rbind]. intros H. apply OK_inj in H. subst l.
    intros [<- | Hf] Hc.
    + apply in_app_or in Hc as [Hc | [<- | Hc]].
      * exact (@quote_plus_chars k k' c Ek Hc).
      * apply mem_iff. reflexivity.
      * exact (@quote_plus_chars v v' c Ev Hc).
    + exact (IH l' eq_refl Hf Hc).
Qed.

(** The characters of a query string that [urlencode] wrote: unreserved
    ones, [+], [%], [=] and [&]. *)
Lemma urlencode_chars (d : Dict.t) (q : str) (c : char) :
  urlencode d = OK q -> In c q -> In c (_ALWAYS_SAFE ++ lit "+%=&").
Proof.
  unfold urlencode.
  destruct (urlencode_items d) as [l|] eqn:E; [|discriminate].
  cbv beta iota delta [rbind]. intros H. apply OK_inj in H. subst q.
  intros Hc. apply in_join in Hc as [-> | (f & Hf & Hc)].
  - apply mem_iff. reflexivity.
  - exact (@urlencode_items_chars d l f c E Hf Hc).
Qed.

Lemma in_optional (x c : char) (s : str) :
  In x (optional c s) <-> s <> [] /\ (x = c \/ In x s).
Proof.
  destruct s as [|y s]; simpl.
  - split; [intros [] | intros [H _]; congruence].
  - split.
    + intros [H | H]; (split; [discriminate|]); auto.
    + intros [_ [H | H]]; auto.
Qed.

(** A link keeps clear of line breaks when its query is replaced by one that
    holds none. *)
Lemma link_no_line_breaks (sch netloc path q q' fragment : str) :
  NoLineBreaks (link sch netloc path q fragment) -> NoLineBreaks q' ->
  NoLineBreaks (link sch netloc path q' fragment).
Proof.
  intros H Hq' c Hc. unfold link in *.
  assert (Hin : forall x,
             In x sch \/ In x (lit "://") \/ In x netloc \/ In x path
             \/ In x (optional (ch "#") fragment) ->
             In x (sch ++ lit "://" ++ netloc ++ path
                   ++ optional (ch "?") q ++ optional (ch "#") fragment)).
  { intros x Hx. rewrite !in_app_iff. tauto. }
  rewrite !in_app_iff in Hc.
  destruct Hc as [Hc | [Hc | [Hc | [Hc | [Hc | Hc]]]]];
    try (apply H, Hin; tauto).
  apply in_optional in Hc as [_ [-> | Hc]];
    [repeat split; discriminate | apply Hq', Hc].
Qed.

(** X9.  On a link [<scheme>://<netloc><path>?<query>#<fragment>] with a
    plain network location and path and any query, the fallback is
    idempotent: what it returns is a link of the same scheme, network
    location, path and fragment, and the fallback applied to it returns it
    unchanged. *)
Theorem fallback_is_idempotent
    (sch netloc path q fragment out : str) :
  sch = lit "http" \/ sch = lit "https" ->
  PlainNetloc netloc -> PlainPath path -> ~ In (ch "#") q ->
  NoLineBreaks (link sch netloc path q fragment) ->
  ensure_download_param_fallback (link sch netloc path q fragment) = OK out ->
  (exists q', out = link sch netloc path q' fragment)
  /\ ensure_download_param_fallback out = OK out.
Proof.
  intros Hsch Hnet Hpath Hq Hlb Hout.
  pose proof (@UrlFacts.urlparse_link _ sch netloc path q fragment
                Hsch Hnet Hpath Hq Hlb) as Hp.
  rewrite (fallback_unfolded _ Hp) in Hout.
  cbn [scheme Urllib.netloc Urllib.path params query Urllib.fragment] in Hout.
  destruct (read_dictionary q) as [Hnd Hv].
  set (read := Dict.of_pairs (parse_qsl q)) in *.
  destruct (written_dictionary_spec Hnd Hv) as (Hnd' & Hv' & Hdl & _ & _).
  destruct (urlencode (written_dictionary read)) as [q'|e] eqn:Eq;
    [|discriminate].
  cbv beta iota delta [rbind] in Hout. apply OK_inj in Hout.
  rewrite UrlFacts.urlunparse_link in Hout;
    [| exact Hsch | apply Hnet | apply Hpath ].
  subst out. split; [exists q'; reflexivity|].
  assert (Hchars : forall c, In c q' ->
                             c <> ch "#" /\ c <> 9%N /\ c <> 10%N /\ c <> 13%N).
  { intros c Hc. apply (@urlencode_chars _ _ c Eq) in Hc.
    assert (T : (negb (c =? ch "#") && negb (c =? 9) && negb (c =? 10)
                 && negb (c =? 13))%N = true).
    { revert c Hc. apply forallb_forall. reflexivity. }
    rewrite !andb_true_iff, !negb_true_iff, !N.eqb_neq in T. tauto. }
  assert (Hp' : urlparse (link sch netloc path q' fragment)
                = OK (mkParse sch netloc path [] q' fragment)).
  { apply UrlFacts.urlparse_link; try assumption.
    - intros Hin. apply Hchars in Hin. tauto.
    - apply (@link_no_line_breaks sch netloc path q q' fragment Hlb).
      intros c Hc. apply Hchars in Hc. tauto. }
  rewrite (fallback_unfolded _ Hp').
  cbn [scheme Urllib.netloc Urllib.path params query Urllib.fragment].
  rewrite (@RoundTrip.written_query_reads_back _ _ Hnd' Hv' Eq).
  assert (Hfix : written_dictionary (written_dictionary read)
                 = written_dictionary read).
  { unfold written_dictionary at 1. rewrite Hdl. reflexivity. }
  rewrite Hfix, Eq. cbv beta iota delta [rbind]. f_equal.
  apply UrlFacts.urlunparse_link; [exact Hsch | apply Hnet | apply Hpath].
Qed.

End Fallback.

(** ** What can fail in the personal rule *)

Module EncodeFacts.
Import Urllib.
Local Open Scope N_scope.

Lemma encodable_range (c : char) :
  c < 55296 \/ (57343 < c /\ c < 1114112) -> Utf8.encode_char c <> None.
Proof.
  intros H. unfold Utf8.encode_char.
  destruct (c <? 128); [discriminate|].
  destruct (c <? 2048); [discriminate|].
  destruct ((55296 <=? c) && (c <=? 57343)) eqn:E.
  - apply andb_true_iff in E as [E1 E2]. apply N.leb_le in E1, E2. lia.
  - destruct (c <? 65536); [discriminate|].
    destruct (c <? 1114112) eqn:E5; [discriminate|].
    apply N.ltb_ge in E5.
    apply andb_false_iff in E as [E | E]; apply N.leb_gt in E; lia.
Qed.

Ltac to_props :=
  repeat match goal with
    | H : (_ <? _) = true |- _ => apply N.ltb_lt in H
    | H : (_ <? _) = false |- _ => apply N.ltb_ge in H
    | H : (_ =? _) = true |- _ => apply N.eqb_eq in H
    | H : (_ =? _) = false |- _ => apply N.eqb_neq in H
    | H : (_ <=? _) = true |- _ => apply N.leb_le in H
    | H : (_ <=? _) = false |- _ => apply N.leb_gt in H
    | H : (_ && _) = true |- _ => apply andb_true_iff in H; destruct H
    | H : (_ || _) = false |- _ => apply orb_false_iff in H; destruct H
    | H : negb _ = false |- _ => apply negb_false_iff in H
    | H : negb _ = true |- _ => apply negb_true_iff in H
    | H : Utf8.is_cont _ = true |- _ => unfold Utf8.is_cont in H
    | H : (if ?b then _ else _) = false |- _ => destruct b eqn:?
    end.

(** Whatever the bytes, what [decode] reads can be encoded again. *)
Lemma decode_chars (bs : list N) (c : char) :
  In c (Utf8.decode bs) -> Utf8.encode_char c <> None.
Proof.
  assert (G : forall n bs, (length bs <= n)%nat ->
                           forall c, In c (Utf8.decode bs) ->
                                     Utf8.encode_char c <> None).
  { clear bs c. induction n as [|n IH]; intros bs Hlen c Hc.
    - destruct bs; [destruct Hc | simpl in Hlen; lia].
    - destruct bs as [|b0 r0]; [destruct Hc|].
      cbn [Utf8.decode] in Hc. cbn [length] in Hlen.
      repeat match type of Hc with
             | context [match ?l with [] => _ | _ :: _ => _ end] =>
                 is_var l; destruct l; cbn [length] in Hlen
             | context [if ?b then _ else _] => destruct b eqn:?
             end;
      (destruct Hc as [<- | Hc];
       [ | first [ destruct Hc
               | eapply IH; [|exact Hc]; cbn [length]; lia ] ]).
      all: try (apply encodable_range; to_props; lia).
      all: change (Utf8.encode_char 65533 <> None); vm_compute; discriminate.
  }
  exact (G (length bs) bs (le_n _) c).
Qed.


Lemma encodable_cons (c : char) (s : str) :
  Encodable (c :: s) <-> Utf8.encode_char c <> None /\ Encodable s.
Proof.
  unfold Encodable. split.
  - intros H. split; [apply H; left; reflexivity|].
    intros x Hx. apply H. right. exact Hx.
  - intros [Hc Hs] x [<- | Hx]; auto.
Qed.

Lemma encodable_app (a b : str) :
  Encodable (a ++ b) <-> Encodable a /\ Encodable b.
Proof.
  unfold Encodable. split.
  - intros H. split; intros x Hx; apply H, in_or_app; auto.
  - intros [Ha Hb] x Hx. apply in_app_or in Hx as [Hx | Hx]; auto.
Qed.

Lemma encodable_part (s t : str) :
  (forall c, In c t -> In c s) -> Encodable s -> Encodable t.
Proof. intros Hsub Hs c Hc. apply Hs, Hsub, Hc. Qed.

(** [encode] fails on the strings that are not encodable, and on no
    others, with a [UnicodeEncodeError]. *)
Lemma encode_outcome (s : str) :
  (Encodable s /\ exists bs, Utf8.encode s = OK bs)
  \/ (~ Encodable s /\ Utf8.encode s = Raise UnicodeEncodeError).
Proof.
  induction s as [|c s IH]; cbn [Utf8.encode].
  - left. split; [intros c [] | eauto].
  - destruct (Utf8.encode_char c) as [cs|] eqn:Ec.
    + destruct IH as [[Hs [bs ->]] | [Hs ->]]; cbv beta iota delta [rbind].
      * left. split; [|eauto]. apply encodable_cons. split; [congruence | exact Hs].
      * right. split; [|reflexivity]. intros H. apply encodable_cons in H. tauto.
    + right. split; [|reflexivity]. intros H. apply encodable_cons in H. tauto.
Qed.

Lemma quote_outcome (s safe : str) :
  (Encodable s /\ exists q, quote s safe = OK q)
  \/ (~ Encodable s /\ quote s safe = Raise UnicodeEncodeError).
Proof.
  destruct s as [|c s]; [left; split; [intros c [] | cbn; eauto]|].
  unfold quote.
  destruct (encode_outcome (c :: s)) as [[Hs [bs ->]] | [Hs ->]];
    cbv beta iota delta [rbind]; [left | right]; eauto.
Qed.

Lemma quote_plus_outcome (s : str) :
  (Encodable s /\ exists q, quote_plus s = OK q)
  \/ (~ Encodable s /\ quote_plus s = Raise UnicodeEncodeError).
Proof.
  unfold quote_plus. destruct (negb (PyStr.mem (ch " ") s)).
  - apply quote_outcome.
  - destruct (quote_outcome s [ch " "]) as [[Hs [q ->]] | [Hs ->]];
      cbv beta iota delta [rbind]; [left | right]; eauto.
Qed.

Lemma urlencode_items_outcome (d : Dict.t) :
  ((forall k v, In (k, v) d -> Encodable k /\ Encodable v)
   /\ exists l, urlencode_items d = OK l)
  \/ ((exists k v, In (k, v) d /\ ~ (Encodable k /\ Encodable v))
      /\ urlencode_items d = Raise UnicodeEncodeError).
Proof.
  induction d as [|[k v] d IH]; cbn [urlencode_items].
  - left. split; [intros k v [] | eauto].
  - destruct (quote_plus_outcome k) as [[Hk [k' ->]] | [Hk ->]];
      cbv beta iota delta [rbind].
    2:{ right. split; [|reflexivity]. exists k, v.
        split; [left; reflexivity | tauto]. }
    destruct (quote_plus_outcome v) as [[Hv [v' ->]] | [Hv ->]];
      cbv beta iota delta [rbind].
    2:{ right. split; [|reflexivity]. exists k, v.
        split; [left; reflexivity | tauto]. }
    destruct IH as [[Hd [l ->]] | [(a & b & Hin & Hab) ->]];
      cbv beta iota delta [rbind].
    + left. split; [|eauto]. intros a b [H | H]; [|auto].
      injection H as <- <-. auto.
    + right. split; [|reflexivity]. exists a, b. split; [right; exact Hin | exact Hab].
Qed.

(** [urlencode] fails only with a [UnicodeEncodeError], and only on a
    dictionary with a key or a value that is not encodable. *)
Lemma urlencode_outcome (d : Dict.t) :
  ((forall k v, In (k, v) d -> Encodable k /\ Encodable v)
   /\ exists q, urlencode d = OK q)
  \/ ((exists k v, In (k, v) d /\ ~ (Encodable k /\ Encodable v))
      /\ urlencode d = Raise UnicodeEncodeError).
Proof.
  unfold urlencode.
  destruct (urlencode_items_outcome d) as [[Hd [l ->]] | [Hd ->]];
    cbv beta iota delta [rbind]; [left | right]; eauto.
Qed.

Lemma unquote_runs_chars (s run : str) :
  Encodable s -> Encodable (unquote_runs run s).
Proof.
  revert run. induction s as [|c s IH]; intros run Hs; cbn [unquote_runs].
  - intros x Hx. exact (@decode_chars _ _ Hx).
  - apply encodable_cons in Hs as [Hc Hs].
    destruct (c <? 128); [apply IH, Hs|].
    apply encodable_app. split; [intros x Hx; exact (@decode_chars _ _ Hx)|].
    apply encodable_cons. split; [exact Hc | apply IH, Hs].
Qed.

Lemma unquote_plus_chars (s : str) :
  Encodable s -> Encodable (unquote_plus s).
Proof.
  intros Hs. unfold unquote_plus, unquote.
  assert (Hr : Encodable (PyStr.replace (ch "+") (ch " ") s)).
  { intros x Hx. unfold PyStr.replace in Hx. apply in_map_iff in Hx as (y & <- & Hy).
    destruct (y =? ch "+"); [vm_compute; discriminate | apply Hs, Hy]. }
  destruct (negb (PyStr.mem (ch "%") (PyStr.replace (ch "+") (ch " ") s)));
    [exact Hr | apply unquote_runs_chars, Hr].
Qed.

Lemma in_joined (sep : str) (l : list str) (f : str) (x : char) :
  In f l -> In x f -> In x (PyStr.join sep l).
Proof.
  induction l as [|y l IH]; [intros []|].
  intros Hf Hx. destruct l as [|z l].
  - destruct Hf as [-> | []]. exact Hx.
  - rewrite join_cons by discriminate. apply in_or_app.
    destruct Hf as [-> | Hf]; [left; exact Hx|].
    right. apply in_or_app. right. apply IH; assumption.
Qed.

Lemma parse_qsl_chars (q k v : str) :
  Encodable q -> In (k, v) (parse_qsl q) -> Encodable k /\ Encodable v.
Proof.
  intros Hq Hin. unfold parse_qsl in Hin.
  apply in_flat_map in Hin as (f & Hf & Hin).
  assert (Hfq : Encodable f).
  { apply (encodable_part (s := q)); [|exact Hq]. intros x Hx.
    unfold query_args in Hf. destruct q as [|q0 q]; [destruct Hf|].
    rewrite <- (proj1 (join_split (ch "&") (q0 :: q))).
    exact (@in_joined _ _ _ _ Hf Hx). }
  apply QueryFacts.parse_field_inv in Hin as (raw & (k0 & -> & _ & <- & _) & ->).
  apply encodable_app in Hfq as [Hk0 Hraw].
  apply encodable_cons in Hraw as [_ Hraw].
  split; apply unquote_plus_chars; assumption.
Qed.

Lemma set_items (d : Dict.t) (k v a b : str) :
  In (a, b) (Dict.set d k v) -> In (a, b) d \/ (a, b) = (k, v).
Proof.
  induction d as [|[k' v'] d IH]; cbn [Dict.set].
  - intros [H | []]. right. symmetry. exact H.
  - destruct (PyStr.eqb k' k) eqn:E.
    + intros [H | H]; [|left; right; exact H].
      apply eqb_eq in E. subst k'. right. symmetry. exact H.
    + intros [H | H]; [left; left; exact H|].
      destruct (IH H) as [H' | H']; [left; right; exact H' | right; exact H'].
Qed.

Lemma of_pairs_items (l : list (str * str)) (a b : str) :
  In (a, b) (Dict.of_pairs l) -> In (a, b) l.
Proof.
  unfold Dict.of_pairs.
  assert (G : forall d,
             In (a, b) (fold_left (fun d kv => Dict.set d (fst kv) (snd kv)) l d) ->
             In (a, b) d \/ In (a, b) l).
  { induction l as [|[k v] l IH]; intros d; cbn [fold_left fst snd]; [auto|].
    intros H. destruct (IH _ H) as [H' | H']; [|right; right; exact H'].
    destruct (@set_items _ _ _ _ _ H') as [H2 | H2]; [left; exact H2|].
    right. left. symmetry. exact H2. }
  intros H. destruct (G [] H) as [[] | H']. exact H'.
Qed.

End EncodeFacts.

Section PersonalFailures.
Context {BH : BracketedHosts}.
Import Urllib.

Lemma lstrip_in (chars s : str) (c : char) :
  In c (PyStr.lstrip chars s) -> In c s.
Proof.
  induction s as [|x s IH]; cbn [PyStr.lstrip]; [auto|].
  destruct (PyStr.mem x chars); [intros H; right; exact (IH H) | auto].
Qed.

Lemma unsafe_removed_in (s : str) (c : char) :
  In c (fold_left (fun u b => PyStr.remove b u) _UNSAFE_URL_BYTES_TO_REMOVE s) ->
  In c s.
Proof.
  unfold _UNSAFE_URL_BYTES_TO_REMOVE, PyStr.remove. cbn [fold_left].
  intros H. repeat (apply filter_In in H as [H _]). exact H.
Qed.

Lemma skipn_in (n : nat) (s : str) (c : char) : In c (skipn n s) -> In c s.
Proof.
  intros H. rewrite <- (firstn_skipn n s). apply in_or_app. right. exact H.
Qed.

Lemma split_scheme_in (u sch r : str) (c : char) :
  split_scheme u = (sch, r) -> In c r -> In c u.
Proof.
  unfold split_scheme.
  destruct (PyStr.find (ch ":") u) as [[|i]|]; destruct u as [|c0 u'];
    try (intros H; apply pair_equal_spec in H as [_ <-]; auto; fail).
  destruct (is_ascii_alpha c0
            && forallb (fun c => PyStr.mem c scheme_chars) (firstn (S i) (c0 :: u')));
    intros H; apply pair_equal_spec in H as [_ <-]; [apply skipn_in | auto].
Qed.

Lemma split_netloc_in (u n r : str) (c : char) :
  split_netloc u = OK (n, r) -> In c r -> In c u.
Proof.
  unfold split_netloc.
  destruct (PyStr.eqb (firstn 2 u) (lit "//")).
  - unfold _splitnetloc.
    match goal with
    | |- context [skipn ?D u] => generalize D
    end.
    intros delim.
    match goal with
    | |- context [negb ?A] => generalize A
    end.
    match goal with
    | |- context [?A && negb _ || _] => generalize A
    end.
    intros has_open has_close.
    destruct (has_open && negb has_close || has_close && negb has_open);
      [discriminate|].
    destruct (has_open && has_close).
    + destruct (check_bracketed_netloc _); [discriminate|].
      intros H. apply OK_inj, pair_equal_spec in H as [_ <-]. apply skipn_in.
    + intros H. apply OK_inj, pair_equal_spec in H as [_ <-]. apply skipn_in.
  - intros H. apply OK_inj, pair_equal_spec in H as [_ <-]. auto.
Qed.

Lemma split_at_in (c : char) (u a b : str) (x : char) :
  split_at c u = (a, b) -> In x a \/ In x b -> In x u.
Proof.
  unfold split_at. destruct (PyStr.mem c u).
  - destruct (PyStr.partition c u) as [[a' found] b'] eqn:E.
    intros [= <- <-]. apply HostFacts.partition_decompose in E.
    rewrite E, !in_app_iff. tauto.
  - intros [= <- <-] [H | []]. exact H.
Qed.

(** The query that [urlparse] finds is made of characters of the URL. *)
Lemma urlparse_query_in (url : str) (p : ParseResult) (c : char) :
  urlparse url = OK p -> In c (query p) -> In c url.
Proof.
  unfold urlparse, urlsplit.
  set (u1 := PyStr.lstrip _WHATWG_C0_CONTROL_OR_SPACE url).
  set (u2 := fold_left (fun u b => PyStr.remove b u)
                       _UNSAFE_URL_BYTES_TO_REMOVE u1).
  destruct (split_scheme u2) as [sch u3] eqn:E3.
  destruct (split_netloc u3) as [[n u4]|e] eqn:E4; [|discriminate].
  cbv beta iota delta [rbind].
  destruct (split_at (ch "#") u4) as [u5 fr] eqn:E5.
  destruct (split_at (ch "?") u5) as [u6 q] eqn:E6.
  destruct (_checknetloc n); [|discriminate].
  cbn [s_scheme s_netloc s_path s_query s_fragment].
  destruct (if in_list sch uses_params && PyStr.mem (ch ";") u6
            then _splitparams u6 else (u6, [])) as [u7 ps].
  intros H. apply OK_inj in H. subst p. cbn [query]. intros Hc.
  apply (@lstrip_in _WHATWG_C0_CONTROL_OR_SPACE), unsafe_removed_in.
  fold u1. fold u2.
  apply (@split_scheme_in u2 sch u3 c E3), (@split_netloc_in u3 n u4 c E4).
  apply (@split_at_in (ch "#") u4 u5 fr c E5). left.
  apply (@split_at_in (ch "?") u5 u6 q c E6). right. exact Hc.
Qed.

(** [urlparse] fails with a [ValueError] only. *)
Lemma urlparse_raises (url : str) (e : exn) :
  urlparse url = Raise e -> exists msg, e = ValueError msg.
Proof.
  unfold urlparse, urlsplit.
  match goal with
  | |- context [split_scheme ?u] => destruct (split_scheme u) as [sch u3]
  end.
  assert (Hn : forall r, split_netloc u3 = Raise r -> exists msg, r = ValueError msg).
  { unfold split_netloc. destruct (PyStr.eqb (firstn 2 u3) (lit "//"));
      [|discriminate].
    destruct (_splitnetloc u3 2) as [n r0].
    destruct (PyStr.mem (ch "[") n && negb (PyStr.mem (ch "]") n)
              || PyStr.mem (ch "]") n && negb (PyStr.mem (ch "[") n)).
    - intros r [= <-]. eauto.
    - destruct (PyStr.mem (ch "[") n && PyStr.mem (ch "]") n); [|discriminate].
      destruct (check_bracketed_netloc n); [|discriminate].
      intros r [= <-]. eauto. }
  destruct (split_netloc u3) as [[n u4]|r]; cbv beta iota delta [rbind].
  2:{ intros [= <-]. apply Hn. reflexivity. }
  destruct (split_at (ch "#") u4) as [u5 fr].
  destruct (split_at (ch "?") u5) as [u6 q].
  assert (Hc : forall r, _checknetloc n = Raise r -> exists msg, r = ValueError msg).
  { unfold _checknetloc.
    destruct (match n with [] => true | _ => false end || PyStr.isascii n);
      [discriminate|].
    destruct (existsb (fun c => PyStr.mem c nfkc_delimiters) n); [|discriminate].
    intros r [= <-]. eauto. }
  destruct (_checknetloc n) as [[]|r]; cbv beta iota delta [rbind].
  2:{ intros [= <-]. apply Hc. reflexivity. }
  cbn [s_scheme s_netloc s_path s_query s_fragment].
  destruct (if in_list sch uses_params && PyStr.mem (ch ";") u6
            then _splitparams u6 else (u6, [])).
  discriminate.
Qed.

(** The key or value that makes the fallback fail comes from the query. *)
Lemma written_dictionary_chars (q : str) (k v : str) :
  Encodable q ->
  In (k, v) (written_dictionary (Dict.of_pairs (parse_qsl q))) ->
  Encodable k /\ Encodable v.
Proof.
  intros Hq Hin. unfold written_dictionary in Hin.
  assert (Hread : In (k, v) (Dict.of_pairs (parse_qsl q)) ->
                  Encodable k /\ Encodable v).
  { intros H. apply EncodeFacts.of_pairs_items in H.
    exact (@EncodeFacts.parse_qsl_chars q k v Hq H). }
  destruct (negb (existsb (fun k => PyStr.eqb (PyStr.lower k) (lit "download"))
                          (Dict.keys (Dict.of_pairs (parse_qsl q)))));
    [|auto].
  apply EncodeFacts.set_items in Hin as [Hin | Hin]; [auto|].
  injection Hin as -> ->.
  split; intros c Hc; simpl in Hc;
    repeat (destruct Hc as [<- | Hc]; [vm_compute; discriminate|]);
    contradiction.
Qed.

Lemma fallback_outcome (url : str) (p : ParseResult) :
  urlparse url = OK p ->
  (exists out, ensure_download_param_fallback url = OK out)
  \/ (~ Encodable url
      /\ ensure_download_param_fallback url = Raise UnicodeEncodeError).
Proof.
  intros Hp. rewrite (@fallback_unfolded _ url p Hp).
  destruct (EncodeFacts.urlencode_outcome
              (written_dictionary (Dict.of_pairs (parse_qsl (query p)))))
    as [[_ [q ->]] | [(k & v & Hin & Hbad) ->]]; cbv beta iota delta [rbind].
  - left. eauto.
  - right. split; [|reflexivity]. intros Hurl. apply Hbad.
    apply (@written_dictionary_chars (query p)); [|exact Hin].
    intros c Hc. apply Hurl. exact (@urlparse_query_in url p c Hp Hc).
Qed.

(** X10.  The personal rule and the fallback fail in two ways only: with the
    [ValueError] of [urlparse] on the URL, or with a [UnicodeEncodeError]
    when the URL holds a character that UTF-8 cannot encode (a lone
    surrogate).  They never raise the error of this program, and on a URL
    that parses and can be encoded they always return a link. *)
Theorem personal_rule_failures (url : str) (e : exn) :
  convert_personal_onedrive_to_direct_link url = Raise e
  \/ ensure_download_param_fallback url = Raise e ->
  ((exists msg, e = ValueError msg) /\ urlparse url = Raise e)
  \/ (e = UnicodeEncodeError /\ ~ Encodable url
      /\ exists p, urlparse url = OK p).
Proof.
  intros H. destruct (urlparse url) as [p|e0] eqn:Hp.
  - right.
    assert (Hf : ensure_download_param_fallback url = Raise e).
    { destruct H as [H | H]; [|exact H].
      unfold convert_personal_onedrive_to_direct_link in H. rewrite Hp in H.
      cbv beta iota delta [rbind] in H.
      destruct (Dict.get _ (lit "redeem")); [discriminate|].
      destruct (Dict.get _ (lit "resid")); [|exact H].
      destruct (Dict.get _ (lit "authkey")); [discriminate | exact H]. }
    destruct (@fallback_outcome url p Hp) as [[out Hout] | [Hbad Hraise]];
      [congruence|].
    split; [congruence|]. split; [exact Hbad | eauto].
  - left.
    assert (e = e0) as ->.
    { destruct H as [H | H];
        [unfold convert_personal_onedrive_to_direct_link in H
        |unfold ensure_download_param_fallback in H];
        rewrite Hp in H; cbv beta iota delta [rbind] in H; congruence. }
    split; [exact (@urlparse_raises url e0 Hp) | reflexivity].
Qed.

End PersonalFailures.

(** ** The page of the converter *)

Section Handler.
Context {BH : BracketedHosts}.
Import Urllib.

Lemma lstrip_nil_iff (chars s : str) :
  PyStr.lstrip chars s = [] <-> forall c, In c s -> In c chars.
Proof.
  induction s as [|x s IH]; cbn [PyStr.lstrip].
  - split; [intros _ c [] | reflexivity].
  - destruct (PyStr.mem x chars) eqn:E.
    + rewrite IH. apply mem_iff in E. split.
      * intros H c [<- | Hc]; auto.
      * intros H c Hc. apply H. right. exact Hc.
    + split; [discriminate|]. intros H. apply mem_false_iff in E.
      destruct E. apply H. left. reflexivity.
Qed.

(** What [lstrip] leaves does not start with a character it strips. *)
Lemma lstrip_head (chars s : str) (x : char) (r : str) :
  PyStr.lstrip chars s = x :: r -> ~ In x chars.
Proof.
  induction s as [|y s IH]; cbn [PyStr.lstrip]; [discriminate|].
  destruct (PyStr.mem y chars) eqn:E; [exact IH|].
  intros [= -> _]. apply mem_false_iff, E.
Qed.

(** [strip] leaves nothing exactly of the strings of whitespace. *)
Lemma strip_nil_iff (s : str) :
  strip s = [] <-> forall c, In c s -> In c whitespace.
Proof.
  unfold strip. split.
  - intros H. apply (f_equal (@rev char)) in H. rewrite rev_involutive in H.
    cbn [rev] in H.
    destruct (PyStr.lstrip whitespace s) as [|x r] eqn:E;
      [apply lstrip_nil_iff, E|].
    exfalso. apply (lstrip_head _ _ E).
    apply (proj1 (lstrip_nil_iff whitespace (rev (x :: r))) H).
    apply in_rev. rewrite rev_involutive. left. reflexivity.
  - intros H. rewrite (proj2 (lstrip_nil_iff whitespace s) H). reflexivity.
Qed.

Lemma blank_page_iff (share_url : str) :
  share_url = []
  <-> match share_url with
      | [] =>
          Ret (OK (mkPage None (Some (Utf8.text "请填写分享链接"))
                          (Some share_url)))
      | _ =>
          bind (parse_onedrive_direct_link share_url 15) (fun r =>
            match r with
            | OK direct =>
                Ret (OK (mkPage (Some direct) None (Some share_url)))
            | Raise (OneDriveLinkError msg) =>
                Ret (OK (mkPage None (Some msg) (Some share_url)))
            | Raise e => Ret (Raise e)
            end)
      end
      = Ret (OK (mkPage None (Some (Utf8.text "请填写分享链接")) (Some []))).
Proof.
  generalize (Utf8.text "请填写分享链接"). intros fill.
  destruct share_url as [|x r].
  - split; reflexivity.
  - split; [discriminate|]. intros H. exfalso.
    destruct (parse_onedrive_direct_link (x :: r) 15) as [[d|[m|m| |m]]| | |];
      cbn [bind] in H; congruence.
Qed.

(** X11.  The handler answers with the page that asks for a link, without
    calling the classifier, so without any request, exactly when the field
    is absent or holds whitespace only. *)
Theorem blank_input_is_not_parsed (form_share_url : option str) :
  (forall c,
      In c (match form_share_url with Some s => s | None => [] end) ->
      In c whitespace)
  <-> index_post form_share_url
      = Ret (OK (mkPage None (Some (Utf8.text "请填写分享链接")) (Some []))).
Proof.
  rewrite <- strip_nil_iff. unfold index_post. cbv zeta.
  destruct (blank_page_iff
              (strip match form_share_url with Some s => s | None => [] end))
    as [H1 H2].
  split; intros E; [exact (H1 E) | apply H2; exact E].
Qed.

Lemma Raise_inj {A} (e e' : exn) : @Raise A e = Raise e' -> e = e'.
Proof. intros H. injection H. auto. Qed.

Lemma normalize_url_raises (net : network) (url : str) (timeout : N) (e : exn) :
  fst (run net (normalize_url url timeout)) = Raise e ->
  (exists description,
      (net_head net url timeout = RequestException description
       \/ net_get net url timeout = RequestException description)
      /\ e = expand_failed description)
  \/ (exists description,
        (net_head net url timeout = OtherException description
         \/ net_get net url timeout = OtherException description)
        /\ e = OtherError description).
Proof.
  unfold normalize_url. cbn [run].
  destruct (net_head net url timeout) as [resp|exc|exc]; cbn [run fst].
  - destruct ((status_code resp =? 405)%N || (status_code resp =? 403)%N
              || is_redirect resp); cbn [run fst]; [|discriminate].
    destruct (net_get net url timeout) as [resp'|exc'|exc']; cbn [run fst];
      [discriminate| |].
    + intros H. apply Raise_inj in H. subst e. left. exists exc'.
      split; [right; reflexivity | reflexivity].
    + intros H. apply Raise_inj in H. subst e. right. exists exc'.
      split; [right; reflexivity | reflexivity].
  - intros H. apply Raise_inj in H. subst e. left. exists exc.
    split; [left; reflexivity | reflexivity].
  - intros H. apply Raise_inj in H. subst e. right. exists exc.
    split; [left; reflexivity | reflexivity].
Qed.

Lemma personal_raises (url : str) (e : exn) :
  convert_personal_onedrive_to_direct_link url = Raise e ->
  (exists msg, e = ValueError msg) \/ e = UnicodeEncodeError.
Proof.
  intros H. destruct (urlparse url) as [p|e0] eqn:Hp.
  - right. unfold convert_personal_onedrive_to_direct_link in H.
    rewrite Hp in H. cbv beta iota delta [rbind] in H.
    assert (Hf : ensure_download_param_fallback url = Raise e).
    { destruct (Dict.get _ (lit "redeem")); [discriminate|].
      destruct (Dict.get _ (lit "resid")); [|exact H].
      destruct (Dict.get _ (lit "authkey")); [discriminate | exact H]. }
    destruct (@fallback_outcome _ url p Hp) as [[out Hout] | [_ Hraise]];
      congruence.
  - left. unfold convert_personal_onedrive_to_direct_link in H.
    rewrite Hp in H. cbv beta iota delta [rbind] in H.
    assert (e = e0) as -> by congruence.
    exact (@urlparse_raises _ url e0 Hp).
Qed.

(** The errors of the classifier. *)
Lemma classifier_raises (net : network) (url : str) (timeout : N) (e : exn) :
  fst (run net (parse_onedrive_direct_link url timeout)) = Raise e ->
  e = malformed_input \/ e = unsupported_host
  \/ e = OneDriveLinkError (sharepoint_format_message ++ url)
  \/ (exists description,
        (net_head net url timeout = RequestException description
         \/ net_get net url timeout = RequestException description)
        /\ e = expand_failed description)
  \/ (exists msg, e = ValueError msg) \/ e = UnicodeEncodeError
  \/ (exists description,
        (net_head net url timeout = OtherException description
         \/ net_get net url timeout = OtherException description)
        /\ e = OtherError description).
Proof.
  unfold parse_onedrive_direct_link.
  destruct (Re.match_scheme url); cbv beta iota delta [negb].
  2:{ cbn [run fst]. intros H. apply Raise_inj in H. subst e.
      left. reflexivity. }
  destruct (is_onedrive_supported_host url) as [[|]|e0] eqn:Hs.
  - destruct (urlparse url) as [p|e0] eqn:Hp.
    + destruct (existsb (fun domain => PyStr.contains domain (PyStr.lower (netloc p)))
                        sharepoint_markers).
      * cbn [run fst]. unfold convert_sharepoint_to_direct_link. rewrite Hp.
        cbv beta iota delta [rbind].
        destruct (Re.search_share (path p)) as [[u t]|]; [discriminate|].
        intros H. apply Raise_inj in H. subst e.
        right. right. left. reflexivity.
      * rewrite fst_run_bind.
        rewrite (proj1 (personal_continuation_run net _)).
        destruct (fst (run net (normalize_url url timeout))) as [x|e0] eqn:En;
          cbv beta iota delta [rbind].
        -- intros H. destruct (@personal_raises x e H) as [H' | H'].
           ++ right. right. right. right. left. exact H'.
           ++ right. right. right. right. right. left. exact H'.
        -- intros H. apply Raise_inj in H. subst e0.
           destruct (@normalize_url_raises net url timeout e En) as [H' | H'].
           ++ right. right. right. left. exact H'.
           ++ right. right. right. right. right. right. exact H'.
    + cbn [run fst]. intros H. apply Raise_inj in H. subst e0.
      right. right. right. right. left. exact (@urlparse_raises _ url e Hp).
  - cbn [run fst]. intros H. apply Raise_inj in H. subst e.
    right. left. reflexivity.
  - cbn [run fst]. intros H. apply Raise_inj in H. subst e0.
    right. right. right. right. left.
    unfold is_onedrive_supported_host in Hs.
    destruct (urlparse url) as [p|e1] eqn:Hp; cbv beta iota delta [rbind] in Hs.
    + destruct (PyStr.lower match hostname p with Some h => h | None => [] end);
        discriminate Hs.
    + apply Raise_inj in Hs. subst e1. exact (@urlparse_raises _ url e Hp).
Qed.

(** X12.  What the handler answers.  A page carries the stripped field back
    and holds either a result, the link the classifier returned for the
    stripped field, or an error, never both; the error is the request for a
    link, one of the two rejections, the format message followed by the
    stripped field, or the text of a [RequestException] of a request for
    the stripped field after its prefix.  An exception leaves the handler
    only as a [ValueError], as a [UnicodeEncodeError], or as the exception
    of another class that a request for the stripped field raised. *)
Theorem index_post_outcomes (net : network) (form_share_url : option str) :
  let share_url :=
    strip (match form_share_url with Some s => s | None => [] end) in
  match fst (run net (index_post form_share_url)) with
  | OK pg =>
      page_form pg = Some share_url
      /\ ((exists direct,
              page_result pg = Some direct /\ page_error pg = None
              /\ share_url <> []
              /\ fst (run net (parse_onedrive_direct_link share_url 15))
                 = OK direct)
          \/ (exists msg,
                 page_result pg = None /\ page_error pg = Some msg
                 /\ ((share_url = [] /\ msg = Utf8.text "请填写分享链接")
                     \/ OneDriveLinkError msg = malformed_input
                     \/ OneDriveLinkError msg = unsupported_host
                     \/ msg = sharepoint_format_message ++ share_url
                     \/ exists description,
                          (net_head net share_url 15
                           = RequestException description
                           \/ net_get net share_url 15
                              = RequestException description)
                          /\ msg = Utf8.text "无法展开链接: " ++ description)))
  | Raise e =>
      (exists msg, e = ValueError msg) \/ e = UnicodeEncodeError
      \/ exists description,
           (net_head net share_url 15 = OtherException description
            \/ net_get net share_url 15 = OtherException description)
           /\ e = OtherError description
  end.
Proof.
  intros share_url. unfold index_post. fold share_url.
  destruct share_url as [|x r] eqn:Es.
  - cbn [run fst page_form page_result page_error].
    split; [reflexivity|]. right. eexists. split; [reflexivity|].
    split; [reflexivity|]. left. split; reflexivity.
  - rewrite fst_run_bind.
    pose proof (@classifier_raises net (x :: r) 15%N) as Herr.
    destruct (fst (run net (parse_onedrive_direct_link (x :: r) 15)))
      as [direct|e].
    + cbn [run fst page_form page_result page_error].
      split; [reflexivity|]. left. exists direct.
      split; [reflexivity|]. split; [reflexivity|].
      split; [discriminate | reflexivity].
    + specialize (Herr e eq_refl).
      destruct Herr
        as [-> | [-> | [-> | [(d & Hd & ->) | [[msg ->] | [-> | (d & Hd & ->)]]]]]];
        cbn [run fst page_form page_result page_error malformed_input
             unsupported_host expand_failed].
      * split; [reflexivity|]. right. eexists. split; [reflexivity|].
        split; [reflexivity|]. right. left. reflexivity.
      * split; [reflexivity|]. right. eexists. split; [reflexivity|].
        split; [reflexivity|]. right. right. left. reflexivity.
      * split; [reflexivity|]. right. eexists. split; [reflexivity|].
        split; [reflexivity|]. right. right. right. left. reflexivity.
      * split; [reflexivity|]. right. eexists. split; [reflexivity|].
        split; [reflexivity|]. right. right. right. right.
        exists d. split; [exact Hd | reflexivity].
      * left. exists msg. reflexivity.
      * right. left. reflexivity.
      * right. right. exists d. split; [exact Hd | reflexivity].
Qed.

(** X13.  The handler makes the requests of the classifier on the stripped
    field and no others: none, one HEAD of the stripped field, or that HEAD
    and one GET of it, with a timeout of 15 seconds. *)
Theorem index_post_requests (net : network) (form_share_url : option str) :
  let share_url :=
    strip (match form_share_url with Some s => s | None => [] end) in
  let requests :=
    filter is_request (snd (run net (index_post form_share_url))) in
  requests = []
  \/ requests = [EvHead share_url 15]
  \/ requests = [EvHead share_url 15; EvGet share_url 15].
Proof.
  intros share_url. unfold index_post. fold share_url.
  destruct share_url as [|x r0]; [left; reflexivity|].
  cbv zeta. rewrite snd_run_bind.
  assert (E : forall r : result str,
             snd (run net
                    match r with
                    | OK direct =>
                        Ret (OK (mkPage (Some direct) None (Some (x :: r0))))
                    | Raise (OneDriveLinkError msg) =>
                        Ret (OK (mkPage None (Some msg) (Some (x :: r0))))
                    | Raise e => Ret (Raise e)
                    end) = []).
  { intros [d|[m|m| |m]]; reflexivity. }
  cbv beta. rewrite E, app_nil_r.
  destruct (@parse_requests _ net (x :: r0) 15%N) as [H | (_ & _ & _ & H)];
    rewrite H; [auto|].
  destruct (normalize_url_events net (x :: r0) 15) as [H' | H']; rewrite H'; auto.
Qed.

End Handler.

(** ** A host with an unmatched bracket *)

Section Brackets.
Context {BH : BracketedHosts}.
Import Urllib.

Lemma unmatched_bracket_split (sch netloc tail : str) :
  sch = lit "http" \/ sch = lit "https" ->
  (forall c, In c netloc -> c <> ch "/" /\ c <> ch "?" /\ c <> ch "#") ->
  Delimited tail ->
  NoLineBreaks (sch ++ lit "://" ++ netloc ++ tail) ->
  (In (ch "[") netloc /\ ~ In (ch "]") netloc)
  \/ (In (ch "]") netloc /\ ~ In (ch "[") netloc) ->
  urlparse (sch ++ lit "://" ++ netloc ++ tail)
  = Raise (ValueError (lit "Invalid IPv6 URL")).
Proof.
  intros Hsch Hnet Htail Hlb Hbr. unfold urlparse, urlsplit.
  change (sch ++ lit "://" ++ netloc ++ tail)
    with (sch ++ ch ":" :: ch "/" :: ch "/" :: netloc ++ tail) in *.
  destruct (UrlFacts.scheme_stage (ch "/" :: ch "/" :: netloc ++ tail) Hsch)
    as [E1 E2].
  rewrite E1, (UrlFacts.remove_unsafe Hlb), E2.
  unfold split_netloc.
  change (PyStr.eqb (firstn 2 (ch "/" :: ch "/" :: netloc ++ tail)) (lit "//"))
    with true. cbv iota.
  rewrite UrlFacts.splitnetloc_spec by assumption.
  assert (T : PyStr.mem (ch "[") netloc && negb (PyStr.mem (ch "]") netloc)
              || PyStr.mem (ch "]") netloc && negb (PyStr.mem (ch "[") netloc)
              = true).
  { destruct Hbr as [[Hin Hout] | [Hin Hout]];
      apply mem_iff in Hin; apply mem_false_iff in Hout;
      rewrite Hin, Hout; [reflexivity | apply orb_true_r]. }
  rewrite T. reflexivity.
Qed.

(** X14.  A link whose network location holds an opening bracket without a
    closing one, or a closing one without an opening one, is not answered
    with an error page: [urlparse] raises [ValueError] in the supported-host
    test, the classifier lets it through, and it leaves the handler, before
    any request. *)
Theorem unmatched_bracket_escapes (sch netloc tail : str) :
  sch = lit "http" \/ sch = lit "https" ->
  (forall c, In c netloc -> c <> ch "/" /\ c <> ch "?" /\ c <> ch "#") ->
  Delimited tail ->
  NoLineBreaks (sch ++ lit "://" ++ netloc ++ tail) ->
  (In (ch "[") netloc /\ ~ In (ch "]") netloc)
  \/ (In (ch "]") netloc /\ ~ In (ch "[") netloc) ->
  let url := sch ++ lit "://" ++ netloc ++ tail in
  (forall timeout,
      parse_onedrive_direct_link url timeout
      = Ret (Raise (ValueError (lit "Invalid IPv6 URL"))))
  /\ (strip url = url ->
      forall net,
        run net (index_post (Some url))
        = (Raise (ValueError (lit "Invalid IPv6 URL")), [])).
Proof.
  intros Hsch Hnet Htail Hlb Hbr url.
  pose proof (@unmatched_bracket_split sch netloc tail Hsch Hnet Htail Hlb Hbr)
    as Hp.
  fold url in Hp.
  assert (Hs : Re.match_scheme url = true).
  { apply match_scheme_iff. unfold url.
    destruct Hsch as [-> | ->]; [left | right];
      apply starts_ignoring_case_iff; reflexivity. }
  assert (Hparse : forall timeout,
             parse_onedrive_direct_link url timeout
             = Ret (Raise (ValueError (lit "Invalid IPv6 URL")))).
  { intros timeout. unfold parse_onedrive_direct_link, is_onedrive_supported_host.
    rewrite Hs, Hp. reflexivity. }
  split; [exact Hparse|].
  intros Hstrip net. unfold index_post. cbv zeta. rewrite Hstrip.
  destruct url as [|x r] eqn:Eu.
  - exfalso. unfold url in Eu. destruct Hsch as [-> | ->]; discriminate Eu.
  - rewrite Hparse. reflexivity.
Qed.

End Brackets.

(** ** What the classifier prints *)

Section Notices.
Context {BH : BracketedHosts}.
Import Urllib.

Lemma personal_continuation_events (net : network) (expanded : result str) :
  snd (run net (personal_continuation expanded))
  = map EvPrint
        match rbind expanded convert_personal_onedrive_to_direct_link with
        | OK direct_link => personal_notice direct_link
        | Raise _ => []
        end.
Proof.
  unfold personal_continuation.
  destruct (rbind expanded convert_personal_onedrive_to_direct_link) as [d|e].
  - rewrite run_print_all. reflexivity.
  - reflexivity.
Qed.

(** X15.  The classifier prints after its requests, and only about a link it
    made for a personal host: its events are its requests followed by the
    notice lines of the link it returns, which are chosen by the text of
    that link; it prints nothing when it fails or when it made no request.
    A link made from a [redeem] parameter always gets the two lines about
    dlink.host. *)
Theorem classifier_prints (net : network) (url : str) (timeout : N) :
  let out := run net (parse_onedrive_direct_link url timeout) in
  let requests := filter is_request (snd out) in
  snd out
  = requests
    ++ map EvPrint
         match fst out, requests with
         | OK direct_link, _ :: _ => personal_notice direct_link
         | _, _ => []
         end
  /\ forall redeem_value,
       personal_notice (lit "https://dlink.host/1drv/" ++ redeem_value)
       = [ Utf8.text "🎉 使用 dlink.host 服务生成真正的无登录直链！";
           Utf8.text "💡 通过提取 redeem 参数实现，这是最有效的方法" ].
Proof.
  split.
  - unfold parse_onedrive_direct_link.
    destruct (Re.match_scheme url); cbv beta iota delta [negb];
      [|reflexivity].
    destruct (is_onedrive_supported_host url) as [[|]|e]; try reflexivity.
    destruct (urlparse url) as [p|e]; [|reflexivity].
    destruct (existsb (fun domain => PyStr.contains domain (PyStr.lower (netloc p)))
                      sharepoint_markers).
    + cbn [run fst snd filter app map].
      destruct (convert_sharepoint_to_direct_link url); reflexivity.
    + rewrite fst_run_bind, snd_run_bind, filter_app.
      rewrite (proj1 (personal_continuation_run net _)).
      rewrite (proj2 (personal_continuation_run net _)), app_nil_r.
      rewrite normalize_url_requests, personal_continuation_events.
      f_equal.
      destruct (normalize_url_events net url timeout) as [E | E]; rewrite E;
        destruct (rbind (fst (run net (normalize_url url timeout)))
                        convert_personal_onedrive_to_direct_link);
        reflexivity.
  - intros redeem_value. unfold personal_notice.
    assert (E : PyStr.contains (lit "dlink.host/1drv/")
                  (lit "https://dlink.host/1drv/" ++ redeem_value) = true).
    { apply contains_iff. exists (lit "https://"), redeem_value. reflexivity. }
    rewrite E. reflexivity.
Qed.

End Notices.

(** ** The folder test *)

Section Folders.
Context {BH : BracketedHosts}.
Import Urllib.

(** X16.  On a link [<scheme>://<netloc><path>?<query>#<fragment>] with a
    plain network location and path, the folder test reads the path alone,
    without regard to case: it answers yes exactly when the lowercased path
    holds [:f:], [:b:] or [forms/allitems.aspx], whatever the host, the
    query and the fragment hold. *)
Theorem folder_test_reads_the_path
    (sch netloc path q fragment : str) :
  sch = lit "http" \/ sch = lit "https" ->
  PlainNetloc netloc -> PlainPath path -> ~ In (ch "#") q ->
  NoLineBreaks (link sch netloc path q fragment) ->
  (exists b, is_folder_link (link sch netloc path q fragment) = OK b)
  /\ (is_folder_link (link sch netloc path q fragment) = OK true
      <-> Occurs (lit ":f:") (PyStr.lower path)
          \/ Occurs (lit ":b:") (PyStr.lower path)
          \/ Occurs (lit "forms/allitems.aspx") (PyStr.lower path)).
Proof.
  intros Hsch Hnet Hpath Hq Hlb. unfold is_folder_link.
  rewrite (@UrlFacts.urlparse_link _ sch netloc path q fragment
             Hsch Hnet Hpath Hq Hlb).
  cbv beta iota delta [rbind]. cbn [Urllib.path].
  rewrite <- !contains_iff.
  destruct (PyStr.contains (lit ":f:") (PyStr.lower path)).
  - split; [eauto | tauto].
  - destruct (PyStr.contains (lit ":b:") (PyStr.lower path)); cbn [orb].
    + split; [eauto | tauto].
    + destruct (PyStr.contains (lit "forms/allitems.aspx") (PyStr.lower path)).
      * split; [eauto | tauto].
      * split; [eauto|]. split; [discriminate|].
        intros [H | [H | H]]; discriminate H.
Qed.

End Folders.

(** * The further properties on concrete inputs *)

(** An enterprise host passes the supported-host test by its ending. *)
Lemma supported_hosts_witness :
  is_onedrive_supported_host (lit "https://Contoso-my.SharePoint.cn/x") = OK true
  <-> exists h,
        Urllib.hostname
          (Urllib.mkParse (lit "https") (lit "Contoso-my.SharePoint.cn")
             (lit "/x") [] [] []) = Some h
        /\ (EndsWith (lit "1drv.ms") (PyStr.lower h)
            \/ EndsWith (lit "onedrive.live.com") (PyStr.lower h)
            \/ EndsWith (lit "sharepoint.com") (PyStr.lower h)
            \/ EndsWith (lit "sharepoint.cn") (PyStr.lower h)).
Proof.
  apply (@supported_hosts _ (lit "https://Contoso-my.SharePoint.cn/x")
           (Urllib.mkParse (lit "https") (lit "Contoso-my.SharePoint.cn")
              (lit "/x") [] [] [])).
  vm_compute. reflexivity.
Defined.

(** An enterprise link goes to the enterprise rule. *)
Lemma sharepoint_hosts_are_enterprise_witness :
  parse_onedrive_direct_link
    (lit "https://contoso.sharepoint.com/:u:/g/personal/a/b") 15
  = Ret (convert_sharepoint_to_direct_link
           (lit "https://contoso.sharepoint.com/:u:/g/personal/a/b")).
Proof.
  apply (@sharepoint_hosts_are_enterprise _
           (lit "https://contoso.sharepoint.com/:u:/g/personal/a/b")
           (Urllib.mkParse (lit "https") (lit "contoso.sharepoint.com")
              (lit "/:u:/g/personal/a/b") [] [] [])
           (lit "contoso.sharepoint.com") 15%N).
  - vm_compute. reflexivity.
  - vm_compute. reflexivity.
  - vm_compute. reflexivity.
  - left. exists (lit "contoso."). vm_compute. reflexivity.
Defined.

(** A short link is expanded: a request is made, and the host ends with
    [1drv.ms]. *)
Lemma requests_only_for_personal_hosts_witness :
  exists h,
    Urllib.hostname
      (Urllib.mkParse (lit "https") (lit "1drv.ms") (lit "/u/s!AkijuZ") [] [] [])
    = Some h
    /\ (EndsWith (lit "1drv.ms") (PyStr.lower h)
        \/ EndsWith (lit "onedrive.live.com") (PyStr.lower h)).
Proof.
  apply (@requests_only_for_personal_hosts _
           (one_page (lit "https://onedrive.live.com/redir?resid=1&authkey=2"))
           (lit "https://1drv.ms/u/s!AkijuZ")
           (Urllib.mkParse (lit "https") (lit "1drv.ms") (lit "/u/s!AkijuZ")
              [] [] [])
           15%N).
  - vm_compute. reflexivity.
  - vm_compute. discriminate.
Defined.

(** Two entries; the second is saved again, then a third url is saved. *)
Lemma save_keeps_other_entries_witness :
  let a := History.mkItem 1 (lit "https://a") (lit "a") (lit "t1") [] in
  let b := History.mkItem 2 (lit "https://b") (lit "b") (lit "t2") [] in
  let b' := History.mkItem 3 (lit "https://b") (lit "again") (lit "t3") [] in
  (In (History.url b') (map History.url [a; b]) -> (0 < 100)%nat ->
   nth_error (History.updated_history [a; b] b') 0 = Some a)
  /\ (~ In (History.url b') (map History.url [a; b]) -> (1 < 100)%nat ->
      nth_error (History.updated_history [a; b] b') 1 = Some a)
  /\ (forall z, In z (History.updated_history [a; b] b') ->
                z = b' \/ In z [a; b]).
Proof.
  intros a b b'.
  apply (@save_keeps_other_entries [a; b] b' a 0%nat).
  - reflexivity.
  - vm_compute. discriminate.
Defined.

(** A first save, with its own id and timestamp, sent twice. *)
Lemma save_twice_is_save_once_witness :
  let now := History.mkClock 1700000000000 (lit "2023-11-14 22:13:20") in
  let later := History.mkClock 1700000060000 (lit "2023-11-14 22:14:20") in
  let d := History.mkRequest (Some 7%Z) (Some (lit "https://a")) None
             (Some (lit "2023-11-14 22:00:00")) None in
  let once := History.save_history now (Some d) History.Written History.Missing in
  fst once = History.Success
  /\ (History.Written <> History.DumpFailed ->
      snd (History.save_history later (Some d) History.Written (snd once))
      = snd once).
Proof.
  intros now later d.
  apply (@save_twice_is_save_once History.Missing now later d History.Written).
  - split; [constructor | simpl; lia].
  - discriminate.
  - left. split; discriminate.
Defined.

(** A query with an escaped space and an escaped plus sign. *)
Lemma fallback_query_reads_back_witness :
  let p := Urllib.mkParse (lit "https") (lit "onedrive.live.com") (lit "/view")
             [] (lit "name=a%20b%2Bc&id=7") [] in
  let read := Dict.of_pairs (Urllib.parse_qsl (Urllib.query p)) in
  exists new_query,
    lit "https://onedrive.live.com/view?name=a+b%2Bc&id=7&download=1"
    = Urllib.urlunparse (Urllib.scheme p) (Urllib.netloc p) (Urllib.path p)
        (Urllib.params p) new_query (Urllib.fragment p)
    /\ ((exists k, In k (Dict.keys read) /\ PyStr.lower k = lit "download") ->
        Dict.of_pairs (Urllib.parse_qsl new_query) = read)
    /\ ((forall k, In k (Dict.keys read) -> PyStr.lower k <> lit "download") ->
        Dict.of_pairs (Urllib.parse_qsl new_query)
        = read ++ [(lit "download", lit "1")]).
Proof.
  intros p.
  apply (@fallback_query_reads_back _
           (lit "https://onedrive.live.com/view?name=a%20b%2Bc&id=7") p
           (lit "https://onedrive.live.com/view?name=a+b%2Bc&id=7&download=1")).
  - vm_compute. reflexivity.
  - vm_compute. reflexivity.
Defined.

(** A link with an escaped space in its query and a fragment. *)
Lemma fallback_is_idempotent_witness :
  let out := link (lit "https") (lit "onedrive.live.com") (lit "/view")
               (lit "name=a+b&download=1") (lit "top") in
  (exists q', out = link (lit "https") (lit "onedrive.live.com") (lit "/view")
                      q' (lit "top"))
  /\ ensure_download_param_fallback out = OK out.
Proof.
  intros out.
  apply (@fallback_is_idempotent _ (lit "https") (lit "onedrive.live.com")
           (lit "/view") (lit "name=a%20b") (lit "top") out).
  - right. reflexivity.
  - split; [discriminate | each_char].
  - split; [right; exists (lit "view"); reflexivity | each_char].
  - apply not_in_text. vm_compute. reflexivity.
  - each_char.
  - vm_compute. reflexivity.
Defined.

(** A link with a lone surrogate in its query. *)
Lemma personal_rule_failures_witness :
  let url := lit "https://onedrive.live.com/view?a=" ++ [55296%N] in
  ((exists msg, UnicodeEncodeError = ValueError msg)
   /\ Urllib.urlparse url = Raise UnicodeEncodeError)
  \/ (UnicodeEncodeError = UnicodeEncodeError /\ ~ Encodable url
      /\ exists p, Urllib.urlparse url = OK p).
Proof.
  intros url. apply (@personal_rule_failures _ url UnicodeEncodeError).
  right. vm_compute. reflexivity.
Defined.

(** A field of a space and a tab. *)
Lemma blank_input_is_not_parsed_witness :
  index_post (Some [32; 9]%N)
  = Ret (OK (mkPage None (Some (Utf8.text "请填写分享链接")) (Some []))).
Proof.
  apply (proj1 (@blank_input_is_not_parsed _ (Some [32; 9]%N))).
  intros c [<- | [<- | []]]; vm_compute; tauto.
Defined.

(** A host that opens a bracket and does not close it. *)
Lemma unmatched_bracket_escapes_witness :
  let url := lit "https" ++ lit "://" ++ lit "[onedrive.live.com" ++ lit "/x" in
  (forall timeout,
      parse_onedrive_direct_link url timeout
      = Ret (Raise (ValueError (lit "Invalid IPv6 URL"))))
  /\ (strip url = url ->
      forall net,
        run net (index_post (Some url))
        = (Raise (ValueError (lit "Invalid IPv6 URL")), [])).
Proof.
  apply (@unmatched_bracket_escapes _ (lit "https") (lit "[onedrive.live.com")
           (lit "/x")).
  - right. reflexivity.
  - each_char.
  - left. reflexivity.
  - each_char.
  - left. split; [apply mem_iff; reflexivity | apply not_in_text; reflexivity].
Defined.

(** A folder link written in capitals, and a file link whose query names a
    folder. *)
Lemma folder_test_reads_the_path_witness :
  is_folder_link (lit "https://contoso.sharepoint.com/:F:/g/personal/a/b?x=1")
  = OK true
  /\ is_folder_link
       (lit "https://contoso.sharepoint.com/:u:/g/personal/a/b?next=/:f:/")
     = OK false.
Proof.
  assert (Hnet : PlainNetloc (lit "contoso.sharepoint.com"))
    by (split; [discriminate | each_char]).
  split.
  - apply (proj2 (@folder_test_reads_the_path _ (lit "https")
                    (lit "contoso.sharepoint.com") (lit "/:F:/g/personal/a/b")
                    (lit "x=1") []
                    (or_intror eq_refl) Hnet
                    ltac:(split; [right; eexists; reflexivity | each_char])
                    ltac:(apply not_in_text; reflexivity)
                    ltac:(each_char))).
    left. apply contains_iff. vm_compute. reflexivity.
  - vm_compute. reflexivity.
Defined.
